(** * Simulation drivers of deployment/tasks/run-simulation.ts

    A shallow embedding of the event store, the ledger watcher
    ([processLog]), the signing-policy driver ([defineNextSigningPolicy]),
    the voting-round driver ([runVotingRound]) and the finalization step
    ([fakeFinalize]), with the properties the specification states about
    them.

    Numbers are JavaScript numbers holding integers (round ids, epoch ids,
    timestamps): they are modelled as [Z].  [Map<number, _>] is a [gmap Z _],
    [Set<string>] a [gset string].  Asynchronous code is a state-and-error
    computation that also emits the list of everything it did (contract
    calls with their answers, log lines); every [await] hands the world to
    the environment, which may change it arbitrarily (this is where the
    other timers and the ledger watcher run). *)

From Stdlib Require Import ZArith Lia.
From stdpp Require Import gmap strings list fin_maps pretty.

Local Open Scope string_scope.
Local Open Scope list_scope.
Local Open Scope Z_scope.

(** ** Constants (lines 33-39, 125) *)

Definition TIMELOCK_SEC : Z := 3600.
Definition REWARD_EPOCH_DURATION_IN_VOTING_EPOCHS : Z := 5.
Definition VOTING_EPOCH_DURATION_SEC : Z := 20.
Definition REWARD_EPOCH_DURATION_IN_SEC : Z :=
  REWARD_EPOCH_DURATION_IN_VOTING_EPOCHS * VOTING_EPOCH_DURATION_SEC.
Definition FIRST_REWARD_EPOCH_VOTING_ROUND_ID : Z := 1000.
Definition FIRST_REWARD_EPOCH_START_VOTING_ROUND_ID : Z := 1000.
Definition FTSO_PROTOCOL_ID : Z := 100.

(** ** Data model *)

(** web3-core [Account]: the two fields the simulation reads. *)
Record Account := mkAccount {
  address : string;
  privateKey : string
}.

(** [interface RegisteredAccount] (lines 129-134). *)
Record RegisteredAccount := mkRegisteredAccount {
  submit : Account;
  submitSignatures : Account;
  signingPolicy : Account;
  identity : Account
}.

(** [class EventStore] (lines 136-140). *)
Record EventStore := mkEventStore {
  initializedVotingRound : Z;
  rewardEpochEvents : gmap Z (list string)
}.

Definition newEventStore : EventStore :=
  {| initializedVotingRound := 0; rewardEpochEvents := ∅ |}.

(** The object [extractSigningPolicy] returns (lines 771-780).  The seed is
    kept as the number the log carries; its rendering as a hexadecimal
    string plays no part below. *)
Record ISigningPolicy := mkSigningPolicy {
  rewardEpochId : Z;
  startVotingRoundId : Z;
  threshold : Z;
  seed : N;
  voters : list string;
  weights : list Z
}.

(** [IProtocolMessageMerkleRoot], as built at lines 644-649. *)
Record IProtocolMessageMerkleRoot := mkMessage {
  protocolId : Z;
  votingRoundId : Z;
  isSecureRandom : bool;
  merkleRoot : string
}.

(** The object literal of lines 664-668.  Signatures, hashes and encoded
    payloads are opaque strings. *)
Record RelayMessage := mkRelayMessage {
  rm_signingPolicy : ISigningPolicy;
  rm_signatures : list string;
  rm_protocolMessageMerkleRoot : IProtocolMessageMerkleRoot
}.

(** Decoded logs are dynamically shaped; the simulation reads the event name
    and, depending on it, the fields of a signing policy or the
    [thresholdReached] flag. *)
Inductive LogArgs :=
  | PolicyArgs (p : ISigningPolicy)
  | SignedArgs (thresholdReached : bool)
  | NoArgs.

Record Log := mkLog {
  event : string;
  args : LogArgs
}.

(** [args.thresholdReached] used as a condition: a missing field is
    [undefined], which is falsy. *)
Definition thresholdReached (a : LogArgs) : bool :=
  match a with
  | SignedArgs b => b
  | _ => false
  end.

(** ** Strings *)

(** [String.prototype.toLowerCase] on the ASCII range (addresses are
    hexadecimal strings). *)
Definition lower_ascii (ch : Ascii.ascii) : Ascii.ascii :=
  let n := Ascii.N_of_ascii ch in
  if ((65 <=? n) && (n <=? 90))%N then Ascii.ascii_of_N (n + 32) else ch.

Fixpoint toLowerCase (s : string) : string :=
  match s with
  | EmptyString => EmptyString
  | String ch rest => String (lower_ascii ch) (toLowerCase rest)
  end.

Definition newline : string := String (Ascii.ascii_of_nat 10) EmptyString.

(** [s.slice(a, b)] for [0 <= a <= b] and [s.slice(a)]. *)
Definition slice (a b : nat) (s : string) : string := String.substring a (b - a) s.
Definition slice_from (a : nat) (s : string) : string :=
  String.substring a (String.length s - a) s.

(** ** Epoch settings *)

(** The methods of [EpochSettings] the drivers call.  The class lives in
    deployment/utils/EpochSettings.ts; the drivers are stated over any
    implementation of this interface. *)
Record EpochSettings := mkEpochSettings {
  votingEpochForTime : Z -> Z;
  rewardEpochForTime : Z -> Z;
  votingEpochStartMs : Z -> Z;
  votingEpochDurationSec : Z
}.

Module EpochClock.

(** Modelled from the spec: the timing parameters of [EpochSettings]
    (deployment/utils/EpochSettings.ts), the genesis start of round 0,
    the round duration, and the "configured first-reward-epoch round
    offset and epochs-per-round-span" of section 4.1. *)
Record Config := mkConfig {
  firstRoundStart : Z;
  roundDurationSec : Z;
  firstRewardEpochStartVotingRoundId : Z;
  rewardEpochDurationInVotingEpochs : Z
}.

(** Modelled from the spec: [EpochSettings.votingEpochForTime] in seconds,
    "roundId = floor((timestamp - firstRoundStart) / roundDurationSec)".
    [Z.div] rounds towards minus infinity. *)
Definition votingRoundAt (cfg : Config) (timestamp : Z) : Z :=
  (timestamp - firstRoundStart cfg) / roundDurationSec cfg.

(** Modelled from the spec: [EpochSettings.rewardEpochForTime] in seconds,
    "rewardEpochId is derived from the configured first-reward-epoch round
    offset and epochs-per-round-span". *)
Definition rewardEpochAt (cfg : Config) (timestamp : Z) : Z :=
  (votingRoundAt cfg timestamp - firstRewardEpochStartVotingRoundId cfg)
    / rewardEpochDurationInVotingEpochs cfg.

(** Modelled from the spec: [roundStart(roundId)] of section 4.1. *)
Definition roundStart (cfg : Config) (roundId : Z) : Z :=
  firstRoundStart cfg + roundId * roundDurationSec cfg.

(** Modelled from the spec: "malformed config (non-positive duration) is
    rejected at construction". *)
Definition wellFormed (cfg : Config) : bool :=
  (0 <? roundDurationSec cfg) && (0 <? rewardEpochDurationInVotingEpochs cfg).

(** Modelled from the spec: the [EpochSettings] object over a
    configuration; the drivers pass milliseconds ([timestamp * 1000],
    [Date.now()]). *)
Definition settings (cfg : Config) : EpochSettings :=
  {| votingEpochForTime := fun unixMilli => votingRoundAt cfg (unixMilli / 1000);
     rewardEpochForTime := fun unixMilli => rewardEpochAt cfg (unixMilli / 1000);
     votingEpochStartMs := fun roundId => roundStart cfg roundId * 1000;
     votingEpochDurationSec := roundDurationSec cfg |}.

(** The configuration [systemSettings(now)] describes (lines 102-107). *)
Definition systemSettings (now : Z) : Config :=
  {| firstRoundStart := now - FIRST_REWARD_EPOCH_START_VOTING_ROUND_ID * VOTING_EPOCH_DURATION_SEC;
     roundDurationSec := VOTING_EPOCH_DURATION_SEC;
     firstRewardEpochStartVotingRoundId := FIRST_REWARD_EPOCH_START_VOTING_ROUND_ID;
     rewardEpochDurationInVotingEpochs := REWARD_EPOCH_DURATION_IN_VOTING_EPOCHS |}.

(** The scenario of section 8: rounds of 20 s, genesis round 0 at [t0],
    reward epochs of 100 s = 5 rounds counted from round 0. *)
Definition scenario (t0 : Z) : Config :=
  {| firstRoundStart := t0;
     roundDurationSec := VOTING_EPOCH_DURATION_SEC;
     firstRewardEpochStartVotingRoundId := 0;
     rewardEpochDurationInVotingEpochs :=
       REWARD_EPOCH_DURATION_IN_SEC / VOTING_EPOCH_DURATION_SEC |}.

End EpochClock.

(** ** Effects *)

Inductive Level := LInfo | LError.

(** What the drivers ask of the outside world. *)
Inductive Call :=
  | GetCurrentRewardEpochId
  | GetCurrentRandomWithQuality
  | RegisterVoter (voter signature from : string)
  | ToSigningPolicyHash (rewardEpoch : Z)
  | SignNewSigningPolicy (rewardEpoch : Z) (hash signature from : string)
  | GetConfirmedMerkleRoot (protocol round : Z)
  | Submit1 (from : string)
  | Submit2 (from : string)
  | SubmitSignatures (from : string)
  | SendTransaction (from to data : string)
  | Sleep (ms : Z).

(** What came back: a rejected promise, or the value it resolved to. *)
Inductive Answer :=
  | Rejected (e : string)
  | Done
  | Num (n : Z)
  | Str (s : string)
  | Random (value : Z) (quality : bool)
  | Logs (logs : list Log).

Inductive Effect :=
  | Called (c : Call) (a : Answer)
  | Logged (logger : string) (lvl : Level) (msg : string).

(** An awaited promise. *)
Inductive Outcome (A : Type) :=
  | Returned (a : A)
  | Failed (e : string).
Arguments Returned {A} a.
Arguments Failed {A} e.

(** How a driver ends: it returns, it throws, or it is still inside one of
    its unbounded wait loops when the fuel given to the model runs out. *)
Inductive Result (A : Type) :=
  | Ok (a : A)
  | Thrown (e : string)
  | Pending.
Arguments Ok {A} a.
Arguments Thrown {A} e.
Arguments Pending {A}.

(** The calls of a trace, in order, and the calls with their answers. *)
Definition callOf (e : Effect) : option Call :=
  match e with Called c _ => Some c | Logged _ _ _ => None end.
Definition calls (t : list Effect) : list Call := omap callOf t.

Definition isSubmission (c : Call) : bool :=
  match c with
  | Submit1 _ | Submit2 _ | SubmitSignatures _ => true
  | _ => false
  end.
Definition submissions (t : list Effect) : list Call := List.filter isSubmission (calls t).

(** ** The simulation *)

Section Simulation.

(** The state of the network and of everything else outside the drivers. *)
Context {Chain : Type}.

(** What the tasks of [runSimulation] share: the chain, the [EventStore]
    [events], the map [signingPolicies] and the wall clock. *)
Record World := mkWorld {
  chain : Chain;
  events : EventStore;
  signingPolicies : gmap Z ISigningPolicy;
  clock : Z
}.

(** The contract methods the drivers call on [c : DeployedContracts]; a
    call may change the world and resolves or rejects. *)
Record DeployedContracts := mkContracts {
  flareSystemsManager_getCurrentRewardEpochId : World -> Outcome Z * World;
  flareSystemsManager_signNewSigningPolicy :
    Z -> string -> string -> string -> World -> Outcome (list Log) * World;
  submission_getCurrentRandomWithQuality : World -> Outcome (Z * bool) * World;
  submission_submit1 : string -> World -> Outcome unit * World;
  submission_submit2 : string -> World -> Outcome unit * World;
  submission_submitSignatures : string -> World -> Outcome unit * World;
  voterRegistry_registerVoter : string -> string -> string -> World -> Outcome unit * World;
  relay_toSigningPolicyHash : Z -> World -> Outcome string * World;
  relay_getConfirmedMerkleRoot : Z -> Z -> World -> Outcome string * World;
  relay_address : string
}.

(** The services of [web3] the drivers use. *)
Record Web3 := mkWeb3 {
  utils_keccak256 : string -> string;
  eth_abi_encodeParameters_uint24_address : Z -> string -> string;
  eth_accounts_sign : string -> string -> string;
  eth_sendTransaction : string -> string -> string -> World -> Outcome unit * World
}.

(** The timer behind [sleep] and the protocol library
    (scripts/libs/protocol, JSON): opaque services. *)
Record Runtime := mkRuntime {
  setTimeout_resolve : Z -> World -> World;
  ProtocolMessageMerkleRoot_hash : IProtocolMessageMerkleRoot -> string;
  RelayMessage_encode : RelayMessage -> string;
  ECDSASignature_signMessageHash : string -> string -> string;
  JSON_stringify : ISigningPolicy -> string
}.

(** The module-level constants [processEnv()] returns (lines 60-100). *)
Record SimulationConfig := mkSimulationConfig {
  SKIP_VOTER_REGISTRATION_SET : gset string;
  SKIP_SIGNING_POLICY_SIGNING_SET : gset string;
  SKIP_VOTING_EPOCH_ACTIONS : bool;
  SKIP_FINALIZATIONS : bool
}.

(** *** Computations *)

Definition M (A : Type) : Type := World -> Result A * World * list Effect.

Definition ret {A} (a : A) : M A := fun w => (Ok a, w, []).

Definition bind {A B} (m : M A) (k : A -> M B) : M B := fun w =>
  match m w with
  | (Ok a, w1, t1) => let '(r, w2, t2) := k a w1 in (r, w2, t1 ++ t2)
  | (Thrown e, w1, t1) => (Thrown e, w1, t1)
  | (Pending, w1, t1) => (Pending, w1, t1)
  end.

Definition throw {A} (e : string) : M A := fun w => (Thrown e, w, []).

Definition pending {A} : M A := fun w => (Pending, w, []).

(** [try { m } catch (e) { h e }]. *)
Definition try_catch {A} (m : M A) (h : string -> M A) : M A := fun w =>
  match m w with
  | (Thrown e, w1, t1) => let '(r, w2, t2) := h e w1 in (r, w2, t1 ++ t2)
  | other => other
  end.

Definition getWorld : M World := fun w => (Ok w, w, []).

Definition modify (f : World -> World) : M unit := fun w => (Ok tt, f w, []).

Definition emit (t : list Effect) : M unit := fun w => (Ok tt, w, t).

Definition logInfo (logger msg : string) : M unit :=
  fun w => (Ok tt, w, [Logged logger LInfo msg]).

Definition logError (logger msg : string) : M unit :=
  fun w => (Ok tt, w, [Logged logger LError msg]).

(** [await] of a call to the outside. *)
Definition await {A} (c : Call) (inj : A -> Answer)
    (run : World -> Outcome A * World) : M A := fun w =>
  match run w with
  | (Returned a, w1) => (Ok a, w1, [Called c (inj a)])
  | (Failed e, w1) => (Thrown e, w1, [Called c (Rejected e)])
  end.

#[export] Instance M_ret : MRet M := @ret.
#[export] Instance M_bind : MBind M := fun A B k m => bind m k.

Variable c : DeployedContracts.
Variable web3 : Web3.
Variable rt : Runtime.
Variable cfg : SimulationConfig.
Variable epochSettings : EpochSettings.

(** [sleep(ms)] (lines 809-811): the driver is suspended and the rest of
    the simulation runs. *)
Definition sleep (ms : Z) : M unit := fun w =>
  (Ok tt, setTimeout_resolve rt ms w, [Called (Sleep ms) Done]).

(** [Date.now()]. *)
Definition Date_now : M Z := fun w => (Ok (clock w), w, []).

(** [RELAY_SELECTOR] (line 127). *)
Definition RELAY_SELECTOR : string := slice 0 10 (utils_keccak256 web3 "relay()").

(** *** The event store and the ledger watcher *)

(** Lines 373-375: [existing = get(id) || []; existing.push(name);
    set(id, existing)]. *)
Definition recordEvent (rewardEpoch : Z) (name : string)
    (m : gmap Z (list string)) : gmap Z (list string) :=
  let existing := default [] (m !! rewardEpoch) in
  <[rewardEpoch := existing ++ [name]]> m.

(** [m.get(id)?.includes(name)], read as a condition. *)
Definition hasEvent (m : gmap Z (list string)) (rewardEpoch : Z) (name : string) : bool :=
  match m !! rewardEpoch with
  | Some l => bool_decide (name ∈ l)
  | None => false
  end.

(** Lines 367-370. *)
Definition markRoundInitialized (round : Z) (ev : EventStore) : EventStore :=
  if round >? initializedVotingRound ev
  then {| initializedVotingRound := round; rewardEpochEvents := rewardEpochEvents ev |}
  else ev.

(** [extractSigningPolicy] (lines 771-780); on arguments that carry no
    policy, [logArg.weights.map] throws. *)
Definition extractSigningPolicy (logArg : LogArgs) : option ISigningPolicy :=
  match logArg with
  | PolicyArgs p => Some p
  | _ => None
  end.

Definition setEvents (f : EventStore -> EventStore) (w : World) : World :=
  {| chain := chain w; events := f (events w);
     signingPolicies := signingPolicies w; clock := clock w |}.

Definition setSigningPolicy (p : ISigningPolicy) (w : World) : World :=
  {| chain := chain w; events := events w;
     signingPolicies := <[rewardEpochId p := p]> (signingPolicies w); clock := clock w |}.

(** [processLog] (lines 364-383). *)
Definition processLog (log : Log) (timestamp : Z) : M unit :=
  logInfo "" ("Event " +:+ event log +:+ " emitted") ;;
  if String.eqb (event log) "NewVotingRoundInitiated" then
    let votingRoundId := votingEpochForTime epochSettings (timestamp * 1000) in
    modify (setEvents (markRoundInitialized votingRoundId))
  else
    let rewardEpochId := rewardEpochForTime epochSettings (timestamp * 1000) in
    modify (setEvents (fun ev =>
      {| initializedVotingRound := initializedVotingRound ev;
         rewardEpochEvents := recordEvent rewardEpochId (event log) (rewardEpochEvents ev) |})) ;;
    if String.eqb (event log) "SigningPolicyInitialized" then
      match extractSigningPolicy (args log) with
      | Some signingPolicy =>
          modify (setSigningPolicy signingPolicy) ;;
          logInfo "" ("New signing policy:" +:+ newline +:+ JSON_stringify rt signingPolicy)
      | None => throw "TypeError: Cannot read properties of undefined (reading 'map')"
      end
    else ret tt.

(** The loops of lines 310-322: the logs of one [daemonize] response,
    processed in order; an exception ends the loop. *)
Fixpoint processLogs (logs : list Log) (blockTimestamp : Z) : M unit :=
  match logs with
  | [] => ret tt
  | log :: rest => processLog log blockTimestamp ;; processLogs rest blockTimestamp
  end.

(** *** The signing-policy driver *)

(** The wait loops of lines 478-481, 486-488 and 499-501:
    [while (!rewardEvents.get(id)?.includes(name)) { body; await sleep(500) }].
    [fuel] bounds the number of sleeps. *)
Fixpoint awaitEvent (fuel : nat) (rewardEpoch : Z) (name : string) (body : M unit) : M unit :=
  w ← getWorld;
  if hasEvent (rewardEpochEvents (events w)) rewardEpoch name then ret tt
  else
    match fuel with
    | O => pending
    | S fuel' => body ;; sleep 500 ;; awaitEvent fuel' rewardEpoch name body
    end.

(** [registerVoter] (lines 762-769). *)
Definition registerVoter (rewardEpoch : Z) (acc : RegisteredAccount) : M unit :=
  let hash :=
    utils_keccak256 web3
      (eth_abi_encodeParameters_uint24_address web3 rewardEpoch (address (identity acc))) in
  let signature := eth_accounts_sign web3 hash (privateKey (signingPolicy acc)) in
  await (RegisterVoter (address (identity acc)) signature (address (submitSignatures acc)))
    (fun _ => Done)
    (voterRegistry_registerVoter c (address (identity acc)) signature
       (address (submitSignatures acc))).

Definition skipsRegistration (acc : RegisteredAccount) : bool :=
  bool_decide (toLowerCase (address (signingPolicy acc)) ∈ SKIP_VOTER_REGISTRATION_SET cfg).

Definition skipsSigning (acc : RegisteredAccount) : bool :=
  bool_decide (toLowerCase (address (signingPolicy acc)) ∈ SKIP_SIGNING_POLICY_SIGNING_SET cfg).

(** The loop of lines 490-496. *)
Fixpoint registerVoters (nextRewardEpochId : Z) (registeredAccounts : list RegisteredAccount)
    : M unit :=
  match registeredAccounts with
  | [] => ret tt
  | acc :: rest =>
      (if skipsRegistration acc then
         logInfo "signingPolicy"
           ("Skipping automatic voter registration for " +:+ address (signingPolicy acc))
       else
         logInfo "signingPolicy" ("Registering voter " +:+ address (signingPolicy acc)) ;;
         registerVoter nextRewardEpochId acc) ;;
      registerVoters nextRewardEpochId rest
  end.

(** The loop of lines 506-530; the [return] of line 528 ends it. *)
Fixpoint signNewSigningPolicies (governanceAccount : Account) (nextRewardEpochId : Z)
    (newSigningPolicyHash : string) (registeredAccounts : list RegisteredAccount) : M unit :=
  match registeredAccounts with
  | [] => ret tt
  | acc :: rest =>
      if skipsSigning acc then
        logInfo "signingPolicy"
          ("Skipping automatic new signing policy signing for "
             +:+ address (signingPolicy acc)) ;;
        signNewSigningPolicies governanceAccount nextRewardEpochId newSigningPolicyHash rest
      else
        let signature :=
          eth_accounts_sign web3 newSigningPolicyHash (privateKey (signingPolicy acc)) in
        logs ← await
          (SignNewSigningPolicy nextRewardEpochId newSigningPolicyHash signature
             (address governanceAccount))
          Logs
          (flareSystemsManager_signNewSigningPolicy c nextRewardEpochId newSigningPolicyHash
             signature (address governanceAccount));
        match logs with
        | log0 :: _ =>
            if String.eqb (event log0) "SigningPolicySigned" then
              if thresholdReached (args log0) then
                logInfo "signingPolicy"
                  ("Signed policy with account " +:+ address (signingPolicy acc)
                     +:+ " - threshold reached")
              else
                signNewSigningPolicies governanceAccount nextRewardEpochId
                  newSigningPolicyHash rest
            else throw "Expected signing policy to be signed"
        | [] => throw "Expected signing policy to be signed"
        end
  end.

(** [defineNextSigningPolicy] (lines 465-531); [rewardEvents] is
    [events.rewardEpochEvents] of the shared store. *)
Definition defineNextSigningPolicy (fuel : nat) (governanceAccount : Account)
    (registeredAccounts : list RegisteredAccount) : M unit :=
  rewardEpochId ← await GetCurrentRewardEpochId Num
    (flareSystemsManager_getCurrentRewardEpochId c);
  let nextRewardEpochId := rewardEpochId + 1 in
  logInfo "signingPolicy"
    ("Running signing policy definition protocol, current reward epoch: "
       +:+ pretty rewardEpochId) ;;
  logInfo "signingPolicy" "Awaiting random acquisition start" ;;
  awaitEvent fuel rewardEpochId "RandomAcquisitionStarted"
    (logInfo "signingPolicy" "Waiting for random acuisition") ;;
  random ← await GetCurrentRandomWithQuality (fun r => Random r.1 r.2)
    (submission_getCurrentRandomWithQuality c);
  if negb random.2 then throw "No good random"
  else
    logInfo "signingPolicy" "Awaiting voting power block selection" ;;
    awaitEvent fuel rewardEpochId "VotePowerBlockSelected" (ret tt) ;;
    registerVoters nextRewardEpochId registeredAccounts ;;
    logInfo "signingPolicy" "Awaiting signing policy initialization" ;;
    awaitEvent fuel rewardEpochId "SigningPolicyInitialized" (ret tt) ;;
    logInfo "signingPolicy"
      ("Signing policy for next reward epoch " +:+ pretty nextRewardEpochId) ;;
    newSigningPolicyHash ← await (ToSigningPolicyHash nextRewardEpochId) Str
      (relay_toSigningPolicyHash c nextRewardEpochId);
    signNewSigningPolicies governanceAccount nextRewardEpochId newSigningPolicyHash
      registeredAccounts.

(** *** Finalization *)

(** Line 654: [registeredAccounts.find(x =>
    x.signingPolicy.address.toLowerCase() == voter.toLowerCase())]. *)
Definition findAccount (registeredAccounts : list RegisteredAccount) (voter : string)
    : option RegisteredAccount :=
  List.find
    (fun x => String.eqb (toLowerCase (address (signingPolicy x))) (toLowerCase voter))
    registeredAccounts.

(** The loop of lines 652-660: the keys pushed to [privateKeysInOrder], and
    the lines logged for the voters without a local account. *)
Fixpoint privateKeysInOrder (voters : list string)
    (registeredAccounts : list RegisteredAccount) : list string * list Effect :=
  match voters with
  | [] => ([], [])
  | voter :: rest =>
      let '(keys, logged) := privateKeysInOrder rest registeredAccounts in
      match findAccount registeredAccounts voter with
      | Some acc => (privateKey (signingPolicy acc) :: keys, logged)
      | None =>
          (keys,
           Logged "finalize" LInfo ("Voter not among registered accounts: " +:+ voter)
             :: logged)
      end
  end.

(** Modelled from the spec: [generateSignatures] of
    test/unit/protocol/coding/coding-helpers, "for each voter that matches
    a known local participant, produce that participant's signature over
    the digest": the signatures of the first [count] keys, in order. *)
Definition generateSignatures (privateKeys : list string) (messageHash : string)
    (count : nat) : list string :=
  map (ECDSASignature_signMessageHash rt messageHash) (take count privateKeys).

(** The signatures [fakeFinalize] puts in the relay message (lines
    652-662). *)
Definition finalizationSignatures (policy : ISigningPolicy)
    (registeredAccounts : list RegisteredAccount) (messageHash : string) : list string :=
  let keys := (privateKeysInOrder (voters policy) registeredAccounts).1 in
  generateSignatures keys messageHash (length keys).

(** Lines 643-649. *)
Definition messageData (now : Z) : IProtocolMessageMerkleRoot :=
  let votingRoundId := votingEpochForTime epochSettings now in
  {| protocolId := FTSO_PROTOCOL_ID;
     votingRoundId := votingRoundId;
     isSecureRandom := true;
     merkleRoot := utils_keccak256 web3 ("root1" +:+ pretty votingRoundId) |}.

(** [fakeFinalize] (lines 630-682). *)
Definition fakeFinalize (registeredAccounts : list RegisteredAccount) (now : Z) : M unit :=
  let votingRoundId := votingEpochForTime epochSettings now in
  let rewardEpochId := rewardEpochForTime epochSettings now in
  w ← getWorld;
  match signingPolicies w !! rewardEpochId with
  | None => throw "TypeError: Cannot read properties of undefined (reading 'voters')"
  | Some policy =>
      emit (privateKeysInOrder (voters policy) registeredAccounts).2 ;;
      let messageHash := ProtocolMessageMerkleRoot_hash rt (messageData now) in
      let signatures := finalizationSignatures policy registeredAccounts messageHash in
      let relayMessage :=
        {| rm_signingPolicy := policy;
           rm_signatures := signatures;
           rm_protocolMessageMerkleRoot := messageData now |} in
      let fullData := RelayMessage_encode rt relayMessage in
      try_catch
        (match registeredAccounts with
         | [] => throw "TypeError: Cannot read properties of undefined (reading 'signingPolicy')"
         | acc0 :: _ =>
             await
               (SendTransaction (address (signingPolicy acc0)) (relay_address c)
                  (RELAY_SELECTOR +:+ slice_from 2 fullData))
               (fun _ => Done)
               (eth_sendTransaction web3 (address (signingPolicy acc0)) (relay_address c)
                  (RELAY_SELECTOR +:+ slice_from 2 fullData)) ;;
             logInfo "finalize" ("Finalized for voting round " +:+ pretty votingRoundId)
         end)
        (fun e => logError "finalize" e)
  end.

(** *** The voting-round driver *)

(** The wait loop of lines 584-587:
    [while (votingRoundId < events.initializedVotingRound) { info; await sleep(500) }]. *)
Fixpoint awaitInitialization (fuel : nat) (votingRoundId : Z) : M unit :=
  w ← getWorld;
  if votingRoundId <? initializedVotingRound (events w) then
    match fuel with
    | O => pending
    | S fuel' =>
        logInfo "voting" ("Waiting for voting round to start " +:+ pretty votingRoundId) ;;
        sleep 500 ;;
        awaitInitialization fuel' votingRoundId
    end
  else ret tt.

(** The three loops of lines 595-601, 604-610 and 618-624:
    [for (acc of registeredAccounts) { try { await call } catch (e) { logger.error(e) } }]. *)
Fixpoint forEachTry (call : RegisteredAccount -> M unit)
    (registeredAccounts : list RegisteredAccount) : M unit :=
  match registeredAccounts with
  | [] => ret tt
  | acc :: rest =>
      try_catch (call acc) (fun e => logError "voting" e) ;;
      forEachTry call rest
  end.

Definition submit1 (acc : RegisteredAccount) : M unit :=
  await (Submit1 (address (submit acc))) (fun _ => Done)
    (submission_submit1 c (address (submit acc))).

Definition submit2 (acc : RegisteredAccount) : M unit :=
  await (Submit2 (address (submit acc))) (fun _ => Done)
    (submission_submit2 c (address (submit acc))).

Definition submitSignatures_ (acc : RegisteredAccount) : M unit :=
  await (SubmitSignatures (address (submitSignatures acc))) (fun _ => Done)
    (submission_submitSignatures c (address (submitSignatures acc))).

(** [runVotingRound] (lines 568-628); [now] is the argument the caller
    passes or captures from [Date.now()] on entry. *)
Definition runVotingRound (fuel : nat) (skipSubmit : bool)
    (registeredAccounts : list RegisteredAccount)
    (skipFinalisation : bool) (now : Z) : M unit :=
  let votingRoundId := votingEpochForTime epochSettings now in
  let rewardEpochId := rewardEpochForTime epochSettings now in
  awaitInitialization fuel votingRoundId ;;
  logInfo "voting"
    ("Running voting protocol for round " +:+ pretty votingRoundId
       +:+ ", reward epoch: " +:+ pretty rewardEpochId) ;;
  previousMerkleRoot ← await (GetConfirmedMerkleRoot FTSO_PROTOCOL_ID (votingRoundId - 2)) Str
    (relay_getConfirmedMerkleRoot c FTSO_PROTOCOL_ID (votingRoundId - 2));
  logInfo "voting"
    ("Confirmed merkle root in the last round " +:+ pretty (votingRoundId - 2)
       +:+ ": " +:+ previousMerkleRoot) ;;
  (if negb skipSubmit then
     forEachTry submit1 registeredAccounts ;;
     let revealStartMs := votingEpochStartMs epochSettings (votingRoundId + 1) in
     t ← Date_now;
     sleep (revealStartMs - t) ;;
     forEachTry submit2 registeredAccounts
   else ret tt) ;;
  let revealDeadlineMs :=
    votingEpochStartMs epochSettings (votingRoundId + 1)
      + (votingEpochDurationSec epochSettings * 1000) / 2 in
  t ← Date_now;
  sleep (revealDeadlineMs - t) ;;
  (if negb skipSubmit then forEachTry submitSignatures_ registeredAccounts else ret tt) ;;
  (if negb skipFinalisation then fakeFinalize registeredAccounts now else ret tt) ;;
  logInfo "voting" ("Voting round " +:+ pretty votingRoundId +:+ " finished").

End Simulation.

(** The three components of a finished run. *)
Definition resultOf {W A} (x : Result A * W * list Effect) : Result A := x.1.1.
Definition worldOf {W A} (x : Result A * W * list Effect) : W := x.1.2.
Definition traceOf {W A} (x : Result A * W * list Effect) : list Effect := x.2.

(** ** Reading traces *)

(** The calls of a trace with their answers. *)
Definition exchangeOf (e : Effect) : option (Call * Answer) :=
  match e with Called c a => Some (c, a) | Logged _ _ _ => None end.
Definition exchanges (t : list Effect) : list (Call * Answer) := omap exchangeOf t.

(** The test of line 521 on the logs of a response: [logs[0]?.event] is
    ["SigningPolicySigned"]. *)
Definition acknowledged (logs : list Log) : bool :=
  match logs with
  | log0 :: _ => String.eqb (event log0) "SigningPolicySigned"
  | [] => false
  end.

(** An acknowledgement that carries [thresholdReached = true]. *)
Definition reportsThreshold (a : Answer) : bool :=
  match a with
  | Logs (log0 :: _) =>
      String.eqb (event log0) "SigningPolicySigned" && thresholdReached (args log0)
  | _ => false
  end.

Definition isSignNewSigningPolicy (c : Call) : bool :=
  match c with SignNewSigningPolicy _ _ _ _ => true | _ => false end.

Definition isRejected (a : Answer) : bool :=
  match a with Rejected _ => true | _ => false end.

(** The lines the "finalize" logger writes and the relay transaction: what
    only [fakeFinalize] does. *)
Definition isFinalizeEffect (e : Effect) : bool :=
  match e with
  | Logged logger _ _ => String.eqb logger "finalize"
  | Called (SendTransaction _ _ _) _ => true
  | Called _ _ => false
  end.

Section Requests.
Context {Chain : Type}.
Variable web3 : @Web3 Chain.

(** The request one participant's turn of the ratification loop sends. *)
Definition signRequest (governanceAccount : Account) (nextRewardEpochId : Z)
    (newSigningPolicyHash : string) (acc : RegisteredAccount) : Call :=
  SignNewSigningPolicy nextRewardEpochId newSigningPolicyHash
    (eth_accounts_sign web3 newSigningPolicyHash (privateKey (signingPolicy acc)))
    (address governanceAccount).

(** The request [registerVoter] sends for one participant. *)
Definition registrationRequest (rewardEpoch : Z) (acc : RegisteredAccount) : Call :=
  RegisterVoter (address (identity acc))
    (eth_accounts_sign web3
       (utils_keccak256 web3
          (eth_abi_encodeParameters_uint24_address web3 rewardEpoch (address (identity acc))))
       (privateKey (signingPolicy acc)))
    (address (submitSignatures acc)).

(** A run of [processLog] calls, each with the timestamp of its block, as
    the loop of lines 303-325 issues them; an exception ends the loop. *)
Fixpoint processEach (rt : @Runtime Chain) (epochSettings : EpochSettings)
    (items : list (Log * Z)) : M unit :=
  match items with
  | [] => ret tt
  | (log, timestamp) :: rest =>
      processLog rt epochSettings log timestamp ;; processEach rt epochSettings rest
  end.

(** The end of [runVotingRound] (lines 626-627) after a finalization that
    ran from the trace [t0] on. *)
Definition finishRound (votingRoundId : Z) (t0 : list Effect)
    (finalization : Result unit * @World Chain * list Effect)
    : Result unit * @World Chain * list Effect :=
  match finalization with
  | (Ok _, w, tf) =>
      (Ok tt, w,
       t0 ++ tf ++ [Logged "voting" LInfo
                      ("Voting round " +:+ pretty votingRoundId +:+ " finished")])
  | (r, w, tf) => (r, w, t0 ++ tf)
  end.

End Requests.

(** The predicate of line 654. *)
Definition matchesVoter (voter : string) (x : RegisteredAccount) : bool :=
  String.eqb (toLowerCase (address (signingPolicy x))) (toLowerCase voter).

(** A local participant with this signing-policy address (case folded). *)
Definition isLocal (registeredAccounts : list RegisteredAccount) (voter : string) : bool :=
  existsb
    (fun x => String.eqb (toLowerCase (address (signingPolicy x))) (toLowerCase voter))
    registeredAccounts.

(** An account's address is derived from its private key: among the local
    participants, equal signing-policy addresses carry equal keys. *)
Definition keysFollowAddresses (registeredAccounts : list RegisteredAccount) : Prop :=
  forall a b, a ∈ registeredAccounts -> b ∈ registeredAccounts ->
    toLowerCase (address (signingPolicy a)) = toLowerCase (address (signingPolicy b)) ->
    privateKey (signingPolicy a) = privateKey (signingPolicy b).

(** ** A small network to run the drivers on *)

Module Demo.

(** The chain records the weight that has signed the next policy. *)
Definition participant (n : string) : RegisteredAccount :=
  {| submit := mkAccount ("0xS" +:+ n) ("key-s" +:+ n);
     submitSignatures := mkAccount ("0xG" +:+ n) ("key-g" +:+ n);
     signingPolicy := mkAccount ("0xP" +:+ n) ("key-p" +:+ n);
     identity := mkAccount ("0xI" +:+ n) ("key-i" +:+ n) |}.

Definition V1 := participant "1".
Definition V2 := participant "2".
Definition V3 := participant "3".
Definition governance : Account := mkAccount "0xGov" "key-gov".

Definition sign (data key : string) : string := "sig(" +:+ key +:+ "," +:+ data +:+ ")".

Definition tick (ms : Z) (w : @World Z) : @World Z :=
  {| chain := chain w; events := events w; signingPolicies := signingPolicies w;
     clock := clock w + Z.max ms 0 |}.

Definition web3 : @Web3 Z :=
  {| utils_keccak256 := fun s => "keccak(" +:+ s +:+ ")";
     eth_abi_encodeParameters_uint24_address := fun e a => pretty e +:+ "," +:+ a;
     eth_accounts_sign := sign;
     eth_sendTransaction := fun _ _ _ w => (Returned tt, w) |}.

Definition rt : @Runtime Z :=
  {| setTimeout_resolve := tick;
     ProtocolMessageMerkleRoot_hash := fun m => "hash(" +:+ merkleRoot m +:+ ")";
     RelayMessage_encode := fun m => "0x" +:+ String.concat ";" (rm_signatures m);
     ECDSASignature_signMessageHash := sign;
     JSON_stringify := fun p => "{rewardEpochId:" +:+ pretty (rewardEpochId p) +:+ "}" |}.

(** Voter weights [V1:3, V2:2, V3:1] and threshold 4, as in the last
    scenario of section 8 of the specification. *)
Definition weightOf (hash signature : string) : Z :=
  if String.eqb signature (sign hash "key-p1") then 3
  else if String.eqb signature (sign hash "key-p2") then 2
  else if String.eqb signature (sign hash "key-p3") then 1
  else 0.

Definition policyThreshold : Z := 4.

(** The authority: transactions sent from an address in [failing] revert;
    [signNewSigningPolicy] adds the signer's weight and acknowledges. *)
Definition contracts (failing : gset string) : @DeployedContracts Z :=
  let tx (from : string) (w : @World Z) : Outcome unit * @World Z :=
    if bool_decide (from ∈ failing) then (Failed ("revert " +:+ from), w)
    else (Returned tt, w) in
  {| flareSystemsManager_getCurrentRewardEpochId := fun w => (Returned 1, w);
     flareSystemsManager_signNewSigningPolicy := fun e hash signature from w =>
       let signed := chain w + weightOf hash signature in
       (Returned [mkLog "SigningPolicySigned" (SignedArgs (policyThreshold <=? signed))],
        {| chain := signed; events := events w; signingPolicies := signingPolicies w;
           clock := clock w |});
     submission_getCurrentRandomWithQuality := fun w => (Returned (7, true), w);
     submission_submit1 := tx;
     submission_submit2 := tx;
     submission_submitSignatures := tx;
     voterRegistry_registerVoter := fun voter signature from w => tx from w;
     relay_toSigningPolicyHash := fun e w => (Returned ("policy" +:+ pretty e), w);
     relay_getConfirmedMerkleRoot := fun p r w => (Returned "0xroot", w);
     relay_address := "0xRelay" |}.

(** An authority whose answer to [signNewSigningPolicy] carries no log. *)
Definition silentContracts : @DeployedContracts Z :=
  {| flareSystemsManager_getCurrentRewardEpochId := fun w => (Returned 1, w);
     flareSystemsManager_signNewSigningPolicy := fun e hash signature from w =>
       (Returned [], w);
     submission_getCurrentRandomWithQuality := fun w => (Returned (7, true), w);
     submission_submit1 := fun _ w => (Returned tt, w);
     submission_submit2 := fun _ w => (Returned tt, w);
     submission_submitSignatures := fun _ w => (Returned tt, w);
     voterRegistry_registerVoter := fun _ _ _ w => (Returned tt, w);
     relay_toSigningPolicyHash := fun e w => (Returned ("policy" +:+ pretty e), w);
     relay_getConfirmedMerkleRoot := fun p r w => (Returned "0xroot", w);
     relay_address := "0xRelay" |}.

Definition noSkips : SimulationConfig :=
  {| SKIP_VOTER_REGISTRATION_SET := ∅;
     SKIP_SIGNING_POLICY_SIGNING_SET := ∅;
     SKIP_VOTING_EPOCH_ACTIONS := false;
     SKIP_FINALIZATIONS := false |}.

(** The simulation's own timing, started at [now0] (seconds). *)
Definition now0 : Z := 1700000000.
Definition epochSettings : EpochSettings :=
  EpochClock.settings (EpochClock.systemSettings now0).

(** The policy of reward epoch 0: voters [V1, V2, V3] in this order. *)
Definition policy0 : ISigningPolicy :=
  {| rewardEpochId := 0; startVotingRoundId := 1000; threshold := policyThreshold;
     seed := 0%N;
     voters := ["0xp1"; "0xp2"; "0xp3"];
     weights := [3; 2; 1] |}.

(** One second into round 1001, whose initialization the watcher has not
    seen: the latest initialized round is 1000. *)
Definition world0 : @World Z :=
  {| chain := 0;
     events :=
       {| initializedVotingRound := 1000;
          rewardEpochEvents :=
            {[ 1 := ["RewardEpochStarted"; "RandomAcquisitionStarted";
                     "VotePowerBlockSelected"; "SigningPolicyInitialized"] ]} |};
     signingPolicies := {[ 0 := policy0 ]};
     clock := (now0 + 21) * 1000 |}.

End Demo.

(** ** Where a driver stops *)

Definition isRegisterVoter (c : Call) : bool :=
  match c with RegisterVoter _ _ _ => true | _ => false end.

(** A trace none of whose calls belongs to the class [cls]. *)
Definition quietFor (cls : Call -> bool) (t : list Effect) : Prop :=
  Forall (λ e, match callOf e with Some c => cls c = false | None => True end) t.

(** What lines 521-529 make of the answer to one [signNewSigningPolicy]:
    the driver returns, throws, or (no verdict) goes on to the next
    participant. *)
Definition signVerdict (a : Answer) : option (Result unit) :=
  match a with
  | Rejected e => Some (Thrown e)
  | Logs logs =>
      if acknowledged logs then
        if reportsThreshold a then Some (Ok tt) else None
      else Some (Thrown "Expected signing policy to be signed")
  | _ => None
  end.

(** What the registration loop makes of the answer to one [registerVoter]:
    a rejection is not caught. *)
Definition registerVerdict (a : Answer) : option (Result unit) :=
  match a with
  | Rejected e => Some (Thrown e)
  | _ => None
  end.

(** A run ends at the first call of class [cls] whose answer has a verdict:
    the verdict is the run's result and no call follows. *)
Definition endsAt {W} (cls : Call -> bool) (verdict : Answer -> option (Result unit))
    (run : Result unit * W * list Effect) : Prop :=
  forall pre call ans post r,
    exchanges (traceOf run) = pre ++ (call, ans) :: post ->
    cls call = true -> verdict ans = Some r ->
    resultOf run = r /\ post = [].

Definition isErrorLog (e : Effect) : bool :=
  match e with Logged _ LError _ => true | _ => false end.

(** ** The shape of a voting round *)

(** One participant's turn in a submission loop: the call and, when it was
    rejected, the line the [catch] logs. *)
Definition attempt (call : Call) (a : Answer) : list Effect :=
  match a with
  | Rejected e => [Called call (Rejected e); Logged "voting" LError e]
  | _ => [Called call a]
  end.

(** A whole submission loop, given the answers the participants got. *)
Definition phase (request : RegisteredAccount -> Call)
    (registeredAccounts : list RegisteredAccount) (answers : list Answer) : list Effect :=
  concat (zip_with attempt (map request registeredAccounts) answers).

Definition commitRequest (acc : RegisteredAccount) : Call := Submit1 (address (submit acc)).
Definition revealRequest (acc : RegisteredAccount) : Call := Submit2 (address (submit acc)).
Definition signatureRequest (acc : RegisteredAccount) : Call :=
  SubmitSignatures (address (submitSignatures acc)).

(** The driver got past its start: the confirmed merkle root was read. *)
Definition started (epochSettings : EpochSettings) (now : Z) (t : list Effect) : Prop :=
  exists root,
    Called (GetConfirmedMerkleRoot FTSO_PROTOCOL_ID (votingEpochForTime epochSettings now - 2))
      (Str root) ∈ t.

(** What the wait loop and the start of a round leave in the trace. *)
Definition isStartEffect (e : Effect) : bool :=
  match e with
  | Logged logger LInfo _ => String.eqb logger "voting"
  | Called (Sleep _) Done => true
  | Called (GetConfirmedMerkleRoot _ _) (Str _) => true
  | _ => false
  end.

(** The claim C4 makes about the registration loop, at one input: every
    participant outside the skip-set is sent a registration request, every
    failure is logged, and the loop completes. *)
Definition registrationFailuresTolerated {Chain : Type} (c : @DeployedContracts Chain)
    (web3 : @Web3 Chain) (cfg : SimulationConfig) (nextRewardEpochId : Z)
    (registeredAccounts : list RegisteredAccount) (w : @World Chain) : Prop :=
  let run := registerVoters c web3 cfg nextRewardEpochId registeredAccounts w in
  calls (traceOf run)
    = map (registrationRequest web3 nextRewardEpochId)
        (List.filter (λ acc, negb (skipsRegistration cfg acc)) registeredAccounts)
  /\ (forall call e, (call, Rejected e) ∈ exchanges (traceOf run) ->
        exists logger, Logged logger LError e ∈ traceOf run)
  /\ resultOf run = Ok tt.

(** What the wait loop of a round leaves in the trace. *)
Definition isWaitEffect (e : Effect) : bool :=
  match e with
  | Logged logger LInfo _ => String.eqb logger "voting"
  | Called (Sleep _) Done => true
  | _ => false
  end.

(** The watcher is the only writer of the store and never lowers the latest
    initialized round (C6): while a driver sleeps, the value does not
    decrease. *)
Definition sleepKeepsInitialized {Chain : Type} (rt : @Runtime Chain) : Prop :=
  forall ms (w : @World Chain),
    initializedVotingRound (events w)
      <= initializedVotingRound (events (setTimeout_resolve rt ms w)).

(** The trace of a round up to its finalization: the start [t0], and unless
    submissions are skipped the commit loop, the sleep until the reveal
    window, the reveal loop, the sleep until the signature deadline and the
    signature loop. *)
Definition roundBody (skipSubmit : bool) (registeredAccounts : list RegisteredAccount)
    (t0 : list Effect) (commits reveals signatures : list Answer) (ms1 ms2 : Z) : list Effect :=
  if skipSubmit then t0 ++ [Called (Sleep ms2) Done]
  else
    t0 ++ phase commitRequest registeredAccounts commits
       ++ [Called (Sleep ms1) Done]
       ++ phase revealRequest registeredAccounts reveals
       ++ [Called (Sleep ms2) Done]
       ++ phase signatureRequest registeredAccounts signatures.

(** What a round that does not get past its start leaves in the trace: the
    wait loop, the first log line and a rejected read of the merkle root. *)
Definition isAbortEffect (e : Effect) : bool :=
  isWaitEffect e
  || match e with
     | Called (GetConfirmedMerkleRoot _ _) (Rejected _) => true
     | _ => false
     end.

(** Every rejected submission is followed at once by the line the [catch]
    writes: the rejection, at error level, on the "voting" logger. *)
Fixpoint failuresLogged (t : list Effect) : bool :=
  match t with
  | [] => true
  | Called call (Rejected e) :: rest =>
      if isSubmission call then
        match rest with
        | Logged logger LError msg :: _ =>
            String.eqb logger "voting" && String.eqb msg e && failuresLogged rest
        | _ => false
        end
      else failuresLogged rest
  | _ :: rest => failuresLogged rest
  end.

(** * The rest of the simulation *)

(** ** The environment variables ([processEnv], lines 60-100) *)

(** The characters [,], [0] and [x]. *)
Definition char_comma : Ascii.ascii := Ascii.ascii_of_nat 44.
Definition char_0 : Ascii.ascii := Ascii.ascii_of_nat 48.
Definition char_x : Ascii.ascii := Ascii.ascii_of_nat 120.

(** [String.prototype.split(",")]: the pieces between the separators, empty
    pieces included; the empty string has one empty piece. *)
Fixpoint split (sep : Ascii.ascii) (s : string) : list string :=
  match s with
  | EmptyString => [EmptyString]
  | String ch rest =>
      if Ascii.eqb ch sep then EmptyString :: split sep rest
      else
        match split sep rest with
        | piece :: pieces => String ch piece :: pieces
        | [] => [String ch EmptyString]
        end
  end.

(** White space on the ASCII range: tab, line feed, vertical tab, form feed,
    carriage return and space. *)
Definition isWhiteSpace (ch : Ascii.ascii) : bool :=
  let n := Ascii.N_of_ascii ch in
  ((9 <=? n) && (n <=? 13) || (n =? 32))%N.

Fixpoint trimStart (s : string) : string :=
  match s with
  | EmptyString => EmptyString
  | String ch rest => if isWhiteSpace ch then trimStart rest else s
  end.

(** [String.prototype.trim] on the ASCII range. *)
Definition trim (s : string) : string :=
  String.rev (trimStart (String.rev (trimStart s))).

Definition isHexDigit (ch : Ascii.ascii) : bool :=
  let n := Ascii.N_of_ascii ch in
  ((48 <=? n) && (n <=? 57) || (65 <=? n) && (n <=? 70) || (97 <=? n) && (n <=? 102))%N.

(** [/^0x[0-9a-f]{40}$/i.test(s)]: with the flag [i] the [x] and the digits
    match in either case. *)
Definition matchesAddress (s : string) : bool :=
  match s with
  | String c0 (String c1 digits) =>
      Ascii.eqb c0 char_0 && Ascii.eqb (lower_ascii c1) char_x
      && (String.length digits =? 40)%nat
      && forallb isHexDigit (String.list_ascii_of_string digits)
  | _ => false
  end.

(** [process.env]: the four variables [processEnv] reads, each unset or set
    to a string. *)
Record ProcessEnv := mkProcessEnv {
  env_SKIP_VOTER_REGISTRATION_SET : option string;
  env_SKIP_SIGNING_POLICY_SIGNING_SET : option string;
  env_SKIP_VOTING_EPOCH_ACTIONS : option string;
  env_SKIP_FINALIZATIONS : option string
}.

(** [if (process.env.X)]: unset and the empty string are falsy. *)
Definition isSet (value : option string) : bool :=
  match value with
  | Some (String _ _) => true
  | _ => false
  end.

(** Lines 64-70 and 72-78: the items of a comma-separated variable that are
    addresses, trimmed and in lower case. *)
Definition parseAddressSet (value : option string) : gset string :=
  if isSet value then
    foldl
      (fun (set : gset string) x =>
         if matchesAddress (trim x) then {[ toLowerCase (trim x) ]} ∪ set else set)
      ∅ (split char_comma (default EmptyString value))
  else ∅.

(** [processEnv] (lines 60-97): the constants, and the lines written to the
    console. *)
Definition processEnv (env : ProcessEnv) : SimulationConfig * list string :=
  ({| SKIP_VOTER_REGISTRATION_SET := parseAddressSet (env_SKIP_VOTER_REGISTRATION_SET env);
      SKIP_SIGNING_POLICY_SIGNING_SET :=
        parseAddressSet (env_SKIP_SIGNING_POLICY_SIGNING_SET env);
      SKIP_VOTING_EPOCH_ACTIONS := isSet (env_SKIP_VOTING_EPOCH_ACTIONS env);
      SKIP_FINALIZATIONS := isSet (env_SKIP_FINALIZATIONS env) |},
   (if isSet (env_SKIP_VOTING_EPOCH_ACTIONS env) then ["Skipping voting epoch actions"] else [])
     ++ (if isSet (env_SKIP_FINALIZATIONS env) then ["Skipping finalizations"] else [])).

(** The items of a variable, as [split] sees them. *)
Definition itemsOf (value : option string) : list string :=
  split char_comma (default EmptyString value).

(** A string in the normal form the skip-sets hold: [0x] and forty
    hexadecimal digits, no upper-case letter. *)
Definition isNormalAddress (s : string) : bool :=
  matchesAddress s && String.eqb (toLowerCase s) s && String.eqb (slice 0 2 s) "0x".

(** ** Polling *)

(** The world after [k] sleeps of 500 ms. *)
Definition afterSleeps {Chain : Type} (rt : @Runtime Chain) (k : nat) (w : @World Chain)
    : @World Chain :=
  Nat.iter k (setTimeout_resolve rt 500) w.

(** The event is in the store of this world. *)
Definition seesEvent {Chain : Type} (rewardEpoch : Z) (name : string) (w : @World Chain)
    : bool :=
  hasEvent (rewardEpochEvents (events w)) rewardEpoch name.

(** A loop body that only writes the trace [tb], like the [logger.info] of
    line 479 or the empty bodies of lines 487 and 500. *)
Definition onlyLogs {Chain : Type} (body : @M Chain unit) (tb : list Effect) : Prop :=
  forall w, body w = (Ok tt, w, tb).

(** [k] turns of a wait loop: the body and the sleep. *)
Definition pollTrace (tb : list Effect) (k : nat) : list Effect :=
  concat (replicate k (tb ++ [Called (Sleep 500) Done])).

Module Demo2.

(** A timer during which the watcher sees "VotePowerBlockSelected" of
    reward epoch 1 once the clock has passed one second. *)
Definition tickWatch (ms : Z) (w : @World Z) : @World Z :=
  let now := clock w + Z.max ms 0 in
  {| chain := chain w;
     events :=
       if 1000 <=? now then
         {| initializedVotingRound := initializedVotingRound (events w);
            rewardEpochEvents :=
              recordEvent 1 "VotePowerBlockSelected" (rewardEpochEvents (events w)) |}
       else events w;
     signingPolicies := signingPolicies w;
     clock := now |}.

Definition rt : @Runtime Z :=
  {| setTimeout_resolve := tickWatch;
     ProtocolMessageMerkleRoot_hash := ProtocolMessageMerkleRoot_hash Demo.rt;
     RelayMessage_encode := RelayMessage_encode Demo.rt;
     ECDSASignature_signMessageHash := Demo.sign;
     JSON_stringify := JSON_stringify Demo.rt |}.

Definition emptyWorld : @World Z :=
  {| chain := 0; events := newEventStore; signingPolicies := ∅; clock := 0 |}.

End Demo2.

(** ** Reading a run of the watcher *)

(** The rounds of the "NewVotingRoundInitiated" events of a run, in order. *)
Definition roundsOf (epochSettings : EpochSettings) (items : list (Log * Z)) : list Z :=
  omap
    (fun item : Log * Z =>
       if String.eqb (event item.1) "NewVotingRoundInitiated"
       then Some (votingEpochForTime epochSettings (item.2 * 1000)) else None)
    items.

(** The names of the other events of a run that fall in a reward epoch, in
    order. *)
Definition namesFor (epochSettings : EpochSettings) (rewardEpoch : Z)
    (items : list (Log * Z)) : list string :=
  omap
    (fun item : Log * Z =>
       if String.eqb (event item.1) "NewVotingRoundInitiated" then None
       else if bool_decide (rewardEpochForTime epochSettings (item.2 * 1000) = rewardEpoch)
            then Some (event item.1) else None)
    items.

(** The line [fakeFinalize] logs for a voter without a local account. *)
Definition notRegisteredLine (voter : string) : Effect :=
  Logged "finalize" LInfo ("Voter not among registered accounts: " +:+ voter).

(** ** What the drivers leave alone *)

(** A property of the world that an external call keeps. *)
Definition keepsWorld {Chain A : Type} (I : @World Chain -> Prop)
    (call : @World Chain -> A * @World Chain) : Prop :=
  forall w, I w -> I (call w).2.

(** A property of the world that everything outside the drivers keeps: the
    contract calls, the relay transaction and what runs during a sleep. *)
Record ExternalsKeep {Chain : Type} (I : @World Chain -> Prop)
    (c : @DeployedContracts Chain) (web3 : @Web3 Chain) (rt : @Runtime Chain) : Prop :=
  mkExternalsKeep {
    keep_getCurrentRewardEpochId :
      keepsWorld I (flareSystemsManager_getCurrentRewardEpochId c);
    keep_signNewSigningPolicy :
      forall e h s f, keepsWorld I (flareSystemsManager_signNewSigningPolicy c e h s f);
    keep_getCurrentRandomWithQuality :
      keepsWorld I (submission_getCurrentRandomWithQuality c);
    keep_submit1 : forall from, keepsWorld I (submission_submit1 c from);
    keep_submit2 : forall from, keepsWorld I (submission_submit2 c from);
    keep_submitSignatures : forall from, keepsWorld I (submission_submitSignatures c from);
    keep_registerVoter : forall v s f, keepsWorld I (voterRegistry_registerVoter c v s f);
    keep_toSigningPolicyHash : forall e, keepsWorld I (relay_toSigningPolicyHash c e);
    keep_getConfirmedMerkleRoot : forall p r, keepsWorld I (relay_getConfirmedMerkleRoot c p r);
    keep_sendTransaction : forall f t d, keepsWorld I (eth_sendTransaction web3 f t d);
    keep_sleep : forall ms w, I w -> I (setTimeout_resolve rt ms w)
  }.

(** A computation keeps a property of the world. *)
Definition keeps {Chain A : Type} (I : @World Chain -> Prop) (m : @M Chain A) : Prop :=
  forall w, I w -> I (worldOf (m w)).

(** ** The errors of the signing-policy driver *)

(** What [defineNextSigningPolicy] makes of an answer: a rejection is thrown
    on (nothing is caught), randomness of bad quality is "No good random"
    (line 483), and the answer to a signature is judged by lines 521-529. *)
Definition driverVerdict (a : Answer) : option (Result unit) :=
  match a with
  | Rejected e => Some (Thrown e)
  | Random _ quality => if quality then None else Some (Thrown "No good random")
  | Logs _ => signVerdict a
  | _ => None
  end.

Definition anyCall (c : Call) : bool := true.

(** A trace none of whose answers has a verdict. *)
Definition cleanFor (verdict : Answer -> option (Result unit)) (t : list Effect) : Prop :=
  Forall (λ e, match e with Called _ a => verdict a = None | Logged _ _ _ => True end) t.

(** A run that throws does so on the verdict of its last answer. *)
Definition throwsOnVerdict {W} (verdict : Answer -> option (Result unit))
    (run : Result unit * W * list Effect) : Prop :=
  forall e, resultOf run = Thrown e ->
    exists pre call ans,
      exchanges (traceOf run) = pre ++ [(call, ans)] /\ verdict ans = Some (Thrown e).

(** A run judged by [verdict]: it ends at the first answer with a verdict,
    whatever the call, and throws for no other reason. *)
Definition judged {W} (verdict : Answer -> option (Result unit))
    (run : Result unit * W * list Effect) : Prop :=
  endsAt anyCall verdict run /\ throwsOnVerdict verdict run.

(** ** The errors of the voting-round driver *)

Definition isGetConfirmedMerkleRoot (c : Call) : bool :=
  match c with GetConfirmedMerkleRoot _ _ => true | _ => false end.

(** ** Setup and maintenance tasks *)

(** One element of [OFFERS] (lines 41-58). *)
Record Offer := mkOffer {
  amount : Z;
  feedId : string;
  minRewardedTurnoutBIPS : Z;
  primaryBandRewardSharePPM : Z;
  secondaryBandWidthPPM : Z;
  claimBackAddress : string
}.

(** The contracts whose events [decodeRawLogs] is asked to decode. *)
Inductive Emitter := RelayContract | FtsoRewardOffersManagerContract.

(** A Truffle transaction response: the decoded logs, the block of the
    receipt and the raw logs [decodeRawLogs] reads. *)
Record TxResponse := mkTxResponse {
  tx_logs : list Log;
  tx_receipt_blockNumber : Z;
  tx_receipt_rawLogs : list string
}.

(** The fields of [EpochSettings] that [defineInitialSigningPolicy] reads. *)
Record EpochTiming := mkEpochTiming {
  newSigningPolicyInitializationStartSeconds : Z;
  voterRegistrationMinDurationSeconds : Z
}.

(** What the setup, the reward offers and the watcher ask of the outside
    world, besides the calls of the drivers. *)
Inductive SetupCall :=
  | OfferRewards (nextRewardEpochId : Z) (offers : list Offer) (value : Z)
  | IncreaseTo (timestamp : Z)
  | Latest
  | Daemonize (gas : option Z)
  | GetBlock (blockNumber : Z).

Inductive SetupAnswer :=
  | SRejected (e : string)
  | SDone
  | SNum (n : Z)
  | SResponse (response : TxResponse).

(** A step of a task: something a driver could also do, or a setup call. *)
Inductive Step :=
  | Core (e : Effect)
  | Setup (c : SetupCall) (a : SetupAnswer).

Definition coreOf (s : Step) : option Effect :=
  match s with Core e => Some e | Setup _ _ => None end.
Definition setupOf (s : Step) : option (SetupCall * SetupAnswer) :=
  match s with Setup c a => Some (c, a) | Core _ => None end.

(** The driver-level part of a task's steps, and its setup calls. *)
Definition coreSteps (t : list Step) : list Effect := omap coreOf t.
Definition setupExchanges (t : list Step) : list (SetupCall * SetupAnswer) := omap setupOf t.
Definition setupCalls (t : list Step) : list SetupCall := map fst (setupExchanges t).

(** The three components of a finished task. *)
Definition taskResult {W A} (x : Result A * W * list Step) : Result A := x.1.1.
Definition taskWorld {W A} (x : Result A * W * list Step) : W := x.1.2.
Definition taskSteps {W A} (x : Result A * W * list Step) : list Step := x.2.

(** [resp.logs[0]?.event != name], negated. *)
Definition firstEventIs (name : string) (logs : list Log) : bool :=
  match logs with
  | log0 :: _ => String.eqb (event log0) name
  | [] => false
  end.

Section Tasks.
Context {Chain : Type}.

(** The services behind the setup calls: the reward-offers manager,
    [flareSystemsManager.daemonize], the Hardhat [time] helpers,
    [web3.eth.getBlock] (its timestamp, as a number), [decodeRawLogs]
    (deployment/utils/events.ts) and [FtsoConfigurations.encodeFeedId]. *)
Record Harness := mkHarness {
  ftsoRewardOffersManager_offerRewards :
    Z -> list Offer -> Z -> @World Chain -> Outcome unit * @World Chain;
  flareSystemsManager_daemonize : option Z -> @World Chain -> Outcome TxResponse * @World Chain;
  time_increaseTo : Z -> @World Chain -> Outcome unit * @World Chain;
  time_latest : @World Chain -> Outcome Z * @World Chain;
  eth_getBlock_timestamp : Z -> @World Chain -> Outcome Z * @World Chain;
  decodeRawLogs : TxResponse -> Emitter -> string -> list Log;
  FtsoConfigurations_encodeFeedId : Z -> string -> string
}.

(** *** Computations *)

Definition Task (A : Type) : Type := @World Chain -> Result A * @World Chain * list Step.

Definition task_ret {A} (a : A) : Task A := fun w => (Ok a, w, []).

Definition task_bind {A B} (m : Task A) (k : A -> Task B) : Task B := fun w =>
  match m w with
  | (Ok a, w1, t1) => let '(r, w2, t2) := k a w1 in (r, w2, t1 ++ t2)
  | (Thrown e, w1, t1) => (Thrown e, w1, t1)
  | (Pending, w1, t1) => (Pending, w1, t1)
  end.

Definition task_throw {A} (e : string) : Task A := fun w => (Thrown e, w, []).

Definition task_pending {A} : Task A := fun w => (Pending, w, []).

(** [try { m } catch (e) { h e }]. *)
Definition task_try_catch {A} (m : Task A) (h : string -> Task A) : Task A := fun w =>
  match m w with
  | (Thrown e, w1, t1) => let '(r, w2, t2) := h e w1 in (r, w2, t1 ++ t2)
  | other => other
  end.

Definition task_modify (f : @World Chain -> @World Chain) : Task unit :=
  fun w => (Ok tt, f w, []).

(** A computation of the drivers, run inside a task. *)
Definition lift {A} (m : M A) : Task A := fun w =>
  let '(r, w1, t1) := m w in (r, w1, map Core t1).

(** [await] of a setup call. *)
Definition task_await {A} (c : SetupCall) (inj : A -> SetupAnswer)
    (run : @World Chain -> Outcome A * @World Chain) : Task A := fun w =>
  match run w with
  | (Returned a, w1) => (Ok a, w1, [Setup c (inj a)])
  | (Failed e, w1) => (Thrown e, w1, [Setup c (SRejected e)])
  end.

#[export] Instance Task_ret : MRet Task := @task_ret.
#[export] Instance Task_bind : MBind Task := fun A B k m => task_bind m k.

Variable c : @DeployedContracts Chain.
Variable h : Harness.
Variable web3 : @Web3 Chain.
Variable rt : @Runtime Chain.
Variable epochSettings : EpochSettings.

(** [OFFERS] (lines 41-58). *)
Definition OFFERS : list Offer :=
  [ {| amount := 25000000;
       feedId := FtsoConfigurations_encodeFeedId h 1 "BTC/USD";
       minRewardedTurnoutBIPS := 5000;
       primaryBandRewardSharePPM := 450000;
       secondaryBandWidthPPM := 50000;
       claimBackAddress := "0x0000000000000000000000000000000000000000" |};
    {| amount := 50000000;
       feedId := FtsoConfigurations_encodeFeedId h 1 "XRP/USD";
       minRewardedTurnoutBIPS := 5000;
       primaryBandRewardSharePPM := 650000;
       secondaryBandWidthPPM := 20000;
       claimBackAddress := "0x0000000000000000000000000000000000000000" |} ].

(** Lines 551-554: [let rewards = 0; for (offer of OFFERS) rewards += offer.amount]. *)
Definition totalRewards (offers : list Offer) : Z :=
  fold_left (fun rewards offer => rewards + amount offer) offers 0.

(** [runOfferRewards] (lines 533-560).  [eventStore] tells whether the
    optional argument is passed (it is then the shared store);
    [forceEpoch] is [None] for [undefined].  The rejection [e] is written
    to the log as the string it converts to. *)
Definition runOfferRewards (fuel : nat) (eventStore : bool) (forceEpoch : option Z)
    : Task unit :=
  nextRewardEpochId ←
    match forceEpoch with
    | Some epoch => task_ret epoch
    | None => now ← lift Date_now; task_ret (rewardEpochForTime epochSettings now + 1)
    end;
  match forceEpoch with
  | None =>
      lift (logInfo "offerRewards"
              ("Waiting for reward epoch " +:+ pretty (nextRewardEpochId - 1) +:+ " to start")) ;;
      if eventStore then
        lift (awaitEvent rt fuel (nextRewardEpochId - 1) "RewardEpochStarted" (ret tt))
      else
        task_throw "TypeError: Cannot read properties of undefined (reading 'rewardEpochEvents')"
  | Some _ => task_ret tt
  end ;;
  let rewards := totalRewards OFFERS in
  task_try_catch
    (task_await (OfferRewards nextRewardEpochId OFFERS rewards) (fun _ => SDone)
       (ftsoRewardOffersManager_offerRewards h nextRewardEpochId OFFERS rewards) ;;
     lift (logInfo "offerRewards" "Rewards offered"))
    (fun e => lift (logError "offerRewards" ("Rewards not offered: " +:+ e))).

(** [signingPolicies.set(key, p)]. *)
Definition setSigningPolicyAt (key : Z) (p : ISigningPolicy) (w : @World Chain)
    : @World Chain :=
  {| chain := chain w; events := events w;
     signingPolicies := <[key := p]> (signingPolicies w); clock := clock w |}.

(** Lines 722-724: [for (acc of registeredAccounts) await registerVoter(1, acc, ...)]. *)
Fixpoint registerEach (rewardEpochId : Z) (registeredAccounts : list RegisteredAccount)
    : M unit :=
  match registeredAccounts with
  | [] => ret tt
  | acc :: rest => registerVoter c web3 rewardEpochId acc ;; registerEach rewardEpochId rest
  end.

(** The object literal of lines 703-708. *)
Definition governanceAsVoter (governanceAccount : Account) : RegisteredAccount :=
  {| identity := governanceAccount;
     submit := governanceAccount;
     submitSignatures := governanceAccount;
     signingPolicy := governanceAccount |}.

(** The three times the network is moved to (lines 697-699, 712-715 and
    726-732); [Math.floor(n / 2)] is [n / 2] on [Z]. *)
Definition randomAcquisitionTime (rewardEpochStart : Z) (timing : EpochTiming) : Z :=
  rewardEpochStart
    + (REWARD_EPOCH_DURATION_IN_SEC - newSigningPolicyInitializationStartSeconds timing).
Definition votePowerBlockTime (rewardEpochStart : Z) (timing : EpochTiming) : Z :=
  rewardEpochStart
    + (REWARD_EPOCH_DURATION_IN_SEC - newSigningPolicyInitializationStartSeconds timing / 2).
Definition initializationTime (rewardEpochStart : Z) (timing : EpochTiming) : Z :=
  rewardEpochStart
    + (REWARD_EPOCH_DURATION_IN_SEC
         - newSigningPolicyInitializationStartSeconds timing / 2
         + voterRegistrationMinDurationSeconds timing
         + 5).

Definition daemonize : Task TxResponse :=
  task_await (Daemonize None) SResponse (flareSystemsManager_daemonize h None).

Definition increaseTo (timestamp : Z) : Task unit :=
  task_await (IncreaseTo timestamp) (fun _ => SDone) (time_increaseTo h timestamp).

(** [defineInitialSigningPolicy] (lines 685-760). *)
Definition defineInitialSigningPolicy (fuel : nat) (rewardEpochStart : Z)
    (timing : EpochTiming) (registeredAccounts : list RegisteredAccount)
    (governanceAccount : Account) : Task unit :=
  runOfferRewards fuel false (Some 1) ;;
  increaseTo (randomAcquisitionTime rewardEpochStart timing) ;;
  resp ← daemonize;
  if negb (firstEventIs "RandomAcquisitionStarted" (tx_logs resp)) then
    task_throw "Expected random acquisition to start"
  else
    let governance := governanceAsVoter governanceAccount in
    latest ← task_await Latest SNum (time_latest h);
    lift (fakeFinalize c web3 rt epochSettings [governance] (latest * 1000)) ;;
    increaseTo (votePowerBlockTime rewardEpochStart timing) ;;
    resp2 ← daemonize;
    if negb (firstEventIs "VotePowerBlockSelected" (tx_logs resp2)) then
      task_throw "Expected vote power block to be selected"
    else
      lift (registerEach 1 registeredAccounts) ;;
      increaseTo (initializationTime rewardEpochStart timing) ;;
      resp3 ← daemonize;
      match decodeRawLogs h resp3 RelayContract "SigningPolicyInitialized" with
      | [] => task_throw "TypeError: Cannot read properties of undefined (reading 'event')"
      | eventLog :: _ =>
          (if negb (String.eqb (event eventLog) "SigningPolicyInitialized") then
             task_throw "Expected signing policy to be initialized"
           else
             match extractSigningPolicy (args eventLog) with
             | Some signingPolicy => task_modify (setSigningPolicyAt 1 signingPolicy)
             | None => task_throw "TypeError: Cannot read properties of undefined (reading 'map')"
             end) ;;
          let rewardEpochId := 1 in
          newSigningPolicyHash ← lift (await (ToSigningPolicyHash rewardEpochId) Str
            (relay_toSigningPolicyHash c rewardEpochId));
          let signature :=
            eth_accounts_sign web3 newSigningPolicyHash (privateKey governanceAccount) in
          logs ← lift (await
            (SignNewSigningPolicy rewardEpochId newSigningPolicyHash signature
               (address governanceAccount))
            Logs
            (flareSystemsManager_signNewSigningPolicy c rewardEpochId newSigningPolicyHash
               signature (address governanceAccount)));
          match logs with
          | log0 :: _ =>
              if negb (String.eqb (event log0) "SigningPolicySigned") then
                task_throw "Expected signing policy to be signed"
              else if negb (thresholdReached (args log0)) then
                task_throw "Threshold not reached"
              else task_ret tt
          | [] => task_throw "Expected signing policy to be signed"
          end
      end.

(** One turn of the watcher loop (lines 303-324). *)
Definition watcherTurn : Task unit :=
  response ← task_await (Daemonize (Some 20000000)) SResponse
    (flareSystemsManager_daemonize h (Some 20000000));
  blockTimestamp ← task_await (GetBlock (tx_receipt_blockNumber response)) SNum
    (eth_getBlock_timestamp h (tx_receipt_blockNumber response));
  (if (0 <? length (tx_logs response))%nat then
     lift (processLogs rt epochSettings (tx_logs response) blockTimestamp) ;;
     lift (processLogs rt epochSettings
             (decodeRawLogs h response FtsoRewardOffersManagerContract "InflationRewardsOffered")
             blockTimestamp)
   else
     lift (processLogs rt epochSettings
             (decodeRawLogs h response RelayContract "SigningPolicyInitialized")
             blockTimestamp)) ;;
  lift (sleep rt 500).

(** [while (true) { ... }] (lines 303-325); [fuel] bounds the number of
    turns. *)
Fixpoint watcher (fuel : nat) : Task unit :=
  match fuel with
  | O => task_pending
  | S fuel' => watcherTurn ;; watcher fuel'
  end.

End Tasks.

(** How one [runOfferRewards] ends (lines 555-559): the answer to the offer
    and the line logged for it. *)
Definition offerReport (a : SetupAnswer) : option Step :=
  match a with
  | SDone => Some (Core (Logged "offerRewards" LInfo "Rewards offered"))
  | SRejected e => Some (Core (Logged "offerRewards" LError ("Rewards not offered: " +:+ e)))
  | _ => None
  end.

(** The setup calls of a complete [defineInitialSigningPolicy], in order. *)
Definition setupPlan {Chain : Type} (h : @Harness Chain) (rewardEpochStart : Z)
    (timing : EpochTiming) : list SetupCall :=
  [ OfferRewards 1 (OFFERS h) 75000000;
    IncreaseTo (randomAcquisitionTime rewardEpochStart timing);
    Daemonize None;
    Latest;
    IncreaseTo (votePowerBlockTime rewardEpochStart timing);
    Daemonize None;
    IncreaseTo (initializationTime rewardEpochStart timing);
    Daemonize None ].

(** The voter registrations among the steps of a task. *)
Definition registrations (t : list Step) : list Call :=
  List.filter isRegisterVoter (calls (coreSteps t)).

(** A task that follows a plan: its setup calls are a prefix of [plan] and
    its voter registrations a prefix of [regs]; it is not left waiting; and
    when it returns, plan and registrations are complete and [Q] holds of
    the world and the steps. *)
Definition followsPlan {Chain : Type} (plan : list SetupCall) (regs : list Call)
    (Q : @World Chain -> list Step -> Prop)
    (run : Result unit * @World Chain * list Step) : Prop :=
  setupCalls (taskSteps run) `prefix_of` plan
  /\ registrations (taskSteps run) `prefix_of` regs
  /\ taskResult run <> Pending
  /\ (taskResult run = Ok tt ->
      setupCalls (taskSteps run) = plan
      /\ registrations (taskSteps run) = regs
      /\ Q (taskWorld run) (taskSteps run)).

(** How a complete [defineInitialSigningPolicy] ended: the last setup call
    is the [daemonize] whose relay logs carry the policy, the policy is
    stored under key 1 before its hash is read, and the last step is
    governance's signature, answered with the threshold reached. *)
Definition initialPolicySigned {Chain : Type} (c : @DeployedContracts Chain)
    (h : @Harness Chain) (web3 : @Web3 Chain) (governanceAccount : Account)
    (w' : @World Chain) (s : list Step) : Prop :=
  exists resp3 eventLog decoded signingPolicy w3 hash w4 logs,
    last (setupExchanges s) = Some (Daemonize None, SResponse resp3)
    /\ decodeRawLogs h resp3 RelayContract "SigningPolicyInitialized" = eventLog :: decoded
    /\ extractSigningPolicy (args eventLog) = Some signingPolicy
    /\ relay_toSigningPolicyHash c 1 (setSigningPolicyAt 1 signingPolicy w3)
       = (Returned hash, w4)
    /\ flareSystemsManager_signNewSigningPolicy c 1 hash
         (eth_accounts_sign web3 hash (privateKey governanceAccount))
         (address governanceAccount) w4
       = (Returned logs, w')
    /\ last s
       = Some (Core (Called
           (SignNewSigningPolicy 1 hash
              (eth_accounts_sign web3 hash (privateKey governanceAccount))
              (address governanceAccount))
           (Logs logs)))
    /\ reportsThreshold (Logs logs) = true.

(** The timestamps a task moved the network to, in order. *)
Definition timeTargets (t : list Step) : list Z :=
  omap (fun call => match call with IncreaseTo timestamp => Some timestamp | _ => None end)
    (setupCalls t).

Module Demo3.

(** The policy of reward epoch 1, as the relay announces it. *)
Definition policy1 : ISigningPolicy :=
  {| rewardEpochId := 1; startVotingRoundId := 1005; threshold := Demo.policyThreshold;
     seed := 0%N;
     voters := ["0xp1"; "0xp2"; "0xp3"];
     weights := [3; 2; 1] |}.

(** The chain counts the [daemonize] calls: the first starts the random
    acquisition, the second selects the vote power block, and from the
    third on the relay initializes the policy (in the raw logs only). *)
Definition response (n : Z) : TxResponse :=
  if n =? 0 then mkTxResponse [mkLog "RandomAcquisitionStarted" NoArgs] 1 []
  else if n =? 1 then mkTxResponse [mkLog "VotePowerBlockSelected" NoArgs] 2 []
  else mkTxResponse [] 3 ["SigningPolicyInitialized"].

Definition moveTo (timestamp : Z) (w : @World Z) : @World Z :=
  {| chain := chain w; events := events w; signingPolicies := signingPolicies w;
     clock := timestamp * 1000 |}.

Definition mined (w : @World Z) : @World Z :=
  {| chain := chain w + 1; events := events w; signingPolicies := signingPolicies w;
     clock := clock w |}.

Definition harness : @Harness Z :=
  {| ftsoRewardOffersManager_offerRewards := fun _ _ _ w => (Returned tt, w);
     flareSystemsManager_daemonize := fun _ w => (Returned (response (chain w)), mined w);
     time_increaseTo := fun timestamp w => (Returned tt, moveTo timestamp w);
     time_latest := fun w => (Returned (clock w / 1000), w);
     eth_getBlock_timestamp := fun _ w => (Returned (clock w / 1000), w);
     decodeRawLogs := fun response emitter name =>
       match emitter with
       | RelayContract =>
           if bool_decide (name ∈ tx_receipt_rawLogs response)
           then [mkLog name (PolicyArgs policy1)] else []
       | FtsoRewardOffersManagerContract => []
       end;
     FtsoConfigurations_encodeFeedId := fun category name => "feed:" +:+ name |}.

(** An authority on which governance alone reaches the threshold. *)
Definition contracts : @DeployedContracts Z :=
  {| flareSystemsManager_getCurrentRewardEpochId := fun w => (Returned 0, w);
     flareSystemsManager_signNewSigningPolicy := fun e hash signature from w =>
       (Returned [mkLog "SigningPolicySigned" (SignedArgs true)], w);
     submission_getCurrentRandomWithQuality := fun w => (Returned (7, true), w);
     submission_submit1 := fun _ w => (Returned tt, w);
     submission_submit2 := fun _ w => (Returned tt, w);
     submission_submitSignatures := fun _ w => (Returned tt, w);
     voterRegistry_registerVoter := fun _ _ _ w => (Returned tt, w);
     relay_toSigningPolicyHash := fun e w => (Returned ("policy" +:+ pretty e), w);
     relay_getConfirmedMerkleRoot := fun p r w => (Returned "0xroot", w);
     relay_address := "0xRelay" |}.

(** The timing of [systemSettings] (lines 109 and 113). *)
Definition timing : EpochTiming :=
  {| newSigningPolicyInitializationStartSeconds := 45;
     voterRegistrationMinDurationSeconds := 10 |}.

(** Before the setup: reward epoch 0 has just started and its policy is
    known. *)
Definition world : @World Z :=
  {| chain := 0; events := newEventStore;
     signingPolicies := {[ 0 := Demo.policy0 ]};
     clock := Demo.now0 * 1000 |}.

End Demo3.

(** ** The store under the watcher *)

(** The shared store only grows from [w] to [w']: the latest initialized
    round does not decrease, the events recorded for a reward epoch are
    extended at the end, and no signing policy is removed. *)
Definition storeGrows {Chain : Type} (w w' : @World Chain) : Prop :=
  initializedVotingRound (events w) <= initializedVotingRound (events w')
  /\ (forall rewardEpoch,
        default [] (rewardEpochEvents (events w) !! rewardEpoch)
          `prefix_of` default [] (rewardEpochEvents (events w') !! rewardEpoch))
  /\ (forall rewardEpoch,
        is_Some (signingPolicies w !! rewardEpoch) ->
        is_Some (signingPolicies w' !! rewardEpoch)).

(** ** Registration of the participants *)

(** [type PChainStake] (lines 386-394). *)
Record PChainStake := mkPChainStake {
  txId : string;
  stakingType : Z;
  inputAddress : string;
  stake_nodeId : string;
  startTime : Z;
  endTime : Z;
  weight : Z
}.

(** The transactions [registerAccounts] and [setMockStakingData] send; the
    last argument of those sent with [{ from }] is the sender. *)
Inductive RegistryCall :=
  | RegisterAddresses (publicKey pAddress cAddress : string)
  | GivenCalldataReturnBool (calldata : string) (value : bool)
  | MirrorStake (data : PChainStake) (merkleProof : list string)
  | Deposit (value : Z) (from : string)
  | RegisterNodeId (nodeId certificateRaw signature from : string)
  | ProposeSubmitAddress (submitAddress from : string)
  | ConfirmSubmitAddressRegistration (voter from : string)
  | ProposeSubmitSignaturesAddress (submitSignaturesAddress from : string)
  | ConfirmSubmitSignaturesAddressRegistration (voter from : string)
  | ProposeSigningPolicyAddress (signingPolicyAddress from : string)
  | ConfirmSigningPolicyAddressRegistration (voter from : string).

(** A transaction of the registration and its fate. *)
Inductive RegistryStep :=
  | Sent (call : RegistryCall)
  | Reverted (call : RegistryCall) (e : string).

Definition GWEI : Z := 1000000000.

(** [s.padStart(targetLength, pad)] for a one-character [pad]. *)
Definition padStart (targetLength : nat) (pad : Ascii.ascii) (s : string) : string :=
  Nat.iter (targetLength - String.length s) (String pad) s.

(** The four accounts of a participant, in the order they are taken from
    [accounts] (lines 412-415). *)
Definition roles (acc : RegisteredAccount) : list Account :=
  [identity acc; submit acc; submitSignatures acc; signingPolicy acc].

Section Registration.
Context {Chain : Type}.

(** The contracts the registration sends transactions to, as one
    dispatcher (their return values are not used), the key helpers of
    test/utils/key-to-address and the ABI encoder of the stake verifier.
    Buffers are the hexadecimal strings they hold. *)
Record Registry := mkRegistry {
  registry_send : RegistryCall -> @World Chain -> Outcome unit * @World Chain;
  util_privateKeyToPublicKeyPair : string -> string * string;
  util_encodePublicKey : string -> string -> bool -> string;
  util_publicKeyToAvalancheAddress : string -> string -> string;
  verifyStake_encodeABI : PChainStake -> list string -> string
}.

(** A registration in progress: the result, the world and the
    transactions so far. *)
Definition Reg (A : Type) : Type :=
  @World Chain -> Result A * @World Chain * list RegistryStep.

Definition reg_ret {A} (a : A) : Reg A := fun w => (Ok a, w, []).

Definition reg_bind {A B} (m : Reg A) (k : A -> Reg B) : Reg B := fun w =>
  match m w with
  | (Ok a, w1, t1) => let '(r, w2, t2) := k a w1 in (r, w2, t1 ++ t2)
  | (Thrown e, w1, t1) => (Thrown e, w1, t1)
  | (Pending, w1, t1) => (Pending, w1, t1)
  end.

Definition reg_throw {A} (e : string) : Reg A := fun w => (Thrown e, w, []).

#[export] Instance Reg_ret : MRet Reg := @reg_ret.
#[export] Instance Reg_bind : MBind Reg := fun A B k m => reg_bind m k.

Variable registry : Registry.
Variable web3 : @Web3 Chain.

(** [await] of one transaction. *)
Definition send (call : RegistryCall) : Reg unit := fun w =>
  match registry_send registry call w with
  | (Returned _, w1) => (Ok tt, w1, [Sent call])
  | (Failed e, w1) => (Thrown e, w1, [Reverted call e])
  end.

(** [setMockStakingData] (lines 782-807); [toBN(n).toNumber()] is [n]. *)
Definition setMockStakingData (txId : string) (stakingType : Z)
    (inputAddress nodeId : string) (startTime endTime weight : Z) (stakingProved : bool)
    : Reg PChainStake :=
  let data :=
    {| txId := txId;
       stakingType := stakingType;
       inputAddress := inputAddress;
       stake_nodeId := nodeId;
       startTime := startTime;
       endTime := endTime;
       weight := weight |} in
  let verifyPChainStakingMethod := verifyStake_encodeABI registry data [] in
  send (GivenCalldataReturnBool verifyPChainStakingMethod stakingProved) ;;
  reg_ret data.

Definition weightGwei : Z := 1000.

(** The loop of [registerAccounts] (lines 407-461) from iteration [i] on,
    with [remaining = voterCount - i] iterations to go; [accountOffset]
    and [registeredAccounts] are the variables of the same names.  An
    index past the end of [accounts] reads [undefined], and the first use
    of a field of it throws. *)
Fixpoint registerAccountsFrom (accounts : list Account) (rewardEpochStart : Z)
    (remaining i accountOffset : nat) (registeredAccounts : list RegisteredAccount)
    : Reg (list RegisteredAccount) :=
  match remaining with
  | O => reg_ret registeredAccounts
  | S remaining' =>
      let nodeId :=
        "0x0123456789012345678901234567890123456"
          +:+ padStart 3 char_0 (pretty (Z.of_nat i)) in
      let stakeId := utils_keccak256 web3 ("stake" +:+ pretty (Z.of_nat i)) in
      let identityAccount := accounts !! accountOffset in
      let submitAccount := accounts !! (accountOffset + 1)%nat in
      let signingAccount := accounts !! (accountOffset + 2)%nat in
      let policySigningAccount := accounts !! (accountOffset + 3)%nat in
      match identityAccount with
      | None => reg_throw "TypeError: Cannot read properties of undefined (reading 'privateKey')"
      | Some identityAccount =>
          let prvKey := slice_from 2 (privateKey identityAccount) in
          let '(x, y) := util_privateKeyToPublicKeyPair registry prvKey in
          let pubKey := "0x" +:+ util_encodePublicKey registry x y false in
          let pAddr := "0x" +:+ util_publicKeyToAvalancheAddress registry x y in
          send (RegisterAddresses pubKey pAddr (address identityAccount)) ;;
          data ← setMockStakingData stakeId 0 pAddr nodeId (rewardEpochStart - 10)
            (rewardEpochStart + 10000) weightGwei true;
          send (MirrorStake data []) ;;
          send (Deposit (weightGwei * GWEI) (address identityAccount)) ;;
          send (RegisterNodeId nodeId "0x" "0x" (address identityAccount)) ;;
          match submitAccount with
          | None => reg_throw "TypeError: Cannot read properties of undefined (reading 'address')"
          | Some submitAccount =>
              send (ProposeSubmitAddress (address submitAccount) (address identityAccount)) ;;
              send (ConfirmSubmitAddressRegistration (address identityAccount)
                      (address submitAccount)) ;;
              match signingAccount with
              | None =>
                  reg_throw "TypeError: Cannot read properties of undefined (reading 'address')"
              | Some signingAccount =>
                  send (ProposeSubmitSignaturesAddress (address signingAccount)
                          (address identityAccount)) ;;
                  send (ConfirmSubmitSignaturesAddressRegistration (address identityAccount)
                          (address signingAccount)) ;;
                  match policySigningAccount with
                  | None =>
                      reg_throw
                        "TypeError: Cannot read properties of undefined (reading 'address')"
                  | Some policySigningAccount =>
                      send (ProposeSigningPolicyAddress (address policySigningAccount)
                              (address identityAccount)) ;;
                      send (ConfirmSigningPolicyAddressRegistration (address identityAccount)
                              (address policySigningAccount)) ;;
                      registerAccountsFrom accounts rewardEpochStart remaining' (S i)
                        (accountOffset + 4)
                        (registeredAccounts
                           ++ [ {| identity := identityAccount;
                                   submit := submitAccount;
                                   submitSignatures := signingAccount;
                                   signingPolicy := policySigningAccount |} ])
                  end
              end
          end
      end
  end.

(** [registerAccounts] (lines 396-463). *)
Definition registerAccounts (voterCount : nat) (accounts : list Account)
    (rewardEpochStart : Z) : Reg (list RegisteredAccount) :=
  registerAccountsFrom accounts rewardEpochStart voterCount 0 10 [].

End Registration.

(** The three components of a finished registration. *)
Definition regResult {W A} (x : Result A * W * list RegistryStep) : Result A := x.1.1.
Definition regWorld {W A} (x : Result A * W * list RegistryStep) : W := x.1.2.
Definition regSteps {W A} (x : Result A * W * list RegistryStep) : list RegistryStep := x.2.

Definition isSent (s : RegistryStep) : bool :=
  match s with Sent _ => true | Reverted _ _ => false end.

Module Demo4.

(** Hardhat-style accounts: the address is derived from the key. *)
Definition account (n : Z) : Account :=
  mkAccount ("0xA" +:+ pretty n) ("0xK" +:+ pretty n).

Definition accounts : list Account := map account (seqZ 0 18).

Definition registry : @Registry Z :=
  {| registry_send := fun _ w => (Returned tt, w);
     util_privateKeyToPublicKeyPair := fun key => ("x" +:+ key, "y" +:+ key);
     util_encodePublicKey := fun x y _ => x +:+ y;
     util_publicKeyToAvalancheAddress := fun x y => "P" +:+ x;
     verifyStake_encodeABI := fun data _ => "verifyStake(" +:+ txId data +:+ ")" |}.

(** A registry whose wrapped-native contract rejects deposits. *)
Definition withoutDeposits : @Registry Z :=
  {| registry_send := fun call w =>
       match call with
       | Deposit _ _ => (Failed "revert: deposits are closed", w)
       | _ => (Returned tt, w)
       end;
     util_privateKeyToPublicKeyPair := util_privateKeyToPublicKeyPair registry;
     util_encodePublicKey := util_encodePublicKey registry;
     util_publicKeyToAvalancheAddress := util_publicKeyToAvalancheAddress registry;
     verifyStake_encodeABI := verifyStake_encodeABI registry |}.

End Demo4.

(** A registration stops at its first reverted transaction: the revert is
    what it throws, and nothing is sent after it. *)
Definition stopsAtRevert {W A} (run : Result A * W * list RegistryStep) : Prop :=
  forall pre call e post,
    regSteps run = pre ++ Reverted call e :: post ->
    regResult run = Thrown e /\ post = [].
(** * Properties *)

(** ** Epoch arithmetic *)

Module EpochClockFacts.
Import EpochClock.

Lemma votingRoundAt_floor cfg t r :
  0 < roundDurationSec cfg ->
  votingRoundAt cfg t = r <->
  r * roundDurationSec cfg <= t - firstRoundStart cfg < (r + 1) * roundDurationSec cfg.
Proof.
  intros Hd. unfold votingRoundAt. split.
  - intros <-.
    pose proof (Z.div_mod (t - firstRoundStart cfg) (roundDurationSec cfg)) as Hdm.
    pose proof (Z.mod_pos_bound (t - firstRoundStart cfg) (roundDurationSec cfg) Hd).
    nia.
  - intros [Hlo Hhi]. symmetry.
    apply (Z.div_unique _ _ r (t - firstRoundStart cfg - r * roundDurationSec cfg)).
    + left. lia.
    + lia.
Qed.

Lemma votingRoundAt_bounds cfg t :
  0 < roundDurationSec cfg ->
  roundStart cfg (votingRoundAt cfg t) <= t < roundStart cfg (votingRoundAt cfg t + 1).
Proof.
  intros Hd. unfold roundStart.
  pose proof (proj1 (votingRoundAt_floor cfg t _ Hd) eq_refl). lia.
Qed.

Lemma scenario_round t0 dt :
  votingRoundAt (scenario t0) (t0 + dt) = dt / 20.
Proof. unfold votingRoundAt, scenario; simpl. f_equal. lia. Qed.

Lemma scenario_epoch t0 dt :
  rewardEpochAt (scenario t0) (t0 + dt) = dt / 20 / 5.
Proof. unfold rewardEpochAt. rewrite scenario_round. simpl. f_equal. lia. Qed.

(** With the simulation's own settings round 0 starts 1000 rounds before
    the first reward epoch: the reward epoch of an early round is negative. *)
Lemma systemSettings_offset now :
  votingRoundAt (systemSettings now) (firstRoundStart (systemSettings now) + 45) = 2
  /\ rewardEpochAt (systemSettings now) (firstRoundStart (systemSettings now) + 45) = -200
  /\ votingRoundAt (systemSettings now) now = 1000
  /\ rewardEpochAt (systemSettings now) now = 0.
Proof.
  unfold rewardEpochAt, votingRoundAt, systemSettings; simpl.
  unfold FIRST_REWARD_EPOCH_START_VOTING_ROUND_ID, VOTING_EPOCH_DURATION_SEC,
    REWARD_EPOCH_DURATION_IN_VOTING_EPOCHS.
  replace (now - 1000 * 20 + 45 - (now - 1000 * 20)) with 45 by lia.
  replace (now - (now - 1000 * 20)) with 20000 by lia.
  done.
Qed.

End EpochClockFacts.

(** C10: the round of a timestamp is the floor of the elapsed time over the
    round duration (it is the one integer [r] with
    [r * d <= t - firstRoundStart < (r + 1) * d]); with rounds of 20 s, reward
    epochs of 100 s and round 0 starting at [t0], the timestamp [t0 + 45] is in
    round 2 of reward epoch 0 and [t0 + 105] in round 5 of reward epoch 1,
    also through the millisecond interface the drivers use. *)
Theorem epoch_round_arithmetic (cfg : EpochClock.Config) (t t0 : Z) :
  0 < EpochClock.roundDurationSec cfg ->
  EpochClock.votingRoundAt cfg t
    = (t - EpochClock.firstRoundStart cfg) / EpochClock.roundDurationSec cfg
  /\ (forall r,
        EpochClock.votingRoundAt cfg t = r <->
        r * EpochClock.roundDurationSec cfg
          <= t - EpochClock.firstRoundStart cfg
          < (r + 1) * EpochClock.roundDurationSec cfg)
  /\ EpochClock.roundDurationSec (EpochClock.scenario t0) = 20
  /\ EpochClock.roundDurationSec (EpochClock.scenario t0)
       * EpochClock.rewardEpochDurationInVotingEpochs (EpochClock.scenario t0) = 100
  /\ EpochClock.votingRoundAt (EpochClock.scenario t0) (t0 + 45) = 2
  /\ EpochClock.rewardEpochAt (EpochClock.scenario t0) (t0 + 45) = 0
  /\ EpochClock.votingRoundAt (EpochClock.scenario t0) (t0 + 105) = 5
  /\ EpochClock.rewardEpochAt (EpochClock.scenario t0) (t0 + 105) = 1
  /\ votingEpochForTime (EpochClock.settings (EpochClock.scenario t0)) ((t0 + 45) * 1000) = 2
  /\ rewardEpochForTime (EpochClock.settings (EpochClock.scenario t0)) ((t0 + 105) * 1000) = 1.
Proof.
  intros Hd. split; [reflexivity|]. split.
  { intros r. by apply EpochClockFacts.votingRoundAt_floor. }
  split; [reflexivity|]. split; [reflexivity|].
  rewrite !EpochClockFacts.scenario_round, !EpochClockFacts.scenario_epoch.
  repeat split; try reflexivity.
  - simpl. rewrite Z.div_mul by lia. by rewrite EpochClockFacts.scenario_round.
  - simpl. rewrite Z.div_mul by lia. by rewrite EpochClockFacts.scenario_epoch.
Qed.

Lemma epoch_round_arithmetic_witness :
  0 < EpochClock.roundDurationSec (EpochClock.systemSettings 1700000000)
  /\ EpochClock.votingRoundAt (EpochClock.systemSettings 1700000000) 1700000045 = 1002
  /\ EpochClock.votingRoundAt (EpochClock.scenario 1700000000) (1700000000 + 45) = 2.
Proof.
  split; [reflexivity|].
  pose proof (epoch_round_arithmetic (EpochClock.systemSettings 1700000000)
                1700000045 1700000000 eq_refl) as H.
  split; [exact (proj1 H)|].
  exact (proj1 (proj2 (proj2 (proj2 (proj2 H))))).
Defined.

(** ** Running computations *)

Section Running.
Context {Chain : Type}.
Implicit Types w : @World Chain.

Lemma run_bind {A B} (m : M A) (k : A -> M B) w :
  (m ≫= k) w =
  match m w with
  | (Ok a, w1, t1) => let '(r, w2, t2) := k a w1 in (r, w2, t1 ++ t2)
  | (Thrown e, w1, t1) => (Thrown e, w1, t1)
  | (Pending, w1, t1) => (Pending, w1, t1)
  end.
Proof. reflexivity. Qed.

Lemma run_bind_ok {A B} (m : M A) (k : A -> M B) w a w1 t1 :
  m w = (Ok a, w1, t1) ->
  (m ≫= k) w = (resultOf (k a w1), worldOf (k a w1), t1 ++ traceOf (k a w1)).
Proof.
  intros Hm. rewrite run_bind, Hm. by destruct (k a w1) as [[r w2] t2].
Qed.

Lemma run_bind_thrown {A B} (m : M A) (k : A -> M B) w e w1 t1 :
  m w = (Thrown e, w1, t1) -> (m ≫= k) w = (Thrown e, w1, t1).
Proof. intros Hm. by rewrite run_bind, Hm. Qed.

Lemma run_bind_pending {A B} (m : M A) (k : A -> M B) w w1 t1 :
  m w = (Pending, w1, t1) -> (m ≫= k) w = (Pending, w1, t1).
Proof. intros Hm. by rewrite run_bind, Hm. Qed.

Lemma run_getWorld {B} (k : @World Chain -> M B) w : (getWorld ≫= k) w = k w w.
Proof. rewrite run_bind. simpl. by destruct (k w w) as [[r w2] t2]. Qed.

Lemma run_Date_now {B} (k : Z -> M B) w : (Date_now ≫= k) w = k (clock w) w.
Proof. rewrite run_bind. simpl. by destruct (k (clock w) w) as [[r w2] t2]. Qed.

Lemma run_ret {A B} (a : A) (k : A -> M B) w : (ret a ≫= k) w = k a w.
Proof. rewrite run_bind. simpl. by destruct (k a w) as [[r w2] t2]. Qed.

Lemma run_emit {B} (t : list Effect) (k : unit -> M B) w :
  (emit t ≫= k) w = (resultOf (k tt w), worldOf (k tt w), t ++ traceOf (k tt w)).
Proof. by apply run_bind_ok. Qed.

Lemma run_logInfo {B} logger msg (k : unit -> M B) w :
  (logInfo logger msg ≫= k) w
    = (resultOf (k tt w), worldOf (k tt w), Logged logger LInfo msg :: traceOf (k tt w)).
Proof. by apply (run_bind_ok _ _ w tt w [Logged logger LInfo msg]). Qed.

Lemma run_sleep {B} (rt : @Runtime Chain) ms (k : unit -> M B) w :
  (sleep rt ms ≫= k) w
    = (resultOf (k tt (setTimeout_resolve rt ms w)),
       worldOf (k tt (setTimeout_resolve rt ms w)),
       Called (Sleep ms) Done :: traceOf (k tt (setTimeout_resolve rt ms w))).
Proof.
  by apply (run_bind_ok _ _ w tt (setTimeout_resolve rt ms w) [Called (Sleep ms) Done]).
Qed.

Lemma run_await {A B} call (inj : A -> Answer) run (k : A -> M B) w :
  (await call inj run ≫= k) w =
  match run w with
  | (Returned a, w1) =>
      (resultOf (k a w1), worldOf (k a w1), Called call (inj a) :: traceOf (k a w1))
  | (Failed e, w1) => (Thrown e, w1, [Called call (Rejected e)])
  end.
Proof.
  rewrite run_bind. unfold await. destruct (run w) as [[a|e] w1]; [|done].
  by destruct (k a w1) as [[r w2] t2].
Qed.

Lemma run_bind_assoc {A B C} (m : M A) (k1 : A -> M B) (k2 : B -> M C) w :
  ((m ≫= k1) ≫= k2) w = (m ≫= λ a, k1 a ≫= k2) w.
Proof.
  rewrite !run_bind. destruct (m w) as [[[a|e|] w1] t1]; try done.
  rewrite run_bind. destruct (k1 a w1) as [[[b|e|] w2] t2]; try done.
  destruct (k2 b w2) as [[r w3] t3]. by rewrite app_assoc.
Qed.

Lemma triple_eta {A} (x : Result A * @World Chain * list Effect) :
  x = (resultOf x, worldOf x, traceOf x).
Proof. by destruct x as [[r w] t]. Qed.

End Running.

(** ** The event store *)

Section EventStoreFacts.
Context {Chain : Type}.
Variable rt : @Runtime Chain.
Variable epochSettings : EpochSettings.
Implicit Types w : @World Chain.

Lemma markRoundInitialized_max round ev :
  initializedVotingRound (markRoundInitialized round ev)
    = Z.max (initializedVotingRound ev) round.
Proof.
  unfold markRoundInitialized. rewrite Z.gtb_ltb.
  destruct (initializedVotingRound ev <? round) eqn:E; simpl; lia.
Qed.

Lemma markRoundInitialized_events round ev :
  rewardEpochEvents (markRoundInitialized round ev) = rewardEpochEvents ev.
Proof. unfold markRoundInitialized. by destruct (_ >? _). Qed.

(** What one [processLog] leaves in the store, whether it returns or throws. *)
Lemma processLog_events log timestamp w :
  events (worldOf (processLog rt epochSettings log timestamp w)) =
  if String.eqb (event log) "NewVotingRoundInitiated"
  then markRoundInitialized (votingEpochForTime epochSettings (timestamp * 1000)) (events w)
  else {| initializedVotingRound := initializedVotingRound (events w);
          rewardEpochEvents :=
            recordEvent (rewardEpochForTime epochSettings (timestamp * 1000)) (event log)
              (rewardEpochEvents (events w)) |}.
Proof.
  unfold processLog.
  destruct (String.eqb (event log) "NewVotingRoundInitiated"); [reflexivity|].
  destruct (String.eqb (event log) "SigningPolicyInitialized"); [|reflexivity].
  by destruct (extractSigningPolicy (args log)).
Qed.

Lemma processLog_never_pending log timestamp w :
  resultOf (processLog rt epochSettings log timestamp w) <> Pending.
Proof.
  unfold processLog.
  destruct (String.eqb (event log) "NewVotingRoundInitiated"); [done|].
  destruct (String.eqb (event log) "SigningPolicyInitialized"); [|done].
  by destruct (extractSigningPolicy (args log)).
Qed.

Lemma processLog_monotone log timestamp w :
  initializedVotingRound (events w)
    <= initializedVotingRound (events (worldOf (processLog rt epochSettings log timestamp w))).
Proof.
  rewrite processLog_events.
  destruct (String.eqb (event log) "NewVotingRoundInitiated"); simpl; [|lia].
  rewrite markRoundInitialized_max. lia.
Qed.

Lemma processLogs_monotone logs timestamp w :
  initializedVotingRound (events w)
    <= initializedVotingRound (events (worldOf (processLogs rt epochSettings logs timestamp w))).
Proof.
  revert w. induction logs as [|log rest IH]; intros w; simpl; [reflexivity|].
  pose proof (processLog_monotone log timestamp w) as H1.
  rewrite run_bind.
  destruct (processLog rt epochSettings log timestamp w) as [[[[]|e|] w1] t1] eqn:E;
    unfold worldOf in *; simpl in *; try lia.
  specialize (IH w1).
  destruct (processLogs rt epochSettings rest timestamp w1) as [[r w2] t2]; simpl in *. lia.
Qed.

Lemma recordEvent_lookup rewardEpoch name (m : gmap Z (list string)) :
  recordEvent rewardEpoch name m !! rewardEpoch
    = Some (default [] (m !! rewardEpoch) ++ [name]).
Proof. unfold recordEvent. apply lookup_insert_eq. Qed.

Lemma recordEvent_lookup_ne rewardEpoch other name (m : gmap Z (list string)) :
  rewardEpoch <> other -> recordEvent rewardEpoch name m !! other = m !! other.
Proof. intros Hne. unfold recordEvent. by apply lookup_insert_ne. Qed.

Lemma hasEvent_recordEvent rewardEpoch name (m : gmap Z (list string)) :
  hasEvent (recordEvent rewardEpoch name m) rewardEpoch name = true.
Proof.
  unfold hasEvent. rewrite recordEvent_lookup.
  apply bool_decide_eq_true. set_solver.
Qed.

Lemma hasEvent_preserved rewardEpoch name other name' (m : gmap Z (list string)) :
  hasEvent m other name' = true ->
  hasEvent (recordEvent rewardEpoch name m) other name' = true.
Proof.
  unfold hasEvent. destruct (decide (rewardEpoch = other)) as [->|Hne].
  - rewrite recordEvent_lookup. destruct (m !! other) as [l|]; [|done]. simpl.
    rewrite !bool_decide_eq_true. set_solver.
  - by rewrite recordEvent_lookup_ne.
Qed.

End EventStoreFacts.

Section EventStoreClaims.
Context {Chain : Type}.
Variable rt : @Runtime Chain.
Variable epochSettings : EpochSettings.
Implicit Types w : @World Chain.

Lemma processEach_monotone items w :
  initializedVotingRound (events w)
    <= initializedVotingRound (events (worldOf (processEach rt epochSettings items w))).
Proof.
  revert w. induction items as [|[log timestamp] rest IH]; intros w; simpl; [reflexivity|].
  pose proof (processLog_monotone rt epochSettings log timestamp w) as H1.
  rewrite run_bind.
  destruct (processLog rt epochSettings log timestamp w) as [[[[]|e|] w1] t1] eqn:E;
    unfold worldOf in *; simpl in *; try lia.
  specialize (IH w1).
  destruct (processEach rt epochSettings rest w1) as [[r w2] t2]; simpl in *. lia.
Qed.

Lemma count_after_push (name : string) (l : list string) :
  length (filter (λ x, x = name) (l ++ [name]))
    = S (length (filter (λ x, x = name) l)).
Proof.
  rewrite filter_app, length_app, filter_cons_True by done. simpl. lia.
Qed.

End EventStoreClaims.

(** C6: a processed "NewVotingRoundInitiated" event sets the store's latest
    initialized voting round to the maximum of its current value and the round
    of the event's timestamp, any other event leaves it alone; hence along
    every sequence of [processLog] calls the value never decreases. *)
Theorem initializedVotingRound_running_max {Chain : Type} (rt : @Runtime Chain)
    (epochSettings : EpochSettings) (log : Log) (timestamp : Z) (items : list (Log * Z))
    (w : @World Chain) :
  initializedVotingRound (events (worldOf (processLog rt epochSettings log timestamp w)))
    = (if String.eqb (event log) "NewVotingRoundInitiated"
       then Z.max (initializedVotingRound (events w))
                  (votingEpochForTime epochSettings (timestamp * 1000))
       else initializedVotingRound (events w))
  /\ initializedVotingRound (events w)
       <= initializedVotingRound (events (worldOf (processEach rt epochSettings items w))).
Proof.
  split; [|apply processEach_monotone].
  rewrite processLog_events.
  destruct (String.eqb (event log) "NewVotingRoundInitiated"); [|reflexivity].
  apply markRoundInitialized_max.
Qed.

(** C7: after an event name is recorded for a reward epoch the has-event
    predicate holds for it; the epoch's list is the old list with the name
    appended at its end, the lists of the other epochs are untouched, so no
    entry is ever removed; a name already present is appended once more (its
    number of occurrences grows by one).  [processLog] records every event
    other than "NewVotingRoundInitiated" this way. *)
Theorem recordEvent_hasEvent_roundtrip {Chain : Type} (rt : @Runtime Chain)
    (epochSettings : EpochSettings) (rewardEpoch : Z) (name : string)
    (m : gmap Z (list string)) (log : Log) (timestamp : Z) (w : @World Chain) :
  hasEvent (recordEvent rewardEpoch name m) rewardEpoch name = true
  /\ recordEvent rewardEpoch name m !! rewardEpoch
       = Some (default [] (m !! rewardEpoch) ++ [name])
  /\ (forall other, rewardEpoch <> other -> recordEvent rewardEpoch name m !! other = m !! other)
  /\ (forall other name', hasEvent m other name' = true ->
        hasEvent (recordEvent rewardEpoch name m) other name' = true)
  /\ length (filter (λ x, x = name)
               (default [] (recordEvent rewardEpoch name m !! rewardEpoch)))
       = S (length (filter (λ x, x = name) (default [] (m !! rewardEpoch))))
  /\ rewardEpochEvents (events (worldOf (processLog rt epochSettings log timestamp w)))
       = (if String.eqb (event log) "NewVotingRoundInitiated"
          then rewardEpochEvents (events w)
          else recordEvent (rewardEpochForTime epochSettings (timestamp * 1000)) (event log)
                 (rewardEpochEvents (events w))).
Proof.
  split; [apply hasEvent_recordEvent|].
  split; [apply recordEvent_lookup|].
  split; [intros other Hne; by apply recordEvent_lookup_ne|].
  split; [intros other name'; apply hasEvent_preserved|].
  split.
  - rewrite recordEvent_lookup. simpl. apply count_after_push.
  - rewrite processLog_events.
    destruct (String.eqb (event log) "NewVotingRoundInitiated"); [|reflexivity].
    apply markRoundInitialized_events.
Qed.

(** ** Finalization: the order of the signatures *)

Section FinalizationFacts.
Context {Chain : Type}.
Variable c : @DeployedContracts Chain.
Variable web3 : @Web3 Chain.
Variable rt : @Runtime Chain.
Variable epochSettings : EpochSettings.
Implicit Types (w : @World Chain) (accs : list RegisteredAccount) (voter : string).

Lemma findAccount_Some accs voter acc :
  findAccount accs voter = Some acc ->
  acc ∈ accs /\ toLowerCase (address (signingPolicy acc)) = toLowerCase voter.
Proof.
  intros H. apply find_some in H as [Hin Heq].
  split; [by apply list_elem_of_In|]. by apply String.eqb_eq.
Qed.

Lemma findAccount_None accs voter acc :
  findAccount accs voter = None -> acc ∈ accs ->
  toLowerCase (address (signingPolicy acc)) <> toLowerCase voter.
Proof.
  intros H Hin. apply list_elem_of_In in Hin.
  pose proof (find_none _ _ H acc Hin) as Hf. by apply String.eqb_neq.
Qed.

Lemma findAccount_isLocal accs voter :
  isLocal accs voter = bool_decide (is_Some (findAccount accs voter)).
Proof.
  unfold isLocal, findAccount. induction accs as [|a rest IH]; simpl; [done|].
  destruct (String.eqb _ _); simpl; [|done].
  first [done | symmetry; apply bool_decide_eq_true; eauto].
Qed.

(** The key found for a voter does not depend on the order of the local
    participants, as long as an address has one key. *)
Lemma findAccount_key_perm accs accs' voter :
  accs ≡ₚ accs' -> keysFollowAddresses accs ->
  (λ a, privateKey (signingPolicy a)) <$> findAccount accs voter
    = (λ a, privateKey (signingPolicy a)) <$> findAccount accs' voter.
Proof.
  intros Hp Hk.
  destruct (findAccount accs voter) as [a|] eqn:Ea;
    destruct (findAccount accs' voter) as [b|] eqn:Eb; simpl; try done.
  - apply findAccount_Some in Ea as [Ha Hav]. apply findAccount_Some in Eb as [Hb Hbv].
    f_equal. apply Hk; [done| by rewrite Hp | congruence].
  - apply findAccount_Some in Ea as [Ha Hav]. rewrite Hp in Ha.
    by destruct (findAccount_None _ _ _ Eb Ha).
  - apply findAccount_Some in Eb as [Hb Hbv]. rewrite <- Hp in Hb.
    by destruct (findAccount_None _ _ _ Ea Hb).
Qed.

Lemma privateKeysInOrder_keys voters accs :
  (privateKeysInOrder voters accs).1
    = omap (λ voter, (λ a, privateKey (signingPolicy a)) <$> findAccount accs voter) voters.
Proof.
  induction voters as [|voter rest IH]; simpl; [done|].
  destruct (privateKeysInOrder rest accs) as [keys logged]; simpl in *.
  destruct (findAccount accs voter); simpl; by rewrite IH.
Qed.

Lemma privateKeysInOrder_logged voters accs :
  calls (privateKeysInOrder voters accs).2 = []
  /\ Forall (λ e, isFinalizeEffect e = true) (privateKeysInOrder voters accs).2.
Proof.
  induction voters as [|voter rest [IH1 IH2]]; simpl; [by split|].
  destruct (privateKeysInOrder rest accs) as [keys logged]; simpl in *.
  destruct (findAccount accs voter); simpl; [done|]. split; [done|]. by constructor.
Qed.

Lemma generateSignatures_all keys messageHash :
  generateSignatures rt keys messageHash (length keys)
    = map (ECDSASignature_signMessageHash rt messageHash) keys.
Proof. unfold generateSignatures. by rewrite firstn_all. Qed.

Lemma finalizationSignatures_omap policy accs messageHash :
  finalizationSignatures rt policy accs messageHash
    = omap (λ voter,
              (λ a, ECDSASignature_signMessageHash rt messageHash (privateKey (signingPolicy a)))
                <$> findAccount accs voter)
        (voters policy).
Proof.
  unfold finalizationSignatures. rewrite generateSignatures_all, privateKeysInOrder_keys.
  induction (voters policy) as [|voter rest IH]; [done|].
  cbn [omap list_omap]. destruct (findAccount accs voter); cbn; by rewrite <- IH.
Qed.

(** One signature per voter with a local participant, in voter order. *)
Lemma finalizationSignatures_follow_voters policy accs messageHash :
  Forall2
    (λ voter signature, ∃ acc,
       acc ∈ accs
       ∧ toLowerCase (address (signingPolicy acc)) = toLowerCase voter
       ∧ signature
           = ECDSASignature_signMessageHash rt messageHash (privateKey (signingPolicy acc)))
    (List.filter (isLocal accs) (voters policy))
    (finalizationSignatures rt policy accs messageHash).
Proof.
  rewrite finalizationSignatures_omap.
  induction (voters policy) as [|voter rest IH]; [constructor|].
  cbn [List.filter omap list_omap].
  assert (isLocal accs voter = bool_decide (is_Some (findAccount accs voter))) as ->
    by apply findAccount_isLocal.
  destruct (findAccount accs voter) as [acc|] eqn:E.
  - rewrite bool_decide_eq_true_2 by eauto. cbn. constructor; [|exact IH].
    apply findAccount_Some in E as [Hin Heq]. eauto.
  - rewrite bool_decide_eq_false_2 by (by intros [? ?]). exact IH.
Qed.

Lemma finalizationSignatures_perm policy accs accs' messageHash :
  accs ≡ₚ accs' -> keysFollowAddresses accs ->
  finalizationSignatures rt policy accs messageHash
    = finalizationSignatures rt policy accs' messageHash.
Proof.
  intros Hp Hk. rewrite !finalizationSignatures_omap.
  induction (voters policy) as [|voter rest IH]; [done|].
  cbn [omap list_omap]. rewrite IH.
  pose proof (findAccount_key_perm accs accs' voter Hp Hk) as Hv.
  destruct (findAccount accs voter) as [a|], (findAccount accs' voter) as [b|];
    cbn in *; try done.
  injection Hv as Hv. by rewrite Hv.
Qed.

Lemma findAccount_two (a b : RegisteredAccount) voter :
  findAccount [a; b] voter =
    if matchesVoter voter a then Some a
    else if matchesVoter voter b then Some b else None.
Proof. reflexivity. Qed.

(** The example of the specification: voters [A, B, C], local keys for A
    and C only, the local list in either order. *)
Lemma finalizationSignatures_A_C policy (a b : RegisteredAccount) A B C messageHash :
  voters policy = [A; B; C] ->
  toLowerCase (address (signingPolicy a)) = toLowerCase A ->
  toLowerCase (address (signingPolicy b)) = toLowerCase C ->
  toLowerCase A <> toLowerCase B -> toLowerCase C <> toLowerCase B ->
  toLowerCase A <> toLowerCase C ->
  let sig x := ECDSASignature_signMessageHash rt messageHash (privateKey (signingPolicy x)) in
  finalizationSignatures rt policy [a; b] messageHash = [sig a; sig b]
  /\ finalizationSignatures rt policy [b; a] messageHash = [sig a; sig b].
Proof.
  intros Hv Ha Hb HAB HCB HAC sig.
  assert (toLowerCase C <> toLowerCase A) as HCA by congruence.
  apply String.eqb_neq in HAB, HCB, HAC, HCA.
  rewrite !finalizationSignatures_omap, Hv. cbn [omap list_omap].
  rewrite !findAccount_two. unfold matchesVoter. rewrite Ha, Hb.
  rewrite ?String.eqb_refl, ?HAB, ?HCB, ?HAC, ?HCA, ?String.eqb_refl.
  done.
Qed.

(** The transaction [fakeFinalize] sends carries these signatures. *)
Lemma fakeFinalize_calls policy acc0 accs now w :
  signingPolicies w !! rewardEpochForTime epochSettings now = Some policy ->
  head accs = Some acc0 ->
  calls (traceOf (fakeFinalize c web3 rt epochSettings accs now w))
    = [SendTransaction (address (signingPolicy acc0)) (relay_address c)
         (RELAY_SELECTOR web3 +:+
            slice_from 2
              (RelayMessage_encode rt
                 {| rm_signingPolicy := policy;
                    rm_signatures :=
                      finalizationSignatures rt policy accs
                        (ProtocolMessageMerkleRoot_hash rt
                           (messageData web3 epochSettings now));
                    rm_protocolMessageMerkleRoot := messageData web3 epochSettings now |}))].
Proof.
  intros Hpol Hhd. destruct accs as [|a rest]; [done|]. injection Hhd as ->.
  unfold fakeFinalize. rewrite run_bind. simpl. rewrite Hpol. rewrite run_bind. simpl.
  unfold try_catch. rewrite run_bind. unfold await.
  destruct (eth_sendTransaction web3 _ _ _ w) as [[[]|e] w1]; simpl;
    unfold traceOf, calls; simpl; rewrite omap_app;
    fold (calls (privateKeysInOrder (voters policy) (acc0 :: rest)).2);
    by rewrite (proj1 (privateKeysInOrder_logged _ _)).
Qed.

End FinalizationFacts.

(** C2: the signatures [fakeFinalize] puts in the relay message are one per
    policy voter that has a local participant with that signing-policy
    address (case folded), in the order of the policy's voter list, voters
    without a local participant being left out; the list does not change when
    the local participants are permuted (an address having one key); for
    voters [A, B, C] and local keys for A and C only it is [sig(A), sig(C)]
    for either order of the local list; and the one transaction the step sends
    to the relay encodes exactly this list. *)
Theorem fakeFinalize_signatures_follow_policy_order {Chain : Type}
    (c : @DeployedContracts Chain) (web3 : @Web3 Chain) (rt : @Runtime Chain)
    (epochSettings : EpochSettings) (policy : ISigningPolicy)
    (registeredAccounts : list RegisteredAccount) (messageHash : string) :
  Forall2
    (λ voter signature, ∃ acc,
       acc ∈ registeredAccounts
       ∧ toLowerCase (address (signingPolicy acc)) = toLowerCase voter
       ∧ signature
           = ECDSASignature_signMessageHash rt messageHash (privateKey (signingPolicy acc)))
    (List.filter (isLocal registeredAccounts) (voters policy))
    (finalizationSignatures rt policy registeredAccounts messageHash)
  /\ (forall permuted,
        registeredAccounts ≡ₚ permuted -> keysFollowAddresses registeredAccounts ->
        finalizationSignatures rt policy registeredAccounts messageHash
          = finalizationSignatures rt policy permuted messageHash)
  /\ (forall (a b : RegisteredAccount) A B C,
        voters policy = [A; B; C] ->
        toLowerCase (address (signingPolicy a)) = toLowerCase A ->
        toLowerCase (address (signingPolicy b)) = toLowerCase C ->
        toLowerCase A <> toLowerCase B -> toLowerCase C <> toLowerCase B ->
        toLowerCase A <> toLowerCase C ->
        finalizationSignatures rt policy [a; b] messageHash
          = [ECDSASignature_signMessageHash rt messageHash (privateKey (signingPolicy a));
             ECDSASignature_signMessageHash rt messageHash (privateKey (signingPolicy b))]
        /\ finalizationSignatures rt policy [b; a] messageHash
          = [ECDSASignature_signMessageHash rt messageHash (privateKey (signingPolicy a));
             ECDSASignature_signMessageHash rt messageHash (privateKey (signingPolicy b))])
  /\ (forall acc0 now (w : @World Chain),
        signingPolicies w !! rewardEpochForTime epochSettings now = Some policy ->
        head registeredAccounts = Some acc0 ->
        calls (traceOf (fakeFinalize c web3 rt epochSettings registeredAccounts now w))
          = [SendTransaction (address (signingPolicy acc0)) (relay_address c)
               (RELAY_SELECTOR web3 +:+
                  slice_from 2
                    (RelayMessage_encode rt
                       {| rm_signingPolicy := policy;
                          rm_signatures :=
                            finalizationSignatures rt policy registeredAccounts
                              (ProtocolMessageMerkleRoot_hash rt
                                 (messageData web3 epochSettings now));
                          rm_protocolMessageMerkleRoot :=
                            messageData web3 epochSettings now |}))]).
Proof.
  split; [apply finalizationSignatures_follow_voters|].
  split; [intros permuted; apply finalizationSignatures_perm|].
  split.
  - intros a b A B C. apply finalizationSignatures_A_C.
  - intros acc0 now w. apply fakeFinalize_calls.
Qed.

Lemma example_keysFollowAddresses :
  keysFollowAddresses [Demo.V1; Demo.V3].
Proof.
  intros a b Ha Hb Heq.
  apply list_elem_of_In in Ha, Hb. simpl in Ha, Hb.
  destruct Ha as [<-|[<-|[]]], Hb as [<-|[<-|[]]]; first [reflexivity | discriminate Heq].
Qed.

Lemma fakeFinalize_signatures_follow_policy_order_witness :
  finalizationSignatures Demo.rt Demo.policy0 [Demo.V1; Demo.V3] "digest"
    = [Demo.sign "digest" "key-p1"; Demo.sign "digest" "key-p3"]
  /\ finalizationSignatures Demo.rt Demo.policy0 [Demo.V3; Demo.V1] "digest"
    = [Demo.sign "digest" "key-p1"; Demo.sign "digest" "key-p3"]
  /\ [Demo.sign "digest" "key-p1"; Demo.sign "digest" "key-p3"]
    <> [Demo.sign "digest" "key-p3"; Demo.sign "digest" "key-p1"].
Proof.
  destruct (fakeFinalize_signatures_follow_policy_order
              (Demo.contracts ∅) Demo.web3 Demo.rt Demo.epochSettings
              Demo.policy0 [Demo.V1; Demo.V3] "digest") as (_ & Hperm & Hex & _).
  destruct (Hex Demo.V1 Demo.V3 "0xp1" "0xp2" "0xp3") as [H13 H31];
    try reflexivity; try discriminate.
  split; [exact H13|]. split; [|discriminate].
  rewrite <- (Hperm [Demo.V3; Demo.V1]); [exact H13| |exact example_keysFollowAddresses].
  apply Permutation_swap.
Defined.

(** ** Traces and where a run ends *)

Section Traces.
Context {Chain : Type}.
Implicit Types (w : @World Chain) (t : list Effect).

Lemma exchanges_app t1 t2 : exchanges (t1 ++ t2) = exchanges t1 ++ exchanges t2.
Proof. apply omap_app. Qed.

Lemma calls_app t1 t2 : calls (t1 ++ t2) = calls t1 ++ calls t2.
Proof. apply omap_app. Qed.

Lemma calls_exchanges t : calls t = map fst (exchanges t).
Proof.
  induction t as [|[c a|lg lv msg] t IH]; simpl; [done| |done].
  unfold calls, exchanges in *. simpl. by rewrite IH.
Qed.

Lemma quietFor_app cls t1 t2 : quietFor cls t1 -> quietFor cls t2 -> quietFor cls (t1 ++ t2).
Proof. apply Forall_app_2. Qed.

Lemma quietFor_nil cls : quietFor cls [].
Proof. constructor. Qed.

Lemma quietFor_logged cls logger lvl msg t :
  quietFor cls t -> quietFor cls (Logged logger lvl msg :: t).
Proof. intros H. by constructor. Qed.

Lemma quietFor_called cls call ans t :
  cls call = false -> quietFor cls t -> quietFor cls (Called call ans :: t).
Proof. intros Hc H. by constructor. Qed.

Lemma quietFor_filter cls t : quietFor cls t -> List.filter cls (calls t) = [].
Proof.
  induction 1 as [|x t Hx Ht IH]; [done|].
  destruct x as [c a|lg lv msg]; simpl in *; [|done].
  unfold calls in *. simpl. by rewrite Hx.
Qed.

(** A call of the class found in [t0 ++ t], [t0] quiet, lies in [t]. *)
Lemma exchanges_split_quiet_l cls t0 t pre call ans post :
  quietFor cls t0 ->
  exchanges (t0 ++ t) = pre ++ (call, ans) :: post ->
  cls call = true ->
  exists pre', pre = exchanges t0 ++ pre' /\ exchanges t = pre' ++ (call, ans) :: post.
Proof.
  intros Hq. revert pre.
  induction Hq as [|x t0 Hx Ht IH]; intros pre Heq Hcls; [by exists pre|].
  destruct x as [c a|lg lv msg].
  - simpl in Hx. change (exchanges ((Called c a :: t0) ++ t))
      with ((c, a) :: exchanges (t0 ++ t)) in Heq.
    destruct pre as [|p pre]; simpl in Heq.
    + simplify_eq. congruence.
    + injection Heq as Hp Heq. subst p.
      destruct (IH pre Heq Hcls) as (pre' & -> & Hpre'). by exists pre'.
  - change (exchanges ((Logged lg lv msg :: t0) ++ t)) with (exchanges (t0 ++ t)) in Heq.
    destruct (IH pre Heq Hcls) as (pre' & -> & Hpre'). by exists pre'.
Qed.

Lemma quietFor_exchanges cls t call ans :
  quietFor cls t -> (call, ans) ∈ exchanges t -> cls call = false.
Proof.
  induction 1 as [|x t Hx Ht IH]; intros Hin; [by apply elem_of_nil in Hin|].
  destruct x as [c a|lg lv msg]; simpl in *.
  - change (exchanges (Called c a :: t)) with ((c, a) :: exchanges t) in Hin.
    apply list_elem_of_In in Hin. destruct Hin as [Hin|Hin]; [by simplify_eq|].
    apply IH. by apply list_elem_of_In.
  - by apply IH.
Qed.

(** A call of the class found in [t ++ t1], [t1] quiet, lies in [t]. *)
Lemma exchanges_split_quiet_r cls t t1 pre call ans post :
  quietFor cls t1 ->
  exchanges (t ++ t1) = pre ++ (call, ans) :: post ->
  cls call = true ->
  exists post', post = post' ++ exchanges t1 /\ exchanges t = pre ++ (call, ans) :: post'.
Proof.
  intros Hq Heq Hcls. rewrite exchanges_app in Heq.
  revert pre Heq. generalize (exchanges t) as l. intros l.
  induction l as [|x l IH]; intros pre Heq; simpl in Heq.
  - assert ((call, ans) ∈ exchanges t1) as Hin.
    { rewrite Heq. apply list_elem_of_In, in_elt. }
    pose proof (quietFor_exchanges _ _ _ _ Hq Hin). congruence.
  - destruct pre as [|p pre]; simpl in Heq.
    + injection Heq as Hx Heq. subst x. exists l. by rewrite Heq.
    + injection Heq as Hx Heq. subst x. destruct (IH pre Heq) as (post' & -> & ->).
      by exists post'.
Qed.

Lemma endsAt_quiet cls verdict (r : Result unit) w t :
  quietFor cls t -> endsAt cls verdict (r, w, t).
Proof.
  intros Hq pre call ans post r' Heq Hcls _. unfold traceOf in Heq; simpl in Heq.
  assert ((call, ans) ∈ exchanges t) as Hin.
  { rewrite Heq. apply list_elem_of_In, in_elt. }
  pose proof (quietFor_exchanges _ _ _ _ Hq Hin). congruence.
Qed.

Lemma endsAt_prefix cls verdict (r : Result unit) w t0 t :
  quietFor cls t0 -> endsAt cls verdict (r, w, t) -> endsAt cls verdict (r, w, t0 ++ t).
Proof.
  intros Hq H pre call ans post r' Heq Hcls Hv. unfold traceOf in Heq; simpl in Heq.
  destruct (exchanges_split_quiet_l _ _ _ _ _ _ _ Hq Heq Hcls) as (pre' & -> & Heq').
  exact (H pre' call ans post r' Heq' Hcls Hv).
Qed.

(** A quiet step and then a run that ends at its verdict. *)
Lemma endsAt_bind {A} cls verdict (m : M A) (k : A -> M unit) w :
  quietFor cls (traceOf (m w)) ->
  (forall a w1, endsAt cls verdict (k a w1)) ->
  endsAt cls verdict ((m ≫= k) w).
Proof.
  intros Hq Hk. rewrite run_bind.
  destruct (m w) as [[[a|e|] w1] t1]; unfold traceOf in Hq; simpl in Hq.
  - specialize (Hk a w1). destruct (k a w1) as [[r w2] t2]. by apply endsAt_prefix.
  - by apply endsAt_quiet.
  - by apply endsAt_quiet.
Qed.

(** A run that ends at its verdict, the verdicts all being exceptions, and
    then quiet steps. *)
Lemma endsAt_bind_l cls verdict (m : M unit) (k : unit -> M unit) w :
  (forall a r, verdict a = Some r -> r <> Ok tt) ->
  endsAt cls verdict (m w) ->
  (forall a w1, quietFor cls (traceOf (k a w1))) ->
  endsAt cls verdict ((m ≫= k) w).
Proof.
  intros Hv Hm Hk. rewrite run_bind.
  destruct (m w) as [[[[]|e|] w1] t1] eqn:E; try exact Hm.
  specialize (Hk tt w1). destruct (k tt w1) as [[r w2] t2]. unfold traceOf in Hk; simpl in Hk.
  intros pre call ans post r' Heq Hcls Hver. unfold traceOf in Heq; simpl in Heq.
  destruct (exchanges_split_quiet_r _ _ _ _ _ _ _ Hk Heq Hcls) as (post' & -> & Heq').
  destruct (Hm pre call ans post' r' Heq' Hcls Hver) as [Hr _].
  unfold resultOf in Hr; simpl in Hr. subst r'. by destruct (Hv _ _ Hver).
Qed.

End Traces.

(** ** The signing-policy driver *)

Section SigningPolicyFacts.
Context {Chain : Type}.
Variable c : @DeployedContracts Chain.
Variable web3 : @Web3 Chain.
Variable rt : @Runtime Chain.
Variable cfg : SimulationConfig.
Implicit Types (w : @World Chain) (accs : list RegisteredAccount).

Lemma quietFor_bind {A B} cls (m : M A) (k : A -> M B) w :
  quietFor cls (traceOf (m w)) ->
  (forall a w1, quietFor cls (traceOf (k a w1))) ->
  quietFor cls (traceOf ((m ≫= k) w)).
Proof.
  intros Hm Hk. rewrite run_bind.
  destruct (m w) as [[[a|e|] w1] t1]; try exact Hm.
  specialize (Hk a w1). destruct (k a w1) as [[r w2] t2].
  by apply quietFor_app.
Qed.

Lemma awaitEvent_quiet cls fuel rewardEpoch name (body : M unit) w :
  (forall ms, cls (Sleep ms) = false) ->
  (forall w1, quietFor cls (traceOf (body w1))) ->
  quietFor cls (traceOf (awaitEvent rt fuel rewardEpoch name body w)).
Proof.
  intros Hs Hb. revert w. induction fuel as [|fuel IH]; intros w; cbn [awaitEvent];
    rewrite run_getWorld;
    destruct (hasEvent (rewardEpochEvents (events w)) rewardEpoch name);
    try apply quietFor_nil.
  apply quietFor_bind; [apply Hb|]. intros _ w1.
  apply quietFor_bind; [|intros _ w2; apply IH].
  apply quietFor_called; [apply Hs | apply quietFor_nil].
Qed.

(** The wait loop returns at once when the event is in the store. *)
Lemma awaitEvent_present fuel rewardEpoch name body w :
  hasEvent (rewardEpochEvents (events w)) rewardEpoch name = true ->
  awaitEvent rt fuel rewardEpoch name body w = (Ok tt, w, []).
Proof.
  intros H. destruct fuel; cbn [awaitEvent]; rewrite run_getWorld; by rewrite H.
Qed.

Lemma registerVoters_cons nextRewardEpochId acc rest w :
  registerVoters c web3 cfg nextRewardEpochId (acc :: rest) w =
  if skipsRegistration cfg acc then
    let R := registerVoters c web3 cfg nextRewardEpochId rest w in
    (resultOf R, worldOf R,
     Logged "signingPolicy" LInfo
       ("Skipping automatic voter registration for " +:+ address (signingPolicy acc))
       :: traceOf R)
  else
    match voterRegistry_registerVoter c (address (identity acc))
            (eth_accounts_sign web3
               (utils_keccak256 web3
                  (eth_abi_encodeParameters_uint24_address web3 nextRewardEpochId
                     (address (identity acc))))
               (privateKey (signingPolicy acc)))
            (address (submitSignatures acc)) w with
    | (Returned _, w1) =>
        let R := registerVoters c web3 cfg nextRewardEpochId rest w1 in
        (resultOf R, worldOf R,
         Logged "signingPolicy" LInfo ("Registering voter " +:+ address (signingPolicy acc))
           :: Called (registrationRequest web3 nextRewardEpochId acc) Done :: traceOf R)
    | (Failed e, w1) =>
        (Thrown e, w1,
         [Logged "signingPolicy" LInfo ("Registering voter " +:+ address (signingPolicy acc));
          Called (registrationRequest web3 nextRewardEpochId acc) (Rejected e)])
    end.
Proof.
  cbn [registerVoters]. rewrite run_bind.
  destruct (skipsRegistration cfg acc).
  - cbn. by destruct (registerVoters c web3 cfg nextRewardEpochId rest w) as [[r w2] t2].
  - rewrite run_bind. cbn. unfold registerVoter, await, registrationRequest.
    destruct (voterRegistry_registerVoter c _ _ _ w) as [[[]|e] w1]; cbn; [|done].
    by destruct (registerVoters c web3 cfg nextRewardEpochId rest w1) as [[r w2] t2].
Qed.

Lemma signNewSigningPolicies_cons governanceAccount nextRewardEpochId hash acc rest w :
  signNewSigningPolicies c web3 cfg governanceAccount nextRewardEpochId hash (acc :: rest) w =
  if skipsSigning cfg acc then
    let L := signNewSigningPolicies c web3 cfg governanceAccount nextRewardEpochId hash rest w in
    (resultOf L, worldOf L,
     Logged "signingPolicy" LInfo
       ("Skipping automatic new signing policy signing for " +:+ address (signingPolicy acc))
       :: traceOf L)
  else
    let request := signRequest web3 governanceAccount nextRewardEpochId hash acc in
    match flareSystemsManager_signNewSigningPolicy c nextRewardEpochId hash
            (eth_accounts_sign web3 hash (privateKey (signingPolicy acc)))
            (address governanceAccount) w with
    | (Failed e, w1) => (Thrown e, w1, [Called request (Rejected e)])
    | (Returned logs, w1) =>
        match signVerdict (Logs logs) with
        | Some (Ok _) =>
            (Ok tt, w1,
             [Called request (Logs logs);
              Logged "signingPolicy" LInfo
                ("Signed policy with account " +:+ address (signingPolicy acc)
                   +:+ " - threshold reached")])
        | Some r => (r, w1, [Called request (Logs logs)])
        | None =>
            let L :=
              signNewSigningPolicies c web3 cfg governanceAccount nextRewardEpochId hash
                rest w1 in
            (resultOf L, worldOf L, Called request (Logs logs) :: traceOf L)
        end
    end.
Proof.
  cbn [signNewSigningPolicies].
  destruct (skipsSigning cfg acc); [by rewrite run_logInfo|].
  rewrite run_bind. unfold await, signRequest.
  destruct (flareSystemsManager_signNewSigningPolicy c _ _ _ _ w) as [[logs|e] w1]; [|done].
  destruct logs as [|log0 logs]; [done|]. cbn.
  destruct (String.eqb (event log0) "SigningPolicySigned"); [|done]. cbn.
  destruct (thresholdReached (args log0)); [done|].
  by destruct (signNewSigningPolicies c web3 cfg governanceAccount nextRewardEpochId hash
                 rest w1) as [[r w2] t2].
Qed.

Lemma endsAt_logged cls verdict (r : Result unit) w logger lvl msg t :
  endsAt cls verdict (r, w, t) -> endsAt cls verdict (r, w, Logged logger lvl msg :: t).
Proof.
  intros H. apply (endsAt_prefix cls verdict r w [Logged logger lvl msg] t); [|done].
  apply quietFor_logged, quietFor_nil.
Qed.

Lemma endsAt_called_on cls verdict (r : Result unit) w call ans t :
  verdict ans = None ->
  endsAt cls verdict (r, w, t) -> endsAt cls verdict (r, w, Called call ans :: t).
Proof.
  intros Hn H pre call' ans' post r' Heq Hcls Hv. unfold traceOf in Heq; simpl in Heq.
  change (exchanges (Called call ans :: t)) with ((call, ans) :: exchanges t) in Heq.
  destruct pre as [|p pre]; simpl in Heq.
  - simplify_eq.
  - injection Heq as _ Heq. exact (H pre call' ans' post r' Heq Hcls Hv).
Qed.

Lemma endsAt_last cls verdict (r : Result unit) w call ans t :
  (forall r', verdict ans = Some r' -> r = r') -> exchanges t = [] ->
  endsAt cls verdict (r, w, Called call ans :: t).
Proof.
  intros Hr Ht pre call' ans' post r' Heq Hcls Hv. unfold traceOf in Heq; simpl in Heq.
  change (exchanges (Called call ans :: t)) with ((call, ans) :: exchanges t) in Heq.
  rewrite Ht in Heq.
  destruct pre as [|p pre]; simpl in Heq.
  - simplify_eq. split; [|done]. unfold resultOf; simpl. by apply Hr.
  - injection Heq as _ Heq. by destruct pre.
Qed.

Section Ratification.
Variable governanceAccount : Account.
Variable nextRewardEpochId : Z.
Variable hash : string.

Let loop := signNewSigningPolicies c web3 cfg governanceAccount nextRewardEpochId hash.
Let request := signRequest web3 governanceAccount nextRewardEpochId hash.
Let eligible := λ acc, negb (skipsSigning cfg acc).

Lemma signNewSigningPolicies_endsAt accs w :
  endsAt isSignNewSigningPolicy signVerdict (loop accs w).
Proof.
  revert w. induction accs as [|acc rest IH]; intros w.
  { apply endsAt_quiet, quietFor_nil. }
  unfold loop. rewrite signNewSigningPolicies_cons. fold loop.
  destruct (skipsSigning cfg acc).
  { cbn zeta. apply endsAt_logged. rewrite <- triple_eta. apply IH. }
  cbn zeta.
  destruct (flareSystemsManager_signNewSigningPolicy c _ _ _ _ w) as [[logs|e] w1].
  - destruct (signVerdict (Logs logs)) as [[[]|e|]|] eqn:Ev.
    + apply endsAt_last; [|done]. intros r' Hr'. congruence.
    + apply endsAt_last; [|done]. intros r' Hr'. congruence.
    + apply endsAt_last; [|done]. intros r' Hr'. congruence.
    + apply endsAt_called_on; [done|]. rewrite <- triple_eta. apply IH.
  - apply endsAt_last; [|done]. intros r' Hr'. simpl in Hr'. congruence.
Qed.

Lemma signNewSigningPolicies_calls accs w :
  calls (traceOf (loop accs w)) `prefix_of` map request (List.filter eligible accs)
  /\ (resultOf (loop accs w) = Ok tt ->
        calls (traceOf (loop accs w)) = map request (List.filter eligible accs)
        \/ exists pre call ans,
             exchanges (traceOf (loop accs w)) = pre ++ [(call, ans)]
             /\ reportsThreshold ans = true)
  /\ resultOf (loop accs w) <> Pending
  /\ quietFor isRegisterVoter (traceOf (loop accs w)).
Proof.
  revert w. induction accs as [|acc rest IH]; intros w.
  { repeat split; [apply prefix_nil | by left | done | apply quietFor_nil]. }
  unfold loop. rewrite signNewSigningPolicies_cons. fold loop. unfold eligible at 1 2.
  cbn [List.filter]. fold eligible.
  destruct (skipsSigning cfg acc); cbn [negb]; cbn zeta.
  { destruct (IH w) as (H1 & H2 & H3 & H4). unfold traceOf, resultOf in *; simpl.
    repeat split; [done|done|done|]. by apply quietFor_logged. }
  fold request.
  destruct (flareSystemsManager_signNewSigningPolicy c _ _ _ _ w) as [[logs|e] w1].
  - destruct (signVerdict (Logs logs)) as [[[]|e|]|] eqn:Ev; unfold traceOf, resultOf; simpl.
    + repeat split; [by apply prefix_cons, prefix_nil| |done|].
      * intros _. right. exists [], (request acc), (Logs logs). split; [done|].
        unfold signVerdict in Ev. destruct (acknowledged logs); [|done].
        by destruct (reportsThreshold (Logs logs)).
      * apply quietFor_called; [done|]. apply quietFor_logged, quietFor_nil.
    + repeat split; [by apply prefix_cons, prefix_nil|done|done|].
      apply quietFor_called; [done|apply quietFor_nil].
    + exfalso. unfold signVerdict in Ev. destruct (acknowledged logs); [|done].
      by destruct (reportsThreshold (Logs logs)).
    + destruct (IH w1) as (H1 & H2 & H3 & H4). unfold traceOf, resultOf in *.
      repeat split; [by apply prefix_cons| |done|by apply quietFor_called].
      intros Hok. destruct (H2 Hok) as [Hall|(pre & call & ans & Hex & Hthr)].
      * left. change (calls (Called (request acc) (Logs logs) :: ?t))
          with (request acc :: calls t). by rewrite Hall.
      * right. exists ((request acc, Logs logs) :: pre), call, ans. split; [|done].
        change (exchanges (Called (request acc) (Logs logs) :: ?t))
          with ((request acc, Logs logs) :: exchanges t). by rewrite Hex.
  - unfold traceOf, resultOf; simpl.
    repeat split; [by apply prefix_cons, prefix_nil|done|done|].
    apply quietFor_called; [done|apply quietFor_nil].
Qed.

End Ratification.

End SigningPolicyFacts.

Section SigningPolicyDriver.
Context {Chain : Type}.
Variable c : @DeployedContracts Chain.
Variable web3 : @Web3 Chain.
Variable rt : @Runtime Chain.
Variable cfg : SimulationConfig.
Implicit Types (w : @World Chain) (accs : list RegisteredAccount).

Lemma quietFor_await {A} cls call (inj : A -> Answer) run w :
  cls call = false -> quietFor cls (traceOf (await call inj run w)).
Proof.
  intros Hc. unfold await. destruct (run w) as [[a|e] w1];
    apply quietFor_called; first [done | apply quietFor_nil].
Qed.

Lemma quietFor_logInfo cls logger msg w : quietFor cls (traceOf (logInfo logger msg w)).
Proof. apply quietFor_logged, quietFor_nil. Qed.

Lemma quietFor_logError cls logger msg w : quietFor cls (traceOf (logError logger msg w)).
Proof. apply quietFor_logged, quietFor_nil. Qed.

Lemma quietFor_sleep cls ms w :
  cls (Sleep ms) = false -> quietFor cls (traceOf (sleep rt ms w)).
Proof. intros H. apply quietFor_called; [done|apply quietFor_nil]. Qed.

Section Registration.
Variable nextRewardEpochId : Z.

Let loop := registerVoters c web3 cfg nextRewardEpochId.
Let request := registrationRequest web3 nextRewardEpochId.
Let eligible := λ acc, negb (skipsRegistration cfg acc).

Lemma registerVoters_endsAt accs w :
  endsAt isRegisterVoter registerVerdict (loop accs w).
Proof.
  revert w. induction accs as [|acc rest IH]; intros w.
  { apply endsAt_quiet, quietFor_nil. }
  unfold loop. rewrite registerVoters_cons. fold loop.
  destruct (skipsRegistration cfg acc); cbn zeta.
  { apply endsAt_logged. rewrite <- triple_eta. apply IH. }
  destruct (voterRegistry_registerVoter c _ _ _ w) as [[[]|e] w1]; apply endsAt_logged.
  - apply endsAt_called_on; [done|]. rewrite <- triple_eta. apply IH.
  - apply endsAt_last; [|done]. intros r' Hr'. simpl in Hr'. congruence.
Qed.

Lemma registerVoters_calls accs w :
  calls (traceOf (loop accs w)) `prefix_of` map request (List.filter eligible accs)
  /\ (resultOf (loop accs w) = Ok tt
        /\ calls (traceOf (loop accs w)) = map request (List.filter eligible accs)
        /\ Forall (λ x, x.2 = Done) (exchanges (traceOf (loop accs w)))
      \/ exists pre call e,
           exchanges (traceOf (loop accs w)) = pre ++ [(call, Rejected e)]
           /\ resultOf (loop accs w) = Thrown e)
  /\ Forall (λ e, isErrorLog e = false) (traceOf (loop accs w))
  /\ quietFor isSignNewSigningPolicy (traceOf (loop accs w)).
Proof.
  revert w. induction accs as [|acc rest IH]; intros w.
  { repeat split; [apply prefix_nil | by left | done | apply quietFor_nil]. }
  unfold loop. rewrite registerVoters_cons. fold loop. unfold eligible at 1 2.
  cbn [List.filter]. fold eligible.
  destruct (skipsRegistration cfg acc); cbn [negb]; cbn zeta.
  { destruct (IH w) as (H1 & H2 & H3 & H4). unfold traceOf, resultOf in *; simpl.
    repeat split; [done|done|by constructor|by apply quietFor_logged]. }
  fold request.
  destruct (voterRegistry_registerVoter c _ _ _ w) as [[[]|e] w1];
    unfold traceOf, resultOf; simpl.
  - destruct (IH w1) as (H1 & H2 & H3 & H4). unfold traceOf, resultOf in *.
    split; [by apply prefix_cons|]. split.
    + destruct H2 as [(Hok & Hall & HD)|(pre & call & e & Hex & Hthrown)].
      * left. split; [done|]. split.
        -- change (calls (?l :: Called (request acc) Done :: ?t))
             with (request acc :: calls t). by rewrite Hall.
        -- change (exchanges (?l :: Called (request acc) Done :: ?t))
             with ((request acc, Done) :: exchanges t). by constructor.
      * right. exists ((request acc, Done) :: pre), call, e. split; [|done].
        change (exchanges (?l :: Called (request acc) Done :: ?t))
          with ((request acc, Done) :: exchanges t). by rewrite Hex.
    + split; [by repeat constructor|].
      apply quietFor_logged. by apply quietFor_called.
  - split; [by apply prefix_cons, prefix_nil|]. split.
    + right. by exists [], (request acc), e.
    + split; [by repeat constructor|].
      apply quietFor_logged, quietFor_called; [done|apply quietFor_nil].
Qed.

End Registration.

(** In [defineNextSigningPolicy] an answer to [signNewSigningPolicy] with a
    verdict ends the driver. *)
Lemma defineNextSigningPolicy_endsAt_sign fuel governanceAccount accs w :
  endsAt isSignNewSigningPolicy signVerdict
    (defineNextSigningPolicy c web3 rt cfg fuel governanceAccount accs w).
Proof.
  unfold defineNextSigningPolicy.
  apply endsAt_bind; [by apply quietFor_await|]. intros e w1.
  apply endsAt_bind; [apply quietFor_logInfo|]. intros _ w2.
  apply endsAt_bind; [apply quietFor_logInfo|]. intros _ w3.
  apply endsAt_bind.
  { apply awaitEvent_quiet; [done|]. intros w'. apply quietFor_logInfo. }
  intros _ w4.
  apply endsAt_bind; [by apply quietFor_await|]. intros random w5.
  destruct (negb random.2); [apply endsAt_quiet, quietFor_nil|].
  apply endsAt_bind; [apply quietFor_logInfo|]. intros _ w6.
  apply endsAt_bind.
  { apply awaitEvent_quiet; [done|]. intros w'. apply quietFor_nil. }
  intros _ w7.
  apply endsAt_bind; [apply registerVoters_calls|]. intros _ w8.
  apply endsAt_bind; [apply quietFor_logInfo|]. intros _ w9.
  apply endsAt_bind.
  { apply awaitEvent_quiet; [done|]. intros w'. apply quietFor_nil. }
  intros _ w10.
  apply endsAt_bind; [apply quietFor_logInfo|]. intros _ w11.
  apply endsAt_bind; [by apply quietFor_await|]. intros hash w12.
  apply signNewSigningPolicies_endsAt.
Qed.

Lemma registerVerdict_not_ok a r : registerVerdict a = Some r -> r <> Ok tt.
Proof. destruct a; simpl; congruence. Qed.

(** In [defineNextSigningPolicy] a rejected [registerVoter] ends the
    driver. *)
Lemma defineNextSigningPolicy_endsAt_register fuel governanceAccount accs w :
  endsAt isRegisterVoter registerVerdict
    (defineNextSigningPolicy c web3 rt cfg fuel governanceAccount accs w).
Proof.
  unfold defineNextSigningPolicy.
  apply endsAt_bind; [by apply quietFor_await|]. intros e w1.
  apply endsAt_bind; [apply quietFor_logInfo|]. intros _ w2.
  apply endsAt_bind; [apply quietFor_logInfo|]. intros _ w3.
  apply endsAt_bind.
  { apply awaitEvent_quiet; [done|]. intros w'. apply quietFor_logInfo. }
  intros _ w4.
  apply endsAt_bind; [by apply quietFor_await|]. intros random w5.
  destruct (negb random.2); [apply endsAt_quiet, quietFor_nil|].
  apply endsAt_bind; [apply quietFor_logInfo|]. intros _ w6.
  apply endsAt_bind.
  { apply awaitEvent_quiet; [done|]. intros w'. apply quietFor_nil. }
  intros _ w7.
  apply endsAt_bind_l; [apply registerVerdict_not_ok|apply registerVoters_endsAt|].
  intros _ w8.
  apply quietFor_bind; [apply quietFor_logInfo|]. intros _ w9.
  apply quietFor_bind.
  { apply awaitEvent_quiet; [done|]. intros w'. apply quietFor_nil. }
  intros _ w10.
  apply quietFor_bind; [apply quietFor_logInfo|]. intros _ w11.
  apply quietFor_bind; [by apply quietFor_await|]. intros hash w12.
  apply signNewSigningPolicies_calls.
Qed.

End SigningPolicyDriver.

(** ** The claims on the signing-policy driver *)

Lemma reportsThreshold_verdict a :
  reportsThreshold a = true -> signVerdict a = Some (Ok tt).
Proof.
  destruct a as [| | | | |logs]; try done. destruct logs as [|log0 logs]; [done|].
  simpl. intros H. rewrite H. apply andb_true_iff in H as [-> _]. done.
Qed.

Lemma unacknowledged_verdict logs :
  (forall l, l ∈ logs -> event l <> "SigningPolicySigned") ->
  signVerdict (Logs logs) = Some (Thrown "Expected signing policy to be signed").
Proof.
  intros H. destruct logs as [|log0 logs]; [done|]. simpl.
  assert (event log0 <> "SigningPolicySigned") as Hne by (apply H; left).
  apply String.eqb_neq in Hne. by rewrite Hne.
Qed.

(** C3: the ratification loop of [defineNextSigningPolicy] sends its
    requests in the order of the participants it was given, leaving out those
    of the skip-set; the first request acknowledged with
    [thresholdReached = true] ends the loop and the driver successfully, no
    request follows it, so the participants after that point do not sign; a
    successful end means that the threshold was reported or that every
    participant outside the skip-set has signed. *)
Theorem ratification_exits_at_threshold {Chain : Type} (c : @DeployedContracts Chain)
    (web3 : @Web3 Chain) (rt : @Runtime Chain) (cfg : SimulationConfig) (fuel : nat)
    (governanceAccount : Account) (nextRewardEpochId : Z) (hash : string)
    (registeredAccounts : list RegisteredAccount) (w : @World Chain) :
  let loop :=
    signNewSigningPolicies c web3 cfg governanceAccount nextRewardEpochId hash
      registeredAccounts w in
  let run := defineNextSigningPolicy c web3 rt cfg fuel governanceAccount registeredAccounts w in
  calls (traceOf loop)
    `prefix_of` map (signRequest web3 governanceAccount nextRewardEpochId hash)
                  (List.filter (λ acc, negb (skipsSigning cfg acc)) registeredAccounts)
  /\ (forall pre call ans post,
        exchanges (traceOf loop) = pre ++ (call, ans) :: post ->
        isSignNewSigningPolicy call = true -> reportsThreshold ans = true ->
        resultOf loop = Ok tt /\ post = [])
  /\ (forall pre call ans post,
        exchanges (traceOf run) = pre ++ (call, ans) :: post ->
        isSignNewSigningPolicy call = true -> reportsThreshold ans = true ->
        resultOf run = Ok tt /\ post = [])
  /\ (resultOf loop = Ok tt ->
        calls (traceOf loop)
          = map (signRequest web3 governanceAccount nextRewardEpochId hash)
              (List.filter (λ acc, negb (skipsSigning cfg acc)) registeredAccounts)
        \/ exists pre call ans,
             exchanges (traceOf loop) = pre ++ [(call, ans)] /\ reportsThreshold ans = true).
Proof.
  intros loop run.
  destruct (signNewSigningPolicies_calls c web3 cfg governanceAccount nextRewardEpochId hash
              registeredAccounts w) as (Hprefix & Hok & _ & _).
  split; [exact Hprefix|]. split; [|split; [|exact Hok]].
  - intros pre call ans post Heq Hcls Hthr.
    exact (signNewSigningPolicies_endsAt c web3 cfg governanceAccount nextRewardEpochId hash
             registeredAccounts w pre call ans post (Ok tt) Heq Hcls
             (reportsThreshold_verdict _ Hthr)).
  - intros pre call ans post Heq Hcls Hthr.
    exact (defineNextSigningPolicy_endsAt_sign c web3 rt cfg fuel governanceAccount
             registeredAccounts w pre call ans post (Ok tt) Heq Hcls
             (reportsThreshold_verdict _ Hthr)).
Qed.

Lemma ratification_exits_at_threshold_witness :
  let run :=
    defineNextSigningPolicy (Demo.contracts ∅) Demo.web3 Demo.rt Demo.noSkips 0
      Demo.governance [Demo.V1; Demo.V2; Demo.V3] Demo.world0 in
  List.filter isSignNewSigningPolicy (calls (traceOf run))
    = [signRequest Demo.web3 Demo.governance 2 "policy2" Demo.V1;
       signRequest Demo.web3 Demo.governance 2 "policy2" Demo.V2]
  /\ resultOf run = Ok tt.
Proof.
  intros run. split; [reflexivity|].
  refine (proj1 (proj1 (proj2 (proj2
            (ratification_exits_at_threshold (Demo.contracts ∅) Demo.web3 Demo.rt
               Demo.noSkips 0 Demo.governance 2 "policy2"
               [Demo.V1; Demo.V2; Demo.V3] Demo.world0)))
            (removelast (exchanges (traceOf run)))
            (signRequest Demo.web3 Demo.governance 2 "policy2" Demo.V2)
            (Logs [mkLog "SigningPolicySigned" (SignedArgs true)]) [] _ _ _));
    reflexivity.
Defined.

(** C5: when the answer to a participant's [signNewSigningPolicy] carries no
    "SigningPolicySigned" event, [defineNextSigningPolicy] throws "Expected
    signing policy to be signed" and makes no further call: the later
    participants do not sign. *)
Theorem unacknowledged_signature_is_fatal {Chain : Type} (c : @DeployedContracts Chain)
    (web3 : @Web3 Chain) (rt : @Runtime Chain) (cfg : SimulationConfig) (fuel : nat)
    (governanceAccount : Account) (registeredAccounts : list RegisteredAccount)
    (w : @World Chain) pre rewardEpoch hash signature from logs post :
  let run := defineNextSigningPolicy c web3 rt cfg fuel governanceAccount registeredAccounts w in
  exchanges (traceOf run)
    = pre ++ (SignNewSigningPolicy rewardEpoch hash signature from, Logs logs) :: post ->
  (forall l, l ∈ logs -> event l <> "SigningPolicySigned") ->
  resultOf run = Thrown "Expected signing policy to be signed" /\ post = [].
Proof.
  intros run Heq Hlogs.
  exact (defineNextSigningPolicy_endsAt_sign c web3 rt cfg fuel governanceAccount
           registeredAccounts w pre _ _ post _ Heq eq_refl (unacknowledged_verdict _ Hlogs)).
Qed.

Lemma unacknowledged_signature_is_fatal_witness :
  let run :=
    defineNextSigningPolicy Demo.silentContracts Demo.web3 Demo.rt Demo.noSkips 0
      Demo.governance [Demo.V1; Demo.V2; Demo.V3] Demo.world0 in
  last (exchanges (traceOf run))
    = Some (SignNewSigningPolicy 2 "policy2" (Demo.sign "policy2" "key-p1") "0xGov", Logs [])
  /\ resultOf run = Thrown "Expected signing policy to be signed".
Proof.
  intros run. split; [reflexivity|].
  refine (proj1 (unacknowledged_signature_is_fatal Demo.silentContracts Demo.web3
                   Demo.rt Demo.noSkips 0 Demo.governance
                   [Demo.V1; Demo.V2; Demo.V3] Demo.world0
                   (removelast (exchanges (traceOf run)))
                   2 "policy2" (Demo.sign "policy2" "key-p1") "0xGov" [] [] _ _)).
  - reflexivity.
  - intros l Hl. by apply elem_of_nil in Hl.
Defined.

(** The counterexample to C4 as stated: the registration sent from V1's
    address reverts; the loop throws, V2 and V3 are never sent a request and
    nothing is logged at error level. *)
Lemma registration_failure_is_fatal_counterexample :
  ~ registrationFailuresTolerated (Demo.contracts {["0xG1"]}) Demo.web3 Demo.noSkips 2
      [Demo.V1; Demo.V2; Demo.V3] Demo.world0.
Proof.
  intros (Hcalls & _ & _). vm_compute in Hcalls. discriminate Hcalls.
Qed.

(** C4, amended: the registration loop sends, in the order of the
    participants and leaving out those of the skip-set, a registration request
    for the next reward epoch; when no request is rejected every such
    participant is sent one and the loop completes; a rejected request is not
    caught: it is the last call of the loop and of [defineNextSigningPolicy],
    which throws the rejection, so the remaining participants are not
    registered; the loop logs nothing at error level. *)
Theorem registration_stops_at_first_failure {Chain : Type} (c : @DeployedContracts Chain)
    (web3 : @Web3 Chain) (rt : @Runtime Chain) (cfg : SimulationConfig) (fuel : nat)
    (governanceAccount : Account) (nextRewardEpochId : Z)
    (registeredAccounts : list RegisteredAccount) (w : @World Chain) :
  let loop := registerVoters c web3 cfg nextRewardEpochId registeredAccounts w in
  let run := defineNextSigningPolicy c web3 rt cfg fuel governanceAccount registeredAccounts w in
  let requests :=
    map (registrationRequest web3 nextRewardEpochId)
      (List.filter (λ acc, negb (skipsRegistration cfg acc)) registeredAccounts) in
  calls (traceOf loop) `prefix_of` requests
  /\ (resultOf loop = Ok tt /\ calls (traceOf loop) = requests
        /\ Forall (λ x, x.2 = Done) (exchanges (traceOf loop))
      \/ exists pre call e,
           exchanges (traceOf loop) = pre ++ [(call, Rejected e)]
           /\ resultOf loop = Thrown e)
  /\ Forall (λ e, isErrorLog e = false) (traceOf loop)
  /\ (forall pre call e post,
        exchanges (traceOf run) = pre ++ (call, Rejected e) :: post ->
        isRegisterVoter call = true ->
        resultOf run = Thrown e /\ post = []).
Proof.
  intros loop run requests.
  destruct (registerVoters_calls c web3 cfg nextRewardEpochId registeredAccounts w)
    as (Hprefix & Hend & Hlog & _).
  split; [exact Hprefix|]. split; [exact Hend|]. split; [exact Hlog|].
  intros pre call e post Heq Hcls.
  exact (defineNextSigningPolicy_endsAt_register c web3 rt cfg fuel governanceAccount
           registeredAccounts w pre call (Rejected e) post (Thrown e) Heq Hcls eq_refl).
Qed.

Lemma registration_stops_at_first_failure_witness :
  let run :=
    defineNextSigningPolicy (Demo.contracts {["0xG2"]}) Demo.web3 Demo.rt
      Demo.noSkips 0 Demo.governance [Demo.V1; Demo.V2; Demo.V3]
      Demo.world0 in
  List.filter isRegisterVoter (calls (traceOf run))
    = [registrationRequest Demo.web3 2 Demo.V1;
       registrationRequest Demo.web3 2 Demo.V2]
  /\ resultOf run = Thrown "revert 0xG2".
Proof.
  intros run. split; [reflexivity|].
  refine (proj1 (proj2 (proj2 (proj2
            (registration_stops_at_first_failure (Demo.contracts {["0xG2"]}) Demo.web3
               Demo.rt Demo.noSkips 0 Demo.governance 2
               [Demo.V1; Demo.V2; Demo.V3] Demo.world0)))
            (removelast (exchanges (traceOf run)))
            (registrationRequest Demo.web3 2 Demo.V2) "revert 0xG2" [] _ _));
    reflexivity.
Defined.

(** ** The voting-round driver *)

Section VotingRoundFacts.
Context {Chain : Type}.
Variable c : @DeployedContracts Chain.
Variable web3 : @Web3 Chain.
Variable rt : @Runtime Chain.
Variable epochSettings : EpochSettings.
Implicit Types (w : @World Chain) (accs : list RegisteredAccount).

(** The guard of line 584 is false, and the loop is not entered, whenever
    the round is not below the latest initialized one. *)
Lemma awaitInitialization_ready fuel votingRoundId w :
  initializedVotingRound (events w) <= votingRoundId ->
  awaitInitialization rt fuel votingRoundId w = (Ok tt, w, []).
Proof.
  intros H. destruct fuel; cbn [awaitInitialization]; rewrite run_getWorld;
    by rewrite (proj2 (Z.ltb_ge _ _) H).
Qed.

(** The loop is entered for a round below the latest initialized one, and
    is then never left. *)
Lemma awaitInitialization_blocked fuel votingRoundId w :
  sleepKeepsInitialized rt ->
  votingRoundId < initializedVotingRound (events w) ->
  resultOf (awaitInitialization rt fuel votingRoundId w) = Pending.
Proof.
  intros Hkeep. revert w. induction fuel as [|fuel IH]; intros w Hlt;
    cbn [awaitInitialization]; rewrite run_getWorld;
    rewrite (proj2 (Z.ltb_lt _ _) Hlt); [done|].
  rewrite run_logInfo, run_sleep. cbn. apply IH.
  pose proof (Hkeep 500 w). lia.
Qed.

Lemma awaitInitialization_trace fuel votingRoundId w :
  Forall (λ e, isWaitEffect e = true) (traceOf (awaitInitialization rt fuel votingRoundId w))
  /\ (resultOf (awaitInitialization rt fuel votingRoundId w) = Ok tt
      \/ resultOf (awaitInitialization rt fuel votingRoundId w) = Pending).
Proof.
  revert w. induction fuel as [|fuel IH]; intros w;
    cbn [awaitInitialization]; rewrite run_getWorld;
    destruct (votingRoundId <? initializedVotingRound (events w));
    try (split; [constructor| auto]).
  rewrite run_logInfo, run_sleep. cbn.
  destruct (IH (setTimeout_resolve rt 500 w)) as [H1 H2]. split; [|exact H2].
  by repeat constructor.
Qed.

(** A submission loop over awaited calls: every participant is called, a
    rejection is logged and the loop goes on; it always completes. *)
Lemma forEachTry_shape (request : RegisteredAccount -> Call)
    (send : RegisteredAccount -> @World Chain -> Outcome unit * @World Chain) accs w :
  exists answers w',
    length answers = length accs
    /\ Forall (λ a, a = Done \/ exists e, a = Rejected e) answers
    /\ forEachTry (λ acc, await (request acc) (λ _, Done) (send acc)) accs w
         = (Ok tt, w', phase request accs answers).
Proof.
  revert w. induction accs as [|acc rest IH]; intros w.
  { exists [], w. by repeat split. }
  cbn [forEachTry]. rewrite run_bind. unfold try_catch at 1, await at 1.
  destruct (send acc w) as [[[]|e] w1]; cbn.
  - destruct (IH w1) as (answers & w' & Hlen & Hall & ->).
    exists (Done :: answers), w'. repeat split; [simpl; by rewrite Hlen|constructor; auto].
  - destruct (IH w1) as (answers & w' & Hlen & Hall & ->).
    exists (Rejected e :: answers), w'.
    repeat split; [simpl; by rewrite Hlen|constructor; eauto].
Qed.

Lemma fakeFinalize_trace accs now w :
  Forall (λ e, isFinalizeEffect e = true)
    (traceOf (fakeFinalize c web3 rt epochSettings accs now w))
  /\ (resultOf (fakeFinalize c web3 rt epochSettings accs now w) = Ok tt
      \/ signingPolicies w !! rewardEpochForTime epochSettings now = None
         /\ fakeFinalize c web3 rt epochSettings accs now w
              = (Thrown "TypeError: Cannot read properties of undefined (reading 'voters')",
                 w, [])).
Proof.
  unfold fakeFinalize. rewrite run_getWorld.
  destruct (signingPolicies w !! rewardEpochForTime epochSettings now) as [policy|];
    [|split; [constructor|by right]].
  rewrite run_emit.
  destruct (privateKeysInOrder_logged (voters policy) accs) as [_ Hlogged].
  unfold try_catch. destruct accs as [|acc0 rest].
  - cbn. split; [|by left]. apply Forall_app. split; [done|]. by repeat constructor.
  - rewrite run_bind. unfold await.
    destruct (eth_sendTransaction web3 _ _ _ w) as [[[]|e] w1]; cbn;
      (split; [|by left]); (apply Forall_app; split; [done|]); by repeat constructor.
Qed.

Lemma forEachTry_submit1 accs w :
  exists answers w',
    length answers = length accs
    /\ forEachTry (submit1 c) accs w = (Ok tt, w', phase commitRequest accs answers).
Proof.
  destruct (forEachTry_shape commitRequest
              (λ acc, submission_submit1 c (address (submit acc))) accs w)
    as (answers & w' & Hlen & _ & E).
  by exists answers, w'.
Qed.

Lemma forEachTry_submit2 accs w :
  exists answers w',
    length answers = length accs
    /\ forEachTry (submit2 c) accs w = (Ok tt, w', phase revealRequest accs answers).
Proof.
  destruct (forEachTry_shape revealRequest
              (λ acc, submission_submit2 c (address (submit acc))) accs w)
    as (answers & w' & Hlen & _ & E).
  by exists answers, w'.
Qed.

Lemma forEachTry_submitSignatures accs w :
  exists answers w',
    length answers = length accs
    /\ forEachTry (submitSignatures_ c) accs w
         = (Ok tt, w', phase signatureRequest accs answers).
Proof.
  destruct (forEachTry_shape signatureRequest
              (λ acc, submission_submitSignatures c (address (submitSignatures acc))) accs w)
    as (answers & w' & Hlen & _ & E).
  by exists answers, w'.
Qed.

Lemma not_started_wait now t :
  Forall (λ e, isWaitEffect e = true) t -> ~ started epochSettings now t.
Proof.
  intros Hall [root Hin]. rewrite Forall_forall in Hall.
  by specialize (Hall _ Hin).
Qed.

(** The end of a round (lines 626-627) from the world [w] on. *)
Lemma runVotingRound_end accs skipFinalisation now w body :
  let vr := votingEpochForTime epochSettings now in
  let rest :=
    ((if negb skipFinalisation
      then fakeFinalize c web3 rt epochSettings accs now else ret tt) ;;
     logInfo "voting" ("Voting round " +:+ pretty vr +:+ " finished")) w in
  (resultOf rest, worldOf rest, body ++ traceOf rest)
  = if skipFinalisation then
      (Ok tt, w,
       body ++ [Logged "voting" LInfo ("Voting round " +:+ pretty vr +:+ " finished")])
    else finishRound vr body (fakeFinalize c web3 rt epochSettings accs now w).
Proof.
  intros vr rest. subst rest. destruct skipFinalisation; cbn [negb].
  - by rewrite run_ret.
  - rewrite run_bind. unfold finishRound.
    by destruct (fakeFinalize c web3 rt epochSettings accs now w) as [[[[]|e|] wf] tf].
Qed.

Lemma runVotingRound_cases fuel skipSubmit accs skipFinalisation now w :
  Forall (λ e, isAbortEffect e = true)
      (traceOf (runVotingRound c web3 rt epochSettings fuel skipSubmit accs
                  skipFinalisation now w))
    /\ resultOf (runVotingRound c web3 rt epochSettings fuel skipSubmit accs
                   skipFinalisation now w) <> Ok tt
  \/ exists t0 commits reveals signatures ms1 ms2 w1,
    Forall (λ e, isStartEffect e = true) t0
    /\ length commits = length accs /\ length reveals = length accs
    /\ length signatures = length accs
    /\ runVotingRound c web3 rt epochSettings fuel skipSubmit accs skipFinalisation now w
       = if skipFinalisation then
           (Ok tt, w1,
            roundBody skipSubmit accs t0 commits reveals signatures ms1 ms2
              ++ [Logged "voting" LInfo
                    ("Voting round " +:+ pretty (votingEpochForTime epochSettings now)
                       +:+ " finished")])
         else
           finishRound (votingEpochForTime epochSettings now)
             (roundBody skipSubmit accs t0 commits reveals signatures ms1 ms2)
             (fakeFinalize c web3 rt epochSettings accs now w1).
Proof.
  unfold runVotingRound.
  set (vr := votingEpochForTime epochSettings now).
  destruct (awaitInitialization_trace fuel vr w) as [Hwait Hres].
  destruct (awaitInitialization rt fuel vr w) as [[r0 w0] t0] eqn:E0.
  unfold resultOf, traceOf in Hwait, Hres; simpl in Hwait, Hres.
  assert (Forall (λ e, isAbortEffect e = true) t0) as Habort.
  { eapply Forall_impl; [exact Hwait|]. intros e He. unfold isAbortEffect. by rewrite He. }
  destruct Hres as [-> | ->].
  2:{ left. rewrite (run_bind_pending _ _ _ _ _ E0). by split. }
  rewrite (run_bind_ok _ _ _ _ _ _ E0), run_logInfo, run_await.
  destruct (relay_getConfirmedMerkleRoot c FTSO_PROTOCOL_ID (vr - 2) w0) as [[root|e] w1].
  2:{ left. cbn [resultOf worldOf traceOf fst snd]. split; [|done].
      apply Forall_app. split; [exact Habort|]. by repeat constructor. }
  right. rewrite run_logInfo. cbn [resultOf worldOf traceOf fst snd].
  set (start := t0 ++
    [Logged "voting" LInfo
       ("Running voting protocol for round " +:+ pretty vr +:+ ", reward epoch: "
          +:+ pretty (rewardEpochForTime epochSettings now));
     Called (GetConfirmedMerkleRoot FTSO_PROTOCOL_ID (vr - 2)) (Str root);
     Logged "voting" LInfo
       ("Confirmed merkle root in the last round " +:+ pretty (vr - 2) +:+ ": " +:+ root)]).
  assert (Forall (λ e, isStartEffect e = true) start) as Hstart.
  { apply Forall_app. split; [|by repeat constructor].
    eapply Forall_impl; [exact Hwait|]. intros [[] []|lg [] msg]; simpl; congruence. }
  destruct skipSubmit; cbn [negb].
  - rewrite run_ret, run_Date_now, run_sleep. cbn [resultOf worldOf traceOf fst snd].
    rewrite run_ret.
    eexists start, (replicate (length accs) Done), (replicate (length accs) Done),
      (replicate (length accs) Done), 0, _, _.
    split; [exact Hstart|]. rewrite !length_replicate. repeat (split; [done|]).
    etransitivity; [|apply runVotingRound_end]. cbn zeta. fold vr. f_equal.
    unfold roundBody, start. by rewrite <- !app_assoc.
  - destruct (forEachTry_submit1 accs w1) as (a1 & w2 & Hl1 & E1).
    rewrite run_bind_assoc, (run_bind_ok _ _ _ _ _ _ E1).
    rewrite run_bind_assoc, run_Date_now, run_bind_assoc, run_sleep.
    cbn [resultOf worldOf traceOf fst snd].
    match goal with |- context [(forEachTry (submit2 c) accs ≫= _) ?w] =>
      destruct (forEachTry_submit2 accs w) as (a2 & w3 & Hl2 & E2) end.
    rewrite (run_bind_ok _ _ _ _ _ _ E2).
    rewrite run_Date_now, run_sleep. cbn [resultOf worldOf traceOf fst snd].
    match goal with |- context [(forEachTry (submitSignatures_ c) accs ≫= _) ?w] =>
      destruct (forEachTry_submitSignatures accs w) as (a3 & w4 & Hl3 & E3) end.
    rewrite (run_bind_ok _ _ _ _ _ _ E3). cbn [resultOf worldOf traceOf fst snd].
    eexists start, a1, a2, a3, _, _, _.
    split; [exact Hstart|]. repeat (split; [done|]).
    etransitivity; [|apply runVotingRound_end]. cbn zeta. fold vr. f_equal.
    unfold roundBody, start. rewrite <- !app_assoc. reflexivity.
Qed.

(** A round gets past its start, for any fuel, when it is not below the
    latest initialized round and the read of the merkle root resolves. *)
Lemma runVotingRound_started fuel skipSubmit accs skipFinalisation now w root w1 :
  initializedVotingRound (events w) <= votingEpochForTime epochSettings now ->
  relay_getConfirmedMerkleRoot c FTSO_PROTOCOL_ID (votingEpochForTime epochSettings now - 2) w
    = (Returned root, w1) ->
  started epochSettings now
    (traceOf (runVotingRound c web3 rt epochSettings fuel skipSubmit accs skipFinalisation
                now w)).
Proof.
  intros Hready Hroot. exists root. unfold runVotingRound.
  rewrite (run_bind_ok _ _ _ _ _ _ (awaitInitialization_ready fuel _ w Hready)).
  rewrite run_logInfo, run_await, Hroot. cbn [resultOf worldOf traceOf fst snd app].
  apply list_elem_of_In. right; left. reflexivity.
Qed.

End VotingRoundFacts.

(** ** Reading the trace of a round *)

Section RoundTraces.
Context {Chain : Type}.
Implicit Types (t : list Effect) (accs : list RegisteredAccount).

Lemma submissions_app t1 t2 : submissions (t1 ++ t2) = submissions t1 ++ submissions t2.
Proof. unfold submissions. by rewrite calls_app, List.filter_app. Qed.

Lemma submissions_quiet t : quietFor isSubmission t -> submissions t = [].
Proof. apply quietFor_filter. Qed.

Lemma abort_effects t :
  Forall (λ e, isAbortEffect e = true) t ->
  quietFor isSubmission t /\ Forall (λ e, isFinalizeEffect e = false) t
  /\ forall epochSettings now, ~ started epochSettings now t.
Proof.
  intros H. split; [|split].
  - eapply Forall_impl; [exact H|]. by intros [[] []|lg [] msg].
  - eapply Forall_impl; [exact H|]. intros [[] []|lg [] msg]; try done.
    simpl. unfold isAbortEffect. simpl. rewrite orb_false_r.
    intros Hv. apply String.eqb_eq in Hv. by subst lg.
  - intros es now [root Hin]. rewrite Forall_forall in H. by specialize (H _ Hin).
Qed.

Lemma start_effects t :
  Forall (λ e, isStartEffect e = true) t ->
  quietFor isSubmission t /\ Forall (λ e, isFinalizeEffect e = false) t.
Proof.
  intros H. split.
  - eapply Forall_impl; [exact H|]. by intros [[] []|lg [] msg].
  - eapply Forall_impl; [exact H|]. intros [[] []|lg [] msg]; try done.
    simpl. intros Hv. apply String.eqb_eq in Hv. by subst lg.
Qed.

Lemma finalize_effects t :
  Forall (λ e, isFinalizeEffect e = true) t -> quietFor isSubmission t.
Proof. intros H. eapply Forall_impl; [exact H|]. by intros [[] a|lg lv msg]. Qed.

Lemma failuresLogged_quiet t : quietFor isSubmission t -> failuresLogged t = true.
Proof.
  induction 1 as [|x t Hx Ht IH]; [done|].
  destruct x as [call [] |lg lv msg]; simpl in *; try done. by rewrite Hx.
Qed.

Lemma failuresLogged_app t1 t2 :
  failuresLogged t1 = true -> failuresLogged t2 = true -> failuresLogged (t1 ++ t2) = true.
Proof.
  intros H1 H2. induction t1 as [|x t1 IH]; [done|].
  destruct x as [call [e| | | | |] |lg lv msg]; simpl in *; try by apply IH.
  destruct (isSubmission call); [|by apply IH].
  destruct t1 as [|[call' a'|lg [] msg] t1]; try done.
  apply andb_true_iff in H1 as [Hhead Hrest].
  change ((Logged lg LError msg :: t1) ++ t2) with (Logged lg LError msg :: (t1 ++ t2)).
  cbv iota beta. rewrite Hhead.
  change (Logged lg LError msg :: (t1 ++ t2)) with ((Logged lg LError msg :: t1) ++ t2).
  by rewrite (IH Hrest).
Qed.

Lemma phase_cons request acc accs a answers :
  phase request (acc :: accs) (a :: answers)
    = attempt (request acc) a ++ phase request accs answers.
Proof. reflexivity. Qed.

Lemma phase_facts request accs answers :
  (forall acc, isSubmission (request acc) = true) ->
  length answers = length accs ->
  submissions (phase request accs answers) = map request accs
  /\ failuresLogged (phase request accs answers) = true
  /\ Forall (λ e, isFinalizeEffect e = false) (phase request accs answers).
Proof.
  intros Hreq. revert answers. induction accs as [|acc accs IH]; intros answers Hlen.
  { by destruct answers. }
  destruct answers as [|a answers]; [done|]. injection Hlen as Hlen.
  destruct (IH answers Hlen) as (Hs & Hl & Hf). rewrite phase_cons.
  split; [|split].
  - rewrite submissions_app, Hs.
    destruct a; unfold submissions; simpl; by rewrite Hreq.
  - apply failuresLogged_app; [|done].
    destruct a; simpl; rewrite ?Hreq, ?String.eqb_refl; done.
  - apply Forall_app. split; [|done].
    pose proof (Hreq acc) as Hc.
    destruct a; simpl; repeat constructor; simpl;
      by destruct (request acc).
Qed.

Lemma finishRound_facts votingRoundId body (run : Result unit * @World Chain * list Effect) :
  exists tail,
    quietFor isSubmission tail
    /\ Forall (λ e, isFinalizeEffect e = false) tail
    /\ traceOf (finishRound votingRoundId body run) = body ++ traceOf run ++ tail
    /\ resultOf (finishRound votingRoundId body run) = resultOf run.
Proof.
  destruct run as [[[[]|e|] w] t]; simpl.
  - eexists [_]. repeat split; by repeat constructor.
  - exists []. rewrite app_nil_r. repeat split; constructor.
  - exists []. rewrite app_nil_r. repeat split; constructor.
Qed.

End RoundTraces.

(** ** The claims on the voting-round driver *)

Section RoundClaims.
Context {Chain : Type}.
Variable c : @DeployedContracts Chain.
Variable web3 : @Web3 Chain.
Variable rt : @Runtime Chain.
Variable epochSettings : EpochSettings.
Implicit Types (w : @World Chain) (accs : list RegisteredAccount).

Lemma roundBody_submit accs t0 commits reveals signatures ms1 ms2 :
  Forall (λ e, isStartEffect e = true) t0 ->
  length commits = length accs -> length reveals = length accs ->
  length signatures = length accs ->
  submissions (roundBody false accs t0 commits reveals signatures ms1 ms2)
    = map commitRequest accs ++ map revealRequest accs ++ map signatureRequest accs
  /\ failuresLogged (roundBody false accs t0 commits reveals signatures ms1 ms2) = true.
Proof.
  intros Hstart H1 H2 H3. destruct (start_effects t0 Hstart) as [Hq _].
  destruct (phase_facts commitRequest accs commits (λ _, eq_refl) H1) as (S1 & L1 & _).
  destruct (phase_facts revealRequest accs reveals (λ _, eq_refl) H2) as (S2 & L2 & _).
  destruct (phase_facts signatureRequest accs signatures (λ _, eq_refl) H3) as (S3 & L3 & _).
  unfold roundBody. split.
  - rewrite !submissions_app, S1, S2, S3, (submissions_quiet _ Hq). done.
  - repeat apply failuresLogged_app; try done. by apply failuresLogged_quiet.
Qed.

Lemma roundBody_skip accs t0 commits reveals signatures ms1 ms2 :
  Forall (λ e, isStartEffect e = true) t0 ->
  quietFor isSubmission (roundBody true accs t0 commits reveals signatures ms1 ms2)
  /\ Forall (λ e, isFinalizeEffect e = false)
       (roundBody true accs t0 commits reveals signatures ms1 ms2).
Proof.
  intros Hstart. destruct (start_effects t0 Hstart) as [Hq Hf]. unfold roundBody. split.
  - apply quietFor_app; [done|]. by repeat constructor.
  - apply Forall_app. split; [done|]. by repeat constructor.
Qed.

End RoundClaims.

(** C8: in a round that got past its start with [skipSubmit = false], the
    driver calls submit1 for every participant, sleeps, calls submit2 for every
    participant, sleeps, calls submitSignatures for every participant, whatever
    the answers: a rejected call is followed at once by its error line on the
    "voting" logger and the loop goes on with the next participant; then comes
    the finalization (unless skipped) and the final log line.  No rejected
    submission makes the driver throw: it returns, or throws what
    [fakeFinalize] throws for a missing signing policy. *)
Theorem submission_failures_do_not_stop_the_round {Chain : Type}
    (c : @DeployedContracts Chain) (web3 : @Web3 Chain) (rt : @Runtime Chain)
    (epochSettings : EpochSettings) (fuel : nat) (registeredAccounts : list RegisteredAccount)
    (skipFinalisation : bool) (now : Z) (w : @World Chain) :
  let votingRoundId := votingEpochForTime epochSettings now in
  let run :=
    runVotingRound c web3 rt epochSettings fuel false registeredAccounts skipFinalisation
      now w in
  started epochSettings now (traceOf run) ->
  (exists t0 commits reveals signatures ms1 ms2 w1,
     Forall (λ e, isStartEffect e = true) t0
     /\ length commits = length registeredAccounts
     /\ length reveals = length registeredAccounts
     /\ length signatures = length registeredAccounts
     /\ run
        = if skipFinalisation then
            (Ok tt, w1,
             roundBody false registeredAccounts t0 commits reveals signatures ms1 ms2
               ++ [Logged "voting" LInfo
                     ("Voting round " +:+ pretty votingRoundId +:+ " finished")])
          else
            finishRound votingRoundId
              (roundBody false registeredAccounts t0 commits reveals signatures ms1 ms2)
              (fakeFinalize c web3 rt epochSettings registeredAccounts now w1))
  /\ submissions (traceOf run)
     = map commitRequest registeredAccounts ++ map revealRequest registeredAccounts
         ++ map signatureRequest registeredAccounts
  /\ failuresLogged (traceOf run) = true
  /\ (resultOf run = Ok tt
      \/ skipFinalisation = false
         /\ resultOf run
            = Thrown "TypeError: Cannot read properties of undefined (reading 'voters')").
Proof.
  intros votingRoundId run Hstarted.
  destruct (runVotingRound_cases c web3 rt epochSettings fuel false registeredAccounts
              skipFinalisation now w)
    as [[Habort _]|(t0 & a1 & a2 & a3 & ms1 & ms2 & w1 & Hstart & H1 & H2 & H3 & Heq)].
  { by destruct (proj2 (proj2 (abort_effects _ Habort)) epochSettings now). }
  fold votingRoundId run in Heq.
  split; [by exists t0, a1, a2, a3, ms1, ms2, w1|].
  destruct (roundBody_submit registeredAccounts t0 a1 a2 a3 ms1 ms2 Hstart H1 H2 H3)
    as [Hsub Hlog].
  rewrite Heq. destruct skipFinalisation.
  - unfold traceOf, resultOf; cbn [fst snd]. split; [|split; [|by left]].
    + rewrite submissions_app, Hsub. unfold submissions; simpl. by rewrite !app_nil_r.
    + by apply failuresLogged_app.
  - destruct (finishRound_facts votingRoundId
                (roundBody false registeredAccounts t0 a1 a2 a3 ms1 ms2)
                (fakeFinalize c web3 rt epochSettings registeredAccounts now w1))
      as (tail & Htq & _ & -> & ->).
    destruct (fakeFinalize_trace c web3 rt epochSettings registeredAccounts now w1)
      as [Hfin Hres].
    pose proof (finalize_effects _ Hfin) as Hfq.
    split; [|split].
    + rewrite !submissions_app, Hsub, (submissions_quiet _ Hfq), (submissions_quiet _ Htq).
      by rewrite !app_nil_r.
    + apply failuresLogged_app; [exact Hlog|].
      apply failuresLogged_app; by apply failuresLogged_quiet.
    + destruct Hres as [Hok|[_ Hthrown]]; [by left|right]. by rewrite Hthrown.
Qed.

Lemma submission_failures_do_not_stop_the_round_witness :
  let run :=
    runVotingRound (Demo.contracts {["0xS1"]}) Demo.web3 Demo.rt
      Demo.epochSettings 0 false [Demo.V1; Demo.V2] false
      (clock Demo.world0) Demo.world0 in
  started Demo.epochSettings (clock Demo.world0) (traceOf run)
  /\ Called (Submit1 "0xS1") (Rejected "revert 0xS1") ∈ traceOf run
  /\ submissions (traceOf run)
     = [Submit1 "0xS1"; Submit1 "0xS2"; Submit2 "0xS1"; Submit2 "0xS2";
        SubmitSignatures "0xG1"; SubmitSignatures "0xG2"]
  /\ failuresLogged (traceOf run) = true.
Proof.
  intros run.
  assert (started Demo.epochSettings (clock Demo.world0) (traceOf run)) as Hstarted.
  { exists "0xroot". apply list_elem_of_In. vm_compute. right; left. reflexivity. }
  split; [exact Hstarted|]. split.
  { apply list_elem_of_In. vm_compute. do 3 right. left. reflexivity. }
  destruct (submission_failures_do_not_stop_the_round (Demo.contracts {["0xS1"]})
              Demo.web3 Demo.rt Demo.epochSettings 0 [Demo.V1; Demo.V2] false
              (clock Demo.world0) Demo.world0 Hstarted) as (_ & Hsub & Hlog & _).
  split; [exact Hsub|exact Hlog].
Defined.

(** C9: with [skipSubmit = true] a round makes no submit1, submit2 or
    submitSignatures call for any participant; once past its start it sleeps
    until the signature deadline and then runs [fakeFinalize] (its result and
    trace are part of the round's) unless [skipFinalisation] is set, in which
    case nothing of the finalization happens. *)
Theorem skipSubmit_skips_submissions_only {Chain : Type}
    (c : @DeployedContracts Chain) (web3 : @Web3 Chain) (rt : @Runtime Chain)
    (epochSettings : EpochSettings) (fuel : nat) (registeredAccounts : list RegisteredAccount)
    (skipFinalisation : bool) (now : Z) (w : @World Chain) :
  let votingRoundId := votingEpochForTime epochSettings now in
  let run :=
    runVotingRound c web3 rt epochSettings fuel true registeredAccounts skipFinalisation
      now w in
  submissions (traceOf run) = []
  /\ (started epochSettings now (traceOf run) ->
      exists t0 ms w1,
        Forall (λ e, isStartEffect e = true) t0
        /\ run
           = if skipFinalisation then
               (Ok tt, w1,
                (t0 ++ [Called (Sleep ms) Done])
                  ++ [Logged "voting" LInfo
                        ("Voting round " +:+ pretty votingRoundId +:+ " finished")])
             else
               finishRound votingRoundId (t0 ++ [Called (Sleep ms) Done])
                 (fakeFinalize c web3 rt epochSettings registeredAccounts now w1))
  /\ (skipFinalisation = true -> Forall (λ e, isFinalizeEffect e = false) (traceOf run)).
Proof.
  intros votingRoundId run.
  destruct (runVotingRound_cases c web3 rt epochSettings fuel true registeredAccounts
              skipFinalisation now w)
    as [[Habort _]|(t0 & a1 & a2 & a3 & ms1 & ms2 & w1 & Hstart & H1 & H2 & H3 & Heq)].
  { fold run in Habort. destruct (abort_effects _ Habort) as (Hq & Hf & Hns).
    split; [by apply submissions_quiet|]. split; [|done].
    intros Hs. by destruct (Hns epochSettings now). }
  fold votingRoundId run in Heq.
  destruct (roundBody_skip registeredAccounts t0 a1 a2 a3 ms1 ms2 Hstart) as [Hq Hf].
  split; [|split].
  - rewrite Heq. destruct skipFinalisation.
    + unfold traceOf; cbn [fst snd]. by rewrite submissions_app, (submissions_quiet _ Hq).
    + destruct (finishRound_facts votingRoundId
                  (roundBody true registeredAccounts t0 a1 a2 a3 ms1 ms2)
                  (fakeFinalize c web3 rt epochSettings registeredAccounts now w1))
        as (tail & Htq & _ & -> & _).
      destruct (fakeFinalize_trace c web3 rt epochSettings registeredAccounts now w1)
        as [Hfin _].
      rewrite !submissions_app, (submissions_quiet _ Hq),
        (submissions_quiet _ (finalize_effects _ Hfin)), (submissions_quiet _ Htq). done.
  - intros _. by exists t0, ms2, w1.
  - intros ->. rewrite Heq. unfold traceOf; cbn [fst snd].
    apply Forall_app. split; [done|]. by repeat constructor.
Qed.

Lemma skipSubmit_skips_submissions_only_witness :
  let run :=
    runVotingRound (Demo.contracts ∅) Demo.web3 Demo.rt Demo.epochSettings 0 true
      [Demo.V1; Demo.V2] false (clock Demo.world0) Demo.world0 in
  started Demo.epochSettings (clock Demo.world0) (traceOf run)
  /\ submissions (traceOf run) = []
  /\ List.filter isFinalizeEffect (traceOf run)
     = traceOf (fakeFinalize (Demo.contracts ∅) Demo.web3 Demo.rt
                  Demo.epochSettings [Demo.V1; Demo.V2] (clock Demo.world0)
                  (Demo.tick 10000 Demo.world0)).
Proof.
  intros run.
  split.
  { exists "0xroot". apply list_elem_of_In. vm_compute. right; left. reflexivity. }
  split; [|reflexivity].
  exact (proj1 (skipSubmit_skips_submissions_only (Demo.contracts ∅) Demo.web3
                  Demo.rt Demo.epochSettings 0 [Demo.V1; Demo.V2] false
                  (clock Demo.world0) Demo.world0)).
Defined.

(** C1 does not hold of the code: the guard of the wait loop (line 584) is
    [votingRoundId < events.initializedVotingRound].  In round 1001, with
    round 1000 the latest one initialized, the driver does not wait and goes
    straight to the submissions, for every fuel (also none); and for round
    999, which is initialized, it never leaves the loop. *)
Theorem awaitInitialization_guard_is_inverted (fuel : nat) :
  initializedVotingRound (events Demo.world0) = 1000
  /\ votingEpochForTime Demo.epochSettings (clock Demo.world0) = 1001
  /\ awaitInitialization Demo.rt fuel 1001 Demo.world0 = (Ok tt, Demo.world0, [])
  /\ calls (traceOf
       (runVotingRound (Demo.contracts ∅) Demo.web3 Demo.rt Demo.epochSettings 0
          false [Demo.V1] true (clock Demo.world0) Demo.world0))
     = [GetConfirmedMerkleRoot 100 999; Submit1 "0xS1"; Sleep 19000; Submit2 "0xS1";
        Sleep 10000; SubmitSignatures "0xG1"]
  /\ resultOf (awaitInitialization Demo.rt fuel 999 Demo.world0) = Pending.
Proof.
  split; [reflexivity|]. split; [reflexivity|]. split.
  { apply awaitInitialization_ready. simpl. lia. }
  split; [reflexivity|].
  apply awaitInitialization_blocked; [|simpl; lia].
  intros ms w. simpl. lia.
Qed.

(** * Properties of the rest of the simulation *)

(** ** The environment variables *)

Lemma lower_ascii_idem ch : lower_ascii (lower_ascii ch) = lower_ascii ch.
Proof. by destruct ch as [[] [] [] [] [] [] [] []]. Qed.

Lemma toLowerCase_idem s : toLowerCase (toLowerCase s) = toLowerCase s.
Proof. induction s as [|ch s IH]; simpl; [done|]. by rewrite lower_ascii_idem, IH. Qed.

Lemma isHexDigit_lower ch : isHexDigit ch = true -> isHexDigit (lower_ascii ch) = true.
Proof. by destruct ch as [[] [] [] [] [] [] [] []]. Qed.

Lemma toLowerCase_length s : String.length (toLowerCase s) = String.length s.
Proof. induction s as [|ch s IH]; simpl; [done|]. by rewrite IH. Qed.

Lemma forallb_hex_lower s :
  forallb isHexDigit (String.list_ascii_of_string s) = true ->
  forallb isHexDigit (String.list_ascii_of_string (toLowerCase s)) = true.
Proof.
  induction s as [|ch s IH]; simpl; [done|].
  intros H. apply andb_true_iff in H as [H1 H2].
  by rewrite (isHexDigit_lower _ H1), (IH H2).
Qed.

Lemma matchesAddress_normal s :
  matchesAddress s = true -> isNormalAddress (toLowerCase s) = true.
Proof.
  destruct s as [|c0 [|c1 digits]]; try done. unfold isNormalAddress. simpl.
  intros H. apply andb_true_iff in H as [H Hhex]. apply andb_true_iff in H as [H Hlen].
  apply andb_true_iff in H as [H0 H1].
  apply Ascii.eqb_eq in H0, H1. subst c0. rewrite H1. simpl.
  rewrite toLowerCase_length, Hlen, (forallb_hex_lower _ Hhex), toLowerCase_idem.
  rewrite String.eqb_refl. by destruct (toLowerCase digits).
Qed.

Lemma parseAddressSet_fold (items : list string) (set : gset string) a :
  a ∈ foldl
        (fun (set : gset string) x =>
           if matchesAddress (trim x) then {[ toLowerCase (trim x) ]} ∪ set else set)
        set items
  <-> a ∈ set
      \/ exists item, item ∈ items /\ matchesAddress (trim item) = true
                      /\ toLowerCase (trim item) = a.
Proof.
  revert set. induction items as [|x items IH]; intros set; simpl.
  - split; [by left|]. intros [H|(item & Hin & _)]; [done|]. by apply elem_of_nil in Hin.
  - rewrite IH. split.
    + intros [H|(item & Hin & Hm & Heq)].
      * destruct (matchesAddress (trim x)) eqn:E; [|by left].
        apply elem_of_union in H as [H|H]; [|by left].
        apply elem_of_singleton in H. right. exists x. split; [by left|done].
      * right. exists item. split; [by right|done].
    + intros [H|(item & Hin & Hm & Heq)].
      * left. destruct (matchesAddress (trim x)); [|done]. apply elem_of_union. by right.
      * apply elem_of_cons in Hin as [->|Hin].
        -- left. rewrite Hm. apply elem_of_union. left. by apply elem_of_singleton.
        -- right. by exists item.
Qed.

Lemma parseAddressSet_spec value a :
  a ∈ parseAddressSet value
  <-> exists item, item ∈ itemsOf value /\ matchesAddress (trim item) = true
                   /\ toLowerCase (trim item) = a.
Proof.
  unfold parseAddressSet, itemsOf. destruct (isSet value) eqn:E.
  - rewrite parseAddressSet_fold. split; [|by right].
    intros [H|H]; [|done]. by apply elem_of_empty in H.
  - split; [intros H; by apply elem_of_empty in H|].
    intros (item & Hin & Hm & _). exfalso.
    destruct value as [[|ch s]|]; try done; simpl in Hin;
      apply list_elem_of_In in Hin; destruct Hin as [<-|[]]; done.
Qed.


(** X2: the skip-sets hold normalised addresses only: every member is [0x]
    followed by forty hexadecimal digits and has no upper-case letter, also
    when the variable spells it [0X...] or in upper case. *)
Theorem processEnv_sets_are_normalised (env : ProcessEnv) (a : string) :
  (a ∈ SKIP_VOTER_REGISTRATION_SET (processEnv env).1 -> isNormalAddress a = true)
  /\ (a ∈ SKIP_SIGNING_POLICY_SIGNING_SET (processEnv env).1 -> isNormalAddress a = true).
Proof.
  simpl. split; intros H; apply parseAddressSet_spec in H as (item & _ & Hm & <-);
    by apply matchesAddress_normal.
Qed.

(** ** The wait loops *)

Section Polling.
Context {Chain : Type}.
Variable rt : @Runtime Chain.
Implicit Types w : @World Chain.

Lemma afterSleeps_S k w :
  afterSleeps rt (S k) w = afterSleeps rt k (setTimeout_resolve rt 500 w).
Proof. unfold afterSleeps. by rewrite Nat.iter_succ_r. Qed.

Lemma awaitEvent_turn fuel rewardEpoch name body tb w :
  onlyLogs body tb ->
  seesEvent rewardEpoch name w = false ->
  awaitEvent rt (S fuel) rewardEpoch name body w
  = let next := awaitEvent rt fuel rewardEpoch name body (setTimeout_resolve rt 500 w) in
    (resultOf next, worldOf next, (tb ++ [Called (Sleep 500) Done]) ++ traceOf next).
Proof.
  intros Hb Hno. cbn [awaitEvent]. rewrite run_getWorld. unfold seesEvent in Hno.
  rewrite Hno. rewrite (run_bind_ok _ _ _ _ _ _ (Hb w)), run_sleep.
  cbn [resultOf worldOf traceOf fst snd]. by rewrite <- app_assoc.
Qed.

Lemma awaitEvent_returns fuel k rewardEpoch name body tb w :
  onlyLogs body tb ->
  (k <= fuel)%nat ->
  (forall j, (j < k)%nat -> seesEvent rewardEpoch name (afterSleeps rt j w) = false) ->
  seesEvent rewardEpoch name (afterSleeps rt k w) = true ->
  awaitEvent rt fuel rewardEpoch name body w
  = (Ok tt, afterSleeps rt k w, pollTrace tb k).
Proof.
  intros Hb. revert fuel w. induction k as [|k IH]; intros fuel w Hle Hno Hyes.
  - by apply awaitEvent_present.
  - destruct fuel as [|fuel]; [lia|].
    rewrite (awaitEvent_turn fuel rewardEpoch name body tb w Hb (Hno 0%nat ltac:(lia))).
    cbn zeta.
    rewrite (IH fuel (setTimeout_resolve rt 500 w)); [| lia | |].
    + cbn [resultOf worldOf traceOf fst snd]. by rewrite afterSleeps_S.
    + intros j Hj. rewrite <- afterSleeps_S. apply Hno. lia.
    + by rewrite <- afterSleeps_S.
Qed.

Lemma awaitEvent_pending fuel rewardEpoch name body tb w :
  onlyLogs body tb ->
  (forall j, (j <= fuel)%nat -> seesEvent rewardEpoch name (afterSleeps rt j w) = false) ->
  awaitEvent rt fuel rewardEpoch name body w
  = (Pending, afterSleeps rt fuel w, pollTrace tb fuel).
Proof.
  intros Hb. revert w. induction fuel as [|fuel IH]; intros w Hno.
  - cbn [awaitEvent]. rewrite run_getWorld.
    pose proof (Hno 0%nat ltac:(lia)) as H0. unfold seesEvent in H0. simpl in H0.
    by rewrite H0.
  - rewrite (awaitEvent_turn fuel rewardEpoch name body tb w Hb (Hno 0%nat ltac:(lia))).
    cbn zeta.
    rewrite (IH (setTimeout_resolve rt 500 w)).
    + cbn [resultOf worldOf traceOf fst snd]. by rewrite afterSleeps_S.
    + intros j Hj. rewrite <- afterSleeps_S. apply Hno. lia.
Qed.

End Polling.

(** X3: a wait loop of the signing-policy driver polls the event store once
    before each sleep of 500 ms: when the event is first in the store after
    [k] sleeps, the loop returns, given fuel for [k] sleeps, in the world of
    that poll after exactly [k] turns (body, sleep); while the store does not
    hold the event the loop is still waiting when the fuel runs out. *)
Theorem awaitEvent_returns_at_first_sighting {Chain : Type} (rt : @Runtime Chain)
    (fuel k : nat) (rewardEpoch : Z) (name : string) (body : @M Chain unit)
    (tb : list Effect) (w : @World Chain) :
  onlyLogs body tb ->
  (forall j, (j < k)%nat -> seesEvent rewardEpoch name (afterSleeps rt j w) = false) ->
  (seesEvent rewardEpoch name (afterSleeps rt k w) = true -> (k <= fuel)%nat ->
   awaitEvent rt fuel rewardEpoch name body w = (Ok tt, afterSleeps rt k w, pollTrace tb k))
  /\ ((fuel < k)%nat ->
      awaitEvent rt fuel rewardEpoch name body w
      = (Pending, afterSleeps rt fuel w, pollTrace tb fuel)).
Proof.
  intros Hb Hno. split.
  - intros Hyes Hle. by apply awaitEvent_returns.
  - intros Hlt. apply awaitEvent_pending; [done|]. intros j Hj. apply Hno. lia.
Qed.

Lemma awaitEvent_returns_at_first_sighting_witness :
  awaitEvent Demo2.rt 5 1 "VotePowerBlockSelected" (ret tt) Demo2.emptyWorld
    = (Ok tt, afterSleeps Demo2.rt 2 Demo2.emptyWorld,
       [Called (Sleep 500) Done; Called (Sleep 500) Done])
  /\ resultOf (awaitEvent Demo2.rt 1 1 "VotePowerBlockSelected" (ret tt) Demo2.emptyWorld)
     = Pending.
Proof.
  assert (@onlyLogs Z (ret tt) []) as Hb by done.
  assert (forall j, (j < 2)%nat ->
            seesEvent 1 "VotePowerBlockSelected" (afterSleeps Demo2.rt j Demo2.emptyWorld)
            = false) as Hno.
  { intros j Hj. destruct j as [|[|j]]; [reflexivity|reflexivity|lia]. }
  destruct (awaitEvent_returns_at_first_sighting Demo2.rt 5 2 1 "VotePowerBlockSelected"
              (ret tt) [] Demo2.emptyWorld Hb Hno) as [Hret _].
  destruct (awaitEvent_returns_at_first_sighting Demo2.rt 1 2 1 "VotePowerBlockSelected"
              (ret tt) [] Demo2.emptyWorld Hb Hno) as [_ Hpend].
  split.
  - exact (Hret eq_refl ltac:(lia)).
  - by rewrite (Hpend ltac:(lia)).
Defined.

(** ** Finalization: errors and edges *)

Section FinalizationEdges.
Context {Chain : Type}.
Variable c : @DeployedContracts Chain.
Variable web3 : @Web3 Chain.
Variable rt : @Runtime Chain.
Variable epochSettings : EpochSettings.
Implicit Types (w : @World Chain) (accs : list RegisteredAccount).

Lemma privateKeysInOrder_lines voters accs :
  (privateKeysInOrder voters accs).2
    = map notRegisteredLine (List.filter (λ voter, negb (isLocal accs voter)) voters).
Proof.
  induction voters as [|voter rest IH]; [done|].
  cbn [privateKeysInOrder List.filter].
  rewrite (findAccount_isLocal accs voter).
  destruct (privateKeysInOrder rest accs) as [keys logged]. simpl in IH.
  destruct (findAccount accs voter) as [acc|] eqn:E.
  - rewrite bool_decide_eq_true_2 by eauto. simpl. exact IH.
  - rewrite bool_decide_eq_false_2 by (by intros [? ?]). simpl. by rewrite IH.
Qed.

Lemma last_two {A} (l : list A) (a b : A) : last (l ++ [a; b]) = Some b.
Proof.
  replace (l ++ [a; b]) with ((l ++ [a]) ++ [b]) by (by rewrite <- app_assoc).
  apply last_snoc.
Qed.

Lemma filter_partition_length {A} (f : A -> bool) (l : list A) :
  (length (List.filter f l) + length (List.filter (λ x, negb (f x)) l) = length l)%nat.
Proof. induction l as [|x l IH]; simpl; [done|]. destruct (f x); simpl; lia. Qed.

Lemma fakeFinalize_missing accs now w :
  signingPolicies w !! rewardEpochForTime epochSettings now = None ->
  fakeFinalize c web3 rt epochSettings accs now w
  = (Thrown "TypeError: Cannot read properties of undefined (reading 'voters')", w, []).
Proof. intros H. unfold fakeFinalize. rewrite run_getWorld. by rewrite H. Qed.

Lemma fakeFinalize_present policy accs now w :
  signingPolicies w !! rewardEpochForTime epochSettings now = Some policy ->
  fakeFinalize c web3 rt epochSettings accs now w
  = let lines := (privateKeysInOrder (voters policy) accs).2 in
    match accs with
    | [] =>
        (Ok tt, w,
         lines ++ [Logged "finalize" LError
                     "TypeError: Cannot read properties of undefined (reading 'signingPolicy')"])
    | acc0 :: _ =>
        let data :=
          RELAY_SELECTOR web3 +:+
          slice_from 2
            (RelayMessage_encode rt
               {| rm_signingPolicy := policy;
                  rm_signatures :=
                    finalizationSignatures rt policy accs
                      (ProtocolMessageMerkleRoot_hash rt (messageData web3 epochSettings now));
                  rm_protocolMessageMerkleRoot := messageData web3 epochSettings now |}) in
        let request := SendTransaction (address (signingPolicy acc0)) (relay_address c) data in
        match eth_sendTransaction web3 (address (signingPolicy acc0)) (relay_address c) data w
        with
        | (Returned _, w1) =>
            (Ok tt, w1,
             lines ++ [Called request Done;
                       Logged "finalize" LInfo
                         ("Finalized for voting round "
                            +:+ pretty (votingEpochForTime epochSettings now))])
        | (Failed e, w1) =>
            (Ok tt, w1, lines ++ [Called request (Rejected e); Logged "finalize" LError e])
        end
    end.
Proof.
  intros H. unfold fakeFinalize. rewrite run_getWorld, H, run_emit. cbn zeta.
  unfold try_catch. destruct accs as [|acc0 rest]; [done|].
  rewrite run_bind. unfold await.
  by destruct (eth_sendTransaction web3 _ _ _ w) as [[[]|e] w1].
Qed.

End FinalizationEdges.

(** X4: [fakeFinalize] fails in one case only: it returns normally exactly
    when the map holds a signing policy for the reward epoch of [now], and
    otherwise throws a TypeError before doing anything.  A rejected relay
    transaction is caught: its error is the last thing logged (on the
    "finalize" logger, at error level).  With no local account no transaction
    is sent and the TypeError of [registeredAccounts[0]] is logged the same
    way. *)
Theorem fakeFinalize_fails_only_without_policy {Chain : Type}
    (c : @DeployedContracts Chain) (web3 : @Web3 Chain) (rt : @Runtime Chain)
    (epochSettings : EpochSettings) (registeredAccounts : list RegisteredAccount) (now : Z)
    (w : @World Chain) :
  let run := fakeFinalize c web3 rt epochSettings registeredAccounts now w in
  (resultOf run = Ok tt
   <-> is_Some (signingPolicies w !! rewardEpochForTime epochSettings now))
  /\ (signingPolicies w !! rewardEpochForTime epochSettings now = None ->
      run = (Thrown "TypeError: Cannot read properties of undefined (reading 'voters')",
             w, []))
  /\ (forall call e, (call, Rejected e) ∈ exchanges (traceOf run) ->
      last (traceOf run) = Some (Logged "finalize" LError e))
  /\ (registeredAccounts = [] ->
      calls (traceOf run) = []
      /\ (is_Some (signingPolicies w !! rewardEpochForTime epochSettings now) ->
          last (traceOf run)
          = Some (Logged "finalize" LError
                    "TypeError: Cannot read properties of undefined (reading 'signingPolicy')"))).
Proof.
  intros run. subst run.
  destruct (signingPolicies w !! rewardEpochForTime epochSettings now) as [policy|] eqn:E.
  - rewrite (fakeFinalize_present c web3 rt epochSettings policy _ _ _ E). cbn zeta.
    pose proof (proj1 (privateKeysInOrder_logged (voters policy) registeredAccounts)) as Hq.
    destruct registeredAccounts as [|acc0 rest].
    + unfold resultOf, traceOf; simpl. split; [by split; eauto|]. split; [done|].
      split.
      * intros call e Hin. unfold exchanges in Hin. rewrite omap_app in Hin.
        fold (exchanges (privateKeysInOrder (voters policy) []).2) in Hin.
        rewrite calls_exchanges in Hq. apply (f_equal length) in Hq.
        rewrite length_map in Hq. simpl in Hq. apply nil_length_inv in Hq.
        rewrite Hq in Hin. simpl in Hin. by apply elem_of_nil in Hin.
      * intros _. unfold calls. rewrite omap_app. fold (calls (privateKeysInOrder (voters policy) []).2).
        rewrite Hq. split; [done|]. intros _. by rewrite last_snoc.
    + destruct (eth_sendTransaction web3 _ _ _ w) as [[[]|e] w1];
        unfold resultOf, traceOf; simpl.
      * split; [by split; eauto|]. split; [done|]. split; [|done].
        intros call e Hin. unfold exchanges in Hin. rewrite omap_app in Hin.
        fold (exchanges (privateKeysInOrder (voters policy) (acc0 :: rest)).2) in Hin.
        rewrite calls_exchanges in Hq. apply (f_equal length) in Hq.
        rewrite length_map in Hq. simpl in Hq. apply nil_length_inv in Hq.
        rewrite Hq in Hin. simpl in Hin.
        apply list_elem_of_In in Hin. by destruct Hin as [?|[]].
      * split; [by split; eauto|]. split; [done|]. split; [|done].
        intros call e' Hin. unfold exchanges in Hin. rewrite omap_app in Hin.
        fold (exchanges (privateKeysInOrder (voters policy) (acc0 :: rest)).2) in Hin.
        rewrite calls_exchanges in Hq. apply (f_equal length) in Hq.
        rewrite length_map in Hq. simpl in Hq. apply nil_length_inv in Hq.
        rewrite Hq in Hin. simpl in Hin.
        apply list_elem_of_In in Hin. destruct Hin as [Hin|[]]. simplify_eq.
        apply last_two.
  - rewrite (fakeFinalize_missing c web3 rt epochSettings _ _ _ E).
    unfold resultOf, traceOf; simpl. split.
    + split; [done|]. by intros [? ?].
    + split; [done|]. split; [intros call e Hin; by apply elem_of_nil in Hin|].
      intros _. split; [done|]. by intros [? ?].
Qed.

(** X5: in the finalization every voter of the policy is either signed for or
    reported, never both and never dropped: the lines "Voter not among
    registered accounts" name exactly the voters without a local account, in
    voter order, and the signatures and these lines together are as many as
    the voters. *)
Theorem fakeFinalize_signs_or_reports_every_voter {Chain : Type} (rt : @Runtime Chain)
    (policy : ISigningPolicy) (registeredAccounts : list RegisteredAccount)
    (messageHash : string) :
  (privateKeysInOrder (voters policy) registeredAccounts).2
    = map notRegisteredLine
        (List.filter (λ voter, negb (isLocal registeredAccounts voter)) (voters policy))
  /\ (length (finalizationSignatures rt policy registeredAccounts messageHash)
      + length (privateKeysInOrder (voters policy) registeredAccounts).2
      = length (voters policy))%nat.
Proof.
  split; [apply privateKeysInOrder_lines|].
  rewrite privateKeysInOrder_lines, length_map.
  pose proof (finalizationSignatures_follow_voters rt policy registeredAccounts messageHash)
    as H.
  apply Forall2_length in H. rewrite <- H. apply filter_partition_length.
Qed.

(** ** The watcher's writes *)

Section WatcherWrites.
Context {Chain : Type}.
Variable rt : @Runtime Chain.
Variable epochSettings : EpochSettings.
Implicit Types w : @World Chain.

Lemma processLog_policy log timestamp p w :
  event log = "SigningPolicyInitialized" -> args log = PolicyArgs p ->
  resultOf (processLog rt epochSettings log timestamp w) = Ok tt
  /\ signingPolicies (worldOf (processLog rt epochSettings log timestamp w))
     = <[rewardEpochId p := p]> (signingPolicies w).
Proof.
  intros He Ha. unfold processLog. rewrite He, Ha. by cbn.
Qed.

Lemma processLog_other_policies log timestamp w :
  event log <> "SigningPolicyInitialized" ->
  signingPolicies (worldOf (processLog rt epochSettings log timestamp w))
  = signingPolicies w.
Proof.
  intros He. apply String.eqb_neq in He. unfold processLog.
  destruct (String.eqb (event log) "NewVotingRoundInitiated"); [done|].
  by rewrite He.
Qed.

Lemma processEach_cons log timestamp rest w :
  processEach rt epochSettings ((log, timestamp) :: rest) w
  = (processLog rt epochSettings log timestamp
       ≫= λ _, processEach rt epochSettings rest) w.
Proof. reflexivity. Qed.

(** What a run of [processLog] calls leaves in the store: the items it got
    through are a prefix of the run, all of it when it returns. *)
Lemma processEach_store items w :
  exists n,
    (n <= length items)%nat
    /\ (resultOf (processEach rt epochSettings items w) = Ok tt -> n = length items)
    /\ initializedVotingRound (events (worldOf (processEach rt epochSettings items w)))
       = foldl Z.max (initializedVotingRound (events w))
           (roundsOf epochSettings (take n items))
    /\ forall rewardEpoch,
         default []
           (rewardEpochEvents (events (worldOf (processEach rt epochSettings items w)))
              !! rewardEpoch)
         = default [] (rewardEpochEvents (events w) !! rewardEpoch)
             ++ namesFor epochSettings rewardEpoch (take n items).
Proof.
  revert w. induction items as [|[log timestamp] rest IH]; intros w.
  { exists 0%nat. simpl. repeat split; try done. intros e. by rewrite app_nil_r. }
  rewrite processEach_cons, run_bind.
  pose proof (processLog_events rt epochSettings log timestamp w) as Hev.
  destruct (processLog rt epochSettings log timestamp w) as [[[[]|e|] w1] t1] eqn:E;
    unfold worldOf in Hev; simpl in Hev.
  - destruct (IH w1) as (n & Hn & Hok & Hmax & Hnames).
    destruct (processEach rt epochSettings rest w1) as [[r w2] t2].
    unfold resultOf, worldOf in *; simpl in *.
    exists (S n). split; [lia|]. split; [intros Hr; by rewrite (Hok Hr)|].
    rewrite Hmax, Hev. unfold roundsOf, namesFor.
    cbn [take firstn omap list_omap fst snd].
    destruct (String.eqb (event log) "NewVotingRoundInitiated") eqn:En.
    + split; [by rewrite markRoundInitialized_max|].
      intros e. by rewrite Hnames, Hev, markRoundInitialized_events.
    + split; [done|]. intros e. rewrite Hnames, Hev. cbn [rewardEpochEvents].
      case_bool_decide as Hd.
      * subst e. rewrite recordEvent_lookup. cbn. by rewrite <- app_assoc.
      * by rewrite recordEvent_lookup_ne.
  - exists 1%nat. unfold resultOf, worldOf; simpl. split; [lia|]. split; [done|].
    rewrite Hev. unfold roundsOf, namesFor.
    cbn [take firstn omap list_omap fst snd].
    destruct (String.eqb (event log) "NewVotingRoundInitiated") eqn:En.
    + split; [by rewrite markRoundInitialized_max|].
      intros e'. by rewrite markRoundInitialized_events, app_nil_r.
    + split; [done|]. intros e'. cbn [rewardEpochEvents].
      case_bool_decide as Hd.
      * subst e'. by rewrite recordEvent_lookup.
      * rewrite recordEvent_lookup_ne by done. by rewrite app_nil_r.
  - by destruct (processLog_never_pending rt epochSettings log timestamp w); rewrite E.
Qed.

End WatcherWrites.

(** X6: a processed "SigningPolicyInitialized" log installs its policy in the
    shared map under the policy's own reward epoch id (replacing what was
    there) and records the event under the reward epoch of the block's
    timestamp; a finalization for a time in the policy's reward epoch then
    finds the policy: it returns normally and the transaction it sends carries
    the signatures for this policy's voters. *)
Theorem processLog_installs_the_policy_finalization_uses {Chain : Type}
    (c : @DeployedContracts Chain) (web3 : @Web3 Chain) (rt : @Runtime Chain)
    (epochSettings : EpochSettings) (log : Log) (timestamp : Z) (policy : ISigningPolicy)
    (registeredAccounts : list RegisteredAccount) (now : Z) (w : @World Chain) :
  event log = "SigningPolicyInitialized" ->
  args log = PolicyArgs policy ->
  let installed := processLog rt epochSettings log timestamp w in
  let finalization :=
    fakeFinalize c web3 rt epochSettings registeredAccounts now (worldOf installed) in
  resultOf installed = Ok tt
  /\ signingPolicies (worldOf installed)
     = <[rewardEpochId policy := policy]> (signingPolicies w)
  /\ seesEvent (rewardEpochForTime epochSettings (timestamp * 1000))
       "SigningPolicyInitialized" (worldOf installed) = true
  /\ (rewardEpochForTime epochSettings now = rewardEpochId policy ->
      resultOf finalization = Ok tt
      /\ forall acc0, head registeredAccounts = Some acc0 ->
           calls (traceOf finalization)
           = [SendTransaction (address (signingPolicy acc0)) (relay_address c)
                (RELAY_SELECTOR web3 +:+
                   slice_from 2
                     (RelayMessage_encode rt
                        {| rm_signingPolicy := policy;
                           rm_signatures :=
                             finalizationSignatures rt policy registeredAccounts
                               (ProtocolMessageMerkleRoot_hash rt
                                  (messageData web3 epochSettings now));
                           rm_protocolMessageMerkleRoot :=
                             messageData web3 epochSettings now |}))]).
Proof.
  intros He Ha installed finalization.
  destruct (processLog_policy rt epochSettings log timestamp policy w He Ha) as [Hok Hmap].
  split; [exact Hok|]. split; [exact Hmap|]. split.
  - unfold seesEvent, installed. rewrite processLog_events, He. cbn.
    apply hasEvent_recordEvent.
  - intros Hepoch.
    assert (signingPolicies (worldOf installed) !! rewardEpochForTime epochSettings now
            = Some policy) as Hlook.
    { unfold installed. rewrite Hmap, Hepoch. apply lookup_insert_eq. }
    split.
    + destruct (fakeFinalize_trace c web3 rt epochSettings registeredAccounts now
                  (worldOf installed)) as [_ [Hr|[Hnone _]]]; [exact Hr|].
      congruence.
    + intros acc0 Hhd. by apply fakeFinalize_calls.
Qed.

Lemma processLog_installs_the_policy_finalization_uses_witness :
  let installed :=
    processLog Demo.rt Demo.epochSettings
      (mkLog "SigningPolicyInitialized" (PolicyArgs Demo.policy0)) (Demo.now0 + 5)
      Demo2.emptyWorld in
  signingPolicies (worldOf installed) !! 0 = Some Demo.policy0
  /\ resultOf (fakeFinalize (Demo.contracts ∅) Demo.web3 Demo.rt Demo.epochSettings
                 [Demo.V1] ((Demo.now0 + 21) * 1000) (worldOf installed)) = Ok tt.
Proof.
  intros installed.
  destruct (processLog_installs_the_policy_finalization_uses (Demo.contracts ∅) Demo.web3
              Demo.rt Demo.epochSettings
              (mkLog "SigningPolicyInitialized" (PolicyArgs Demo.policy0)) (Demo.now0 + 5)
              Demo.policy0 [Demo.V1] ((Demo.now0 + 21) * 1000) Demo2.emptyWorld
              eq_refl eq_refl) as (_ & Hmap & _ & Hfin).
  split.
  - unfold installed. rewrite Hmap. reflexivity.
  - exact (proj1 (Hfin eq_refl)).
Defined.

(** X7: a run of [processLog] calls that returns leaves in the store the
    maximum of the former latest initialized round and the rounds of all
    "NewVotingRoundInitiated" events of the run, whatever their order, and for
    every reward epoch the former list followed by the names of the run's
    other events that fall in that epoch, in the order they were processed;
    when a call throws, the same holds of the items up to and including the
    failing one. *)
Theorem processEach_store_in_closed_form {Chain : Type} (rt : @Runtime Chain)
    (epochSettings : EpochSettings) (items : list (Log * Z)) (w : @World Chain) :
  let run := processEach rt epochSettings items w in
  exists n,
    (n <= length items)%nat
    /\ (resultOf run = Ok tt -> n = length items)
    /\ initializedVotingRound (events (worldOf run))
       = foldl Z.max (initializedVotingRound (events w))
           (roundsOf epochSettings (take n items))
    /\ forall rewardEpoch,
         default [] (rewardEpochEvents (events (worldOf run)) !! rewardEpoch)
         = default [] (rewardEpochEvents (events w) !! rewardEpoch)
             ++ namesFor epochSettings rewardEpoch (take n items).
Proof. apply processEach_store. Qed.

(** ** What the drivers leave alone *)

Section Frame.
Context {Chain : Type}.
Variable I : @World Chain -> Prop.
Variable c : @DeployedContracts Chain.
Variable web3 : @Web3 Chain.
Variable rt : @Runtime Chain.
Variable cfg : SimulationConfig.
Variable epochSettings : EpochSettings.
Hypothesis Hext : ExternalsKeep I c web3 rt.
Implicit Types (w : @World Chain) (accs : list RegisteredAccount).

Lemma keeps_bind {A B} (m : M A) (k : A -> M B) :
  keeps I m -> (forall a, keeps I (k a)) -> keeps I (m ≫= k).
Proof.
  intros Hm Hk w Hw. rewrite run_bind. specialize (Hm w Hw).
  destruct (m w) as [[[a|e|] w1] t1]; unfold worldOf in *; simpl in *; try done.
  specialize (Hk a w1 Hm). by destruct (k a w1) as [[r w2] t2].
Qed.

Lemma keeps_same {A} (m : M A) : (forall w, worldOf (m w) = w) -> keeps I m.
Proof. intros Hm w Hw. by rewrite Hm. Qed.

Lemma keeps_await {A} call (inj : A -> Answer) run :
  keepsWorld I run -> keeps I (await call inj run).
Proof.
  intros Hrun w Hw. unfold await. specialize (Hrun w Hw).
  by destruct (run w) as [[a|e] w1].
Qed.

Lemma keeps_sleep ms : keeps I (sleep rt ms).
Proof. intros w Hw. by apply (keep_sleep _ _ _ _ Hext). Qed.

Lemma keeps_try_catch {A} (m : M A) (h : string -> M A) :
  keeps I m -> (forall e, keeps I (h e)) -> keeps I (try_catch m h).
Proof.
  intros Hm Hh w Hw. unfold try_catch. specialize (Hm w Hw).
  destruct (m w) as [[[a|e|] w1] t1]; unfold worldOf in *; simpl in *; try done.
  specialize (Hh e w1 Hm). by destruct (h e w1) as [[r w2] t2].
Qed.

Lemma keeps_awaitEvent fuel rewardEpoch name body :
  keeps I body -> keeps I (awaitEvent rt fuel rewardEpoch name body).
Proof.
  intros Hb. induction fuel as [|fuel IH]; cbn [awaitEvent];
    (apply keeps_bind; [by apply keeps_same|]); intros w0;
    destruct (hasEvent _ _ _); try by apply keeps_same.
  apply keeps_bind; [done|]. intros _. apply keeps_bind; [apply keeps_sleep|]. by intros _.
Qed.

Lemma keeps_registerVoter e acc : keeps I (registerVoter c web3 e acc).
Proof. apply keeps_await, (keep_registerVoter _ _ _ _ Hext). Qed.

Lemma keeps_registerVoters e accs : keeps I (registerVoters c web3 cfg e accs).
Proof.
  induction accs as [|acc rest IH]; cbn [registerVoters]; [by apply keeps_same|].
  apply keeps_bind; [|by intros _].
  destruct (skipsRegistration cfg acc); [by apply keeps_same|].
  apply keeps_bind; [by apply keeps_same|]. intros _. apply keeps_registerVoter.
Qed.

Lemma keeps_signNewSigningPolicies gov e hash accs :
  keeps I (signNewSigningPolicies c web3 cfg gov e hash accs).
Proof.
  induction accs as [|acc rest IH]; cbn [signNewSigningPolicies]; [by apply keeps_same|].
  destruct (skipsSigning cfg acc).
  { apply keeps_bind; [by apply keeps_same|]. by intros _. }
  apply keeps_bind; [apply keeps_await, (keep_signNewSigningPolicy _ _ _ _ Hext)|].
  intros [|log0 logs]; [by apply keeps_same|].
  destruct (String.eqb _ _); [|by apply keeps_same].
  destruct (thresholdReached _); [by apply keeps_same|exact IH].
Qed.

Lemma keeps_defineNextSigningPolicy fuel gov accs :
  keeps I (defineNextSigningPolicy c web3 rt cfg fuel gov accs).
Proof.
  unfold defineNextSigningPolicy.
  apply keeps_bind; [apply keeps_await, (keep_getCurrentRewardEpochId _ _ _ _ Hext)|].
  intros e. apply keeps_bind; [by apply keeps_same|]. intros _.
  apply keeps_bind; [by apply keeps_same|]. intros _.
  apply keeps_bind; [apply keeps_awaitEvent; by apply keeps_same|]. intros _.
  apply keeps_bind; [apply keeps_await, (keep_getCurrentRandomWithQuality _ _ _ _ Hext)|].
  intros random. destruct (negb random.2); [by apply keeps_same|].
  apply keeps_bind; [by apply keeps_same|]. intros _.
  apply keeps_bind; [apply keeps_awaitEvent; by apply keeps_same|]. intros _.
  apply keeps_bind; [apply keeps_registerVoters|]. intros _.
  apply keeps_bind; [by apply keeps_same|]. intros _.
  apply keeps_bind; [apply keeps_awaitEvent; by apply keeps_same|]. intros _.
  apply keeps_bind; [by apply keeps_same|]. intros _.
  apply keeps_bind; [apply keeps_await, (keep_toSigningPolicyHash _ _ _ _ Hext)|].
  intros hash. apply keeps_signNewSigningPolicies.
Qed.

Lemma keeps_fakeFinalize accs now : keeps I (fakeFinalize c web3 rt epochSettings accs now).
Proof.
  unfold fakeFinalize. apply keeps_bind; [by apply keeps_same|]. intros w0.
  destruct (signingPolicies w0 !! _) as [policy|]; [|by apply keeps_same].
  apply keeps_bind; [by apply keeps_same|]. intros _.
  apply keeps_try_catch; [|intros e; by apply keeps_same].
  destruct accs as [|acc0 rest]; [by apply keeps_same|].
  apply keeps_bind; [apply keeps_await, (keep_sendTransaction _ _ _ _ Hext)|].
  intros _. by apply keeps_same.
Qed.

Lemma keeps_forEachTry (call : RegisteredAccount -> M unit) accs :
  (forall acc, keeps I (call acc)) -> keeps I (forEachTry call accs).
Proof.
  intros Hcall. induction accs as [|acc rest IH]; cbn [forEachTry]; [by apply keeps_same|].
  apply keeps_bind; [|by intros _].
  apply keeps_try_catch; [apply Hcall|intros e; by apply keeps_same].
Qed.

Lemma keeps_awaitInitialization fuel votingRoundId :
  keeps I (awaitInitialization rt fuel votingRoundId).
Proof.
  induction fuel as [|fuel IH]; cbn [awaitInitialization];
    (apply keeps_bind; [by apply keeps_same|]); intros w0;
    destruct (_ <? _); try by apply keeps_same.
  apply keeps_bind; [by apply keeps_same|]. intros _.
  apply keeps_bind; [apply keeps_sleep|]. by intros _.
Qed.

Lemma keeps_runVotingRound fuel skipSubmit accs skipFinalisation now :
  keeps I (runVotingRound c web3 rt epochSettings fuel skipSubmit accs skipFinalisation now).
Proof.
  unfold runVotingRound.
  apply keeps_bind; [apply keeps_awaitInitialization|]. intros _.
  apply keeps_bind; [by apply keeps_same|]. intros _.
  apply keeps_bind; [apply keeps_await, (keep_getConfirmedMerkleRoot _ _ _ _ Hext)|].
  intros root. apply keeps_bind; [by apply keeps_same|]. intros _.
  apply keeps_bind.
  { destruct (negb skipSubmit); [|by apply keeps_same].
    apply keeps_bind.
    { apply keeps_forEachTry. intros acc. apply keeps_await, (keep_submit1 _ _ _ _ Hext). }
    intros _. apply keeps_bind; [by apply keeps_same|]. intros t.
    apply keeps_bind; [apply keeps_sleep|]. intros _.
    apply keeps_forEachTry. intros acc. apply keeps_await, (keep_submit2 _ _ _ _ Hext). }
  intros _. apply keeps_bind; [by apply keeps_same|]. intros t.
  apply keeps_bind; [apply keeps_sleep|]. intros _.
  apply keeps_bind.
  { destruct (negb skipSubmit); [|by apply keeps_same].
    apply keeps_forEachTry. intros acc.
    apply keeps_await, (keep_submitSignatures _ _ _ _ Hext). }
  intros _. apply keeps_bind.
  { destruct (negb skipFinalisation); [apply keeps_fakeFinalize|by apply keeps_same]. }
  intros _. by apply keeps_same.
Qed.

End Frame.

(** X8: the drivers change the shared state through their external calls and
    sleeps only: a property of the world that every contract call, the relay
    transaction and the sleeps keep (such as "the event store and the map of
    signing policies are these") still holds after [runVotingRound],
    [defineNextSigningPolicy] and [fakeFinalize], however they end.  In
    particular the drivers never write the event store or the policy map. *)
Theorem drivers_write_nothing_themselves {Chain : Type} (I : @World Chain -> Prop)
    (c : @DeployedContracts Chain) (web3 : @Web3 Chain) (rt : @Runtime Chain)
    (cfg : SimulationConfig) (epochSettings : EpochSettings) (fuel : nat)
    (skipSubmit skipFinalisation : bool) (governanceAccount : Account)
    (registeredAccounts : list RegisteredAccount) (now : Z) (w : @World Chain) :
  ExternalsKeep I c web3 rt ->
  I w ->
  I (worldOf (runVotingRound c web3 rt epochSettings fuel skipSubmit registeredAccounts
                skipFinalisation now w))
  /\ I (worldOf (defineNextSigningPolicy c web3 rt cfg fuel governanceAccount
                   registeredAccounts w))
  /\ I (worldOf (fakeFinalize c web3 rt epochSettings registeredAccounts now w)).
Proof.
  intros Hext Hw. split; [|split].
  - by apply keeps_runVotingRound.
  - by apply keeps_defineNextSigningPolicy.
  - by apply keeps_fakeFinalize.
Qed.

Lemma demo_externals_keep_store :
  ExternalsKeep
    (λ w, events w = events Demo.world0 /\ signingPolicies w = signingPolicies Demo.world0)
    (Demo.contracts {["0xS1"]}) Demo.web3 Demo.rt.
Proof.
  split; unfold keepsWorld; intros; simpl; try case_bool_decide; simpl; done.
Qed.

Lemma drivers_write_nothing_themselves_witness :
  events (worldOf (runVotingRound (Demo.contracts {["0xS1"]}) Demo.web3 Demo.rt
                     Demo.epochSettings 0 false [Demo.V1; Demo.V2] false
                     (clock Demo.world0) Demo.world0))
  = events Demo.world0.
Proof.
  exact (proj1 (proj1 (drivers_write_nothing_themselves _ (Demo.contracts {["0xS1"]})
                         Demo.web3 Demo.rt Demo.noSkips Demo.epochSettings 0 false false
                         Demo.governance [Demo.V1; Demo.V2] (clock Demo.world0) Demo.world0
                         demo_externals_keep_store (conj eq_refl eq_refl)))).
Defined.

(** ** The errors of the signing-policy driver *)

Section DriverErrors.
Context {Chain : Type}.
Variable c : @DeployedContracts Chain.
Variable web3 : @Web3 Chain.
Variable rt : @Runtime Chain.
Variable cfg : SimulationConfig.
Implicit Types (w : @World Chain) (accs : list RegisteredAccount) (t : list Effect).

Lemma cleanFor_exchanges verdict t call ans :
  cleanFor verdict t -> (call, ans) ∈ exchanges t -> verdict ans = None.
Proof.
  induction 1 as [|x t Hx Ht IH]; intros Hin; [by apply elem_of_nil in Hin|].
  destruct x as [c0 a|lg lv msg]; simpl in *.
  - change (exchanges (Called c0 a :: t)) with ((c0, a) :: exchanges t) in Hin.
    apply list_elem_of_In in Hin. destruct Hin as [Hin|Hin]; [by simplify_eq|].
    apply IH. by apply list_elem_of_In.
  - by apply IH.
Qed.

Lemma cleanFor_of_exchanges verdict t :
  Forall (λ x, verdict x.2 = None) (exchanges t) -> cleanFor verdict t.
Proof.
  induction t as [|[c0 a|lg lv msg] t IH]; intros H; [constructor| |].
  - change (exchanges (Called c0 a :: t)) with ((c0, a) :: exchanges t) in H.
    apply Forall_cons in H as [H1 H2]. constructor; [exact H1|by apply IH].
  - constructor; [done|by apply IH].
Qed.

Lemma exchanges_split_clean_l verdict t0 t pre call ans post r :
  cleanFor verdict t0 ->
  exchanges (t0 ++ t) = pre ++ (call, ans) :: post ->
  verdict ans = Some r ->
  exists pre', pre = exchanges t0 ++ pre' /\ exchanges t = pre' ++ (call, ans) :: post.
Proof.
  intros Hq. revert pre.
  induction Hq as [|x t0 Hx Ht IH]; intros pre Heq Hv; [by exists pre|].
  destruct x as [c0 a|lg lv msg].
  - change (exchanges ((Called c0 a :: t0) ++ t))
      with ((c0, a) :: exchanges (t0 ++ t)) in Heq.
    destruct pre as [|p pre]; simpl in Heq.
    + assert (a = ans) by congruence. congruence.
    + injection Heq as Hp Heq. subst p.
      destruct (IH pre Heq Hv) as (pre' & -> & Hpre'). by exists pre'.
  - change (exchanges ((Logged lg lv msg :: t0) ++ t)) with (exchanges (t0 ++ t)) in Heq.
    destruct (IH pre Heq Hv) as (pre' & -> & Hpre'). by exists pre'.
Qed.

Lemma throwsOnVerdict_prefix verdict (r : Result unit) w t0 t :
  throwsOnVerdict verdict (r, w, t) -> throwsOnVerdict verdict (r, w, t0 ++ t).
Proof.
  intros H e He. destruct (H e He) as (pre & call & ans & Heq & Hv).
  unfold traceOf in *; simpl in *.
  exists (exchanges t0 ++ pre), call, ans. split; [|done].
  by rewrite exchanges_app, Heq, app_assoc.
Qed.

Lemma judged_prefix_clean verdict (r : Result unit) w t0 t :
  cleanFor verdict t0 -> judged verdict (r, w, t) -> judged verdict (r, w, t0 ++ t).
Proof.
  intros Hq [H1 H2]. split; [|by apply throwsOnVerdict_prefix].
  intros pre call ans post r' Heq Hcls Hv. unfold traceOf in Heq; simpl in Heq.
  destruct (exchanges_split_clean_l _ _ _ _ _ _ _ _ Hq Heq Hv) as (pre' & -> & Heq').
  exact (H1 pre' call ans post r' Heq' Hcls Hv).
Qed.

Lemma judged_clean verdict (r : Result unit) w t :
  cleanFor verdict t -> (forall e, r <> Thrown e) -> judged verdict (r, w, t).
Proof.
  intros Hq Hr. split.
  - intros pre call ans post r' Heq _ Hv. unfold traceOf in Heq; simpl in Heq.
    assert ((call, ans) ∈ exchanges t) as Hin.
    { rewrite Heq. apply list_elem_of_In, in_elt. }
    pose proof (cleanFor_exchanges _ _ _ _ Hq Hin). congruence.
  - intros e He. unfold resultOf in He; simpl in He. by destruct (Hr e).
Qed.

Lemma judged_logged verdict (r : Result unit) w logger lvl msg t :
  judged verdict (r, w, t) -> judged verdict (r, w, Logged logger lvl msg :: t).
Proof.
  intros H. apply (judged_prefix_clean verdict r w [Logged logger lvl msg] t); [|done].
  by repeat constructor.
Qed.

Lemma judged_called_on verdict (r : Result unit) w call ans t :
  verdict ans = None ->
  judged verdict (r, w, t) -> judged verdict (r, w, Called call ans :: t).
Proof.
  intros Hn H. apply (judged_prefix_clean verdict r w [Called call ans] t); [|done].
  by repeat constructor.
Qed.

Lemma judged_last verdict (r : Result unit) w call ans t :
  verdict ans = Some r -> exchanges t = [] ->
  judged verdict (r, w, Called call ans :: t).
Proof.
  intros Hr Ht. split.
  - apply endsAt_last; [|done]. intros r' Hr'. congruence.
  - intros e He. unfold resultOf in He; simpl in He. subst r.
    exists [], call, ans. split; [|done]. unfold traceOf; simpl.
    change (exchanges (Called call ans :: t)) with ((call, ans) :: exchanges t).
    by rewrite Ht.
Qed.

(** A step that is judged, and clean when it returns, and then a judged
    run. *)
Lemma judged_seq verdict (m : M unit) (k : unit -> M unit) w :
  judged verdict (m w) ->
  (resultOf (m w) = Ok tt -> cleanFor verdict (traceOf (m w))) ->
  (forall a w1, judged verdict (k a w1)) ->
  judged verdict ((m ≫= k) w).
Proof.
  intros Hm Hok Hk. rewrite run_bind.
  destruct (m w) as [[[[]|e|] w1] t1]; unfold resultOf, traceOf in *; simpl in *;
    try exact Hm.
  specialize (Hk tt w1). destruct (k tt w1) as [[r w2] t2].
  apply judged_prefix_clean; [by apply Hok|exact Hk].
Qed.

Lemma judged_logInfo verdict logger msg (k : unit -> M unit) w :
  (forall a w1, judged verdict (k a w1)) ->
  judged verdict ((logInfo logger msg ≫= k) w).
Proof. intros Hk. rewrite run_logInfo. apply judged_logged. rewrite <- triple_eta. apply Hk. Qed.

Lemma judged_await {A} verdict call (inj : A -> Answer) run (k : A -> M unit) w :
  (forall a, verdict (inj a) = None) ->
  (forall e, verdict (Rejected e) = Some (Thrown e)) ->
  (forall a w1, judged verdict (k a w1)) ->
  judged verdict ((await call inj run ≫= k) w).
Proof.
  intros Hn He Hk. rewrite run_await. destruct (run w) as [[a|e] w1].
  - apply judged_called_on; [apply Hn|]. rewrite <- triple_eta. apply Hk.
  - by apply judged_last.
Qed.

(** The wait loops only sleep and log: nothing in them has a verdict, and
    they do not throw. *)
Lemma awaitEvent_clean verdict fuel rewardEpoch name body w :
  verdict Done = None ->
  (forall w1, body w1 = (Ok tt, w1, traceOf (body w1))
              /\ cleanFor verdict (traceOf (body w1))) ->
  cleanFor verdict (traceOf (awaitEvent rt fuel rewardEpoch name body w))
  /\ forall e, resultOf (awaitEvent rt fuel rewardEpoch name body w) <> Thrown e.
Proof.
  intros Hd Hb. revert w. induction fuel as [|fuel IH]; intros w; cbn [awaitEvent];
    rewrite run_getWorld;
    destruct (hasEvent (rewardEpochEvents (events w)) rewardEpoch name);
    try (split; [constructor|done]).
  destruct (Hb w) as [Hbr Hbc]. rewrite (run_bind_ok _ _ _ _ _ _ Hbr).
  rewrite run_sleep. destruct (IH (setTimeout_resolve rt 500 w)) as [H1 H2].
  unfold resultOf, traceOf in *; simpl. split; [|exact H2].
  apply Forall_app. split; [exact Hbc|]. by constructor.
Qed.

Lemma judged_awaitEvent verdict fuel rewardEpoch name body (k : unit -> M unit) w :
  verdict Done = None ->
  (forall w1, body w1 = (Ok tt, w1, traceOf (body w1))
              /\ cleanFor verdict (traceOf (body w1))) ->
  (forall a w1, judged verdict (k a w1)) ->
  judged verdict ((awaitEvent rt fuel rewardEpoch name body ≫= k) w).
Proof.
  intros Hd Hb Hk.
  destruct (awaitEvent_clean verdict fuel rewardEpoch name body w Hd Hb) as [Hc Hn].
  apply judged_seq; [|done|done].
  rewrite (triple_eta (awaitEvent _ _ _ _ _ _)). by apply judged_clean.
Qed.

Lemma registerVoters_judged verdict nextRewardEpochId accs w :
  verdict Done = None ->
  (forall e, verdict (Rejected e) = Some (Thrown e)) ->
  judged verdict (registerVoters c web3 cfg nextRewardEpochId accs w)
  /\ (resultOf (registerVoters c web3 cfg nextRewardEpochId accs w) = Ok tt ->
      cleanFor verdict (traceOf (registerVoters c web3 cfg nextRewardEpochId accs w))).
Proof.
  intros Hd He. revert w. induction accs as [|acc rest IH]; intros w.
  { split; [by apply judged_clean; [constructor|]|constructor]. }
  rewrite registerVoters_cons.
  destruct (skipsRegistration cfg acc); cbn zeta.
  { destruct (IH w) as [H1 H2]. split.
    - apply judged_logged. rewrite <- triple_eta. apply H1.
    - intros Hr. constructor; [done|]. by apply H2. }
  destruct (voterRegistry_registerVoter c _ _ _ w) as [[[]|e] w1].
  - destruct (IH w1) as [H1 H2]. split.
    + apply judged_logged, judged_called_on; [done|]. rewrite <- triple_eta. apply H1.
    + intros Hr. constructor; [done|]. constructor; [done|]. by apply H2.
  - split; [|done]. apply judged_logged. by apply judged_last.
Qed.

Lemma signNewSigningPolicies_judged governanceAccount nextRewardEpochId hash accs w :
  judged driverVerdict
    (signNewSigningPolicies c web3 cfg governanceAccount nextRewardEpochId hash accs w).
Proof.
  revert w. induction accs as [|acc rest IH]; intros w.
  { by apply judged_clean; [constructor|]. }
  rewrite signNewSigningPolicies_cons.
  destruct (skipsSigning cfg acc); cbn zeta.
  { apply judged_logged. rewrite <- triple_eta. apply IH. }
  destruct (flareSystemsManager_signNewSigningPolicy c _ _ _ _ w) as [[logs|e] w1].
  - destruct (signVerdict (Logs logs)) as [[[]|e|]|] eqn:Ev.
    + by apply judged_last.
    + by apply judged_last.
    + by apply judged_last.
    + apply judged_called_on; [done|]. rewrite <- triple_eta. apply IH.
  - by apply judged_last.
Qed.

Lemma defineNextSigningPolicy_judged fuel governanceAccount accs w :
  judged driverVerdict (defineNextSigningPolicy c web3 rt cfg fuel governanceAccount accs w).
Proof.
  unfold defineNextSigningPolicy.
  apply judged_await; [done|done|]. intros rewardEpochId w1.
  apply judged_logInfo. intros _ w2.
  apply judged_logInfo. intros _ w3.
  apply judged_awaitEvent; [done| |].
  { intros w'. split; [done|]. by repeat constructor. }
  intros _ w4. rewrite run_await.
  destruct (submission_getCurrentRandomWithQuality c w4) as [[[value quality]|e] w5];
    [|by apply judged_last].
  destruct quality; cbn [negb snd fst].
  2:{ by apply judged_last. }
  apply judged_called_on; [done|]. rewrite <- triple_eta.
  apply judged_logInfo. intros _ w6.
  apply judged_awaitEvent; [done| |].
  { intros w'. split; [done|]. constructor. }
  intros _ w7.
  destruct (registerVoters_judged driverVerdict (rewardEpochId + 1) accs w7) as [Hr1 Hr2];
    [done|done|].
  apply judged_seq; [exact Hr1|exact Hr2|]. intros _ w8.
  apply judged_logInfo. intros _ w9.
  apply judged_awaitEvent; [done| |].
  { intros w'. split; [done|]. constructor. }
  intros _ w10.
  apply judged_logInfo. intros _ w11.
  apply judged_await; [done|done|]. intros newSigningPolicyHash w12.
  apply signNewSigningPolicies_judged.
Qed.

End DriverErrors.

(** X9. [defineNextSigningPolicy] (lines 465-531) catches nothing.  Whatever
    the contracts answer: the first call that is rejected ends the driver
    with the rejection, and no call follows it; randomness of bad quality
    ends it with "No good random" (line 483), the randomness read being its
    last call; and when the driver throws, its last call is one of those two
    or a signature whose first log is not "SigningPolicySigned" (line 528). *)
Theorem defineNextSigningPolicy_fails_fast {Chain : Type}
    (c : @DeployedContracts Chain) (web3 : @Web3 Chain) (rt : @Runtime Chain)
    (cfg : SimulationConfig) (fuel : nat) (governanceAccount : Account)
    (accs : list RegisteredAccount) (w : @World Chain) :
  let run := defineNextSigningPolicy c web3 rt cfg fuel governanceAccount accs w in
  (forall pre call e post,
      exchanges (traceOf run) = pre ++ (call, Rejected e) :: post ->
      resultOf run = Thrown e /\ post = [])
  /\ (forall pre call value post,
      exchanges (traceOf run) = pre ++ (call, Random value false) :: post ->
      resultOf run = Thrown "No good random" /\ post = [])
  /\ (forall e, resultOf run = Thrown e ->
      exists pre call ans,
        exchanges (traceOf run) = pre ++ [(call, ans)]
        /\ (ans = Rejected e
            \/ (exists value, ans = Random value false) /\ e = "No good random"
            \/ (exists logs, ans = Logs logs /\ acknowledged logs = false)
               /\ e = "Expected signing policy to be signed")).
Proof.
  intros run.
  destruct (defineNextSigningPolicy_judged c web3 rt cfg fuel governanceAccount accs w)
    as [Hends Hthrows].
  fold run in Hends, Hthrows. split; [|split].
  - intros pre call e post Heq. by apply (Hends pre call (Rejected e) post (Thrown e) Heq).
  - intros pre call value post Heq.
    by apply (Hends pre call (Random value false) post (Thrown "No good random") Heq).
  - intros e He. destruct (Hthrows e He) as (pre & call & ans & Heq & Hv).
    exists pre, call, ans. split; [exact Heq|].
    destruct ans as [e'| | | |value quality|logs]; cbn [driverVerdict] in Hv;
      try discriminate.
    + left. by simplify_eq.
    + right; left. destruct quality; [discriminate|].
      split; [by exists value|by simplify_eq].
    + right; right. unfold signVerdict in Hv.
      destruct (acknowledged logs) eqn:Hack.
      * by destruct (reportsThreshold (Logs logs)).
      * split; [by exists logs|by simplify_eq].
Qed.

(** ** The errors of the voting-round driver *)

Section RoundErrors.
Context {Chain : Type}.
Variable c : @DeployedContracts Chain.
Variable web3 : @Web3 Chain.
Variable rt : @Runtime Chain.
Variable epochSettings : EpochSettings.
Implicit Types (w : @World Chain) (accs : list RegisteredAccount) (t : list Effect).

Let cls := isGetConfirmedMerkleRoot.

Lemma endsAt_of_quiet verdict (run : Result unit * @World Chain * list Effect) :
  quietFor cls (traceOf run) -> endsAt cls verdict run.
Proof. destruct run as [[r w] t]. apply endsAt_quiet. Qed.

Lemma quietFor_try_catch (m : M unit) (h : string -> M unit) w :
  quietFor cls (traceOf (m w)) ->
  (forall e w1, quietFor cls (traceOf (h e w1))) ->
  quietFor cls (traceOf (try_catch m h w)).
Proof.
  intros Hm Hh. unfold try_catch.
  destruct (m w) as [[[a|e|] w1] t1]; unfold traceOf in *; simpl in *; try done.
  specialize (Hh e w1). destruct (h e w1) as [[r w2] t2]. by apply quietFor_app.
Qed.

Lemma quietFor_forEachTry (call : RegisteredAccount -> M unit) accs w :
  (forall acc w1, quietFor cls (traceOf (call acc w1))) ->
  quietFor cls (traceOf (forEachTry call accs w)).
Proof.
  intros Hcall. revert w. induction accs as [|acc rest IH]; intros w; cbn [forEachTry];
    [apply quietFor_nil|].
  apply quietFor_bind; [|by intros _ w1].
  apply quietFor_try_catch; [apply Hcall|]. intros e w1. apply quietFor_logError.
Qed.

Lemma quietFor_fakeFinalize accs now w :
  quietFor cls (traceOf (fakeFinalize c web3 rt epochSettings accs now w)).
Proof.
  destruct (fakeFinalize_trace c web3 rt epochSettings accs now w) as [H _].
  eapply Forall_impl; [exact H|]. by intros [[] a|lg lv msg].
Qed.

Lemma quietFor_awaitInitialization fuel votingRoundId w :
  quietFor cls (traceOf (awaitInitialization rt fuel votingRoundId w)).
Proof.
  destruct (awaitInitialization_trace rt fuel votingRoundId w) as [H _].
  eapply Forall_impl; [exact H|]. by intros [[] a|lg lv msg].
Qed.

Lemma quietFor_round_rest skipSubmit accs skipFinalisation now root w :
  let votingRoundId := votingEpochForTime epochSettings now in
  quietFor cls (traceOf ((
    logInfo "voting"
      ("Confirmed merkle root in the last round " +:+ pretty (votingRoundId - 2)
         +:+ ": " +:+ root) ;;
    (if negb skipSubmit then
       forEachTry (submit1 c) accs ;;
       let revealStartMs := votingEpochStartMs epochSettings (votingRoundId + 1) in
       t ← Date_now;
       sleep rt (revealStartMs - t) ;;
       forEachTry (submit2 c) accs
     else ret tt) ;;
    let revealDeadlineMs :=
      votingEpochStartMs epochSettings (votingRoundId + 1)
        + (votingEpochDurationSec epochSettings * 1000) / 2 in
    t ← Date_now;
    sleep rt (revealDeadlineMs - t) ;;
    (if negb skipSubmit then forEachTry (submitSignatures_ c) accs else ret tt) ;;
    (if negb skipFinalisation then fakeFinalize c web3 rt epochSettings accs now else ret tt) ;;
    logInfo "voting" ("Voting round " +:+ pretty votingRoundId +:+ " finished")) w)).
Proof.
  intros vr.
  apply quietFor_bind; [apply quietFor_logInfo|]. intros _ w2.
  apply quietFor_bind.
  { destruct skipSubmit; cbn [negb]; [apply quietFor_nil|].
    apply quietFor_bind.
    { apply quietFor_forEachTry. intros acc w'. by apply quietFor_await. }
    intros _ w3. apply quietFor_bind; [apply quietFor_nil|]. intros t w4.
    apply quietFor_bind; [by apply quietFor_sleep|]. intros _ w5.
    apply quietFor_forEachTry. intros acc w'. by apply quietFor_await. }
  intros _ w3. apply quietFor_bind; [apply quietFor_nil|]. intros t w4.
  apply quietFor_bind; [by apply quietFor_sleep|]. intros _ w5.
  apply quietFor_bind.
  { destruct skipSubmit; cbn [negb]; [apply quietFor_nil|].
    apply quietFor_forEachTry. intros acc w'. by apply quietFor_await. }
  intros _ w6. apply quietFor_bind.
  { destruct skipFinalisation; cbn [negb]; [apply quietFor_nil|].
    apply quietFor_fakeFinalize. }
  intros _ w7. apply quietFor_logInfo.
Qed.

(** The first rejected read of the merkle root ends the round. *)
Lemma runVotingRound_endsAt fuel skipSubmit accs skipFinalisation now w :
  endsAt cls registerVerdict
    (runVotingRound c web3 rt epochSettings fuel skipSubmit accs skipFinalisation now w).
Proof.
  unfold runVotingRound.
  apply endsAt_bind; [apply quietFor_awaitInitialization|]. intros _ w0.
  rewrite run_logInfo. apply endsAt_logged. rewrite <- triple_eta. rewrite run_await.
  destruct (relay_getConfirmedMerkleRoot c _ _ w0) as [[root|e] w1].
  2:{ apply endsAt_last; [|done]. intros r' Hr'. simpl in Hr'. congruence. }
  apply endsAt_called_on; [done|]. rewrite <- triple_eta. apply endsAt_of_quiet.
  apply quietFor_round_rest.
Qed.

(** A round either stops at a rejected read of the merkle root, or no read
    of the root is rejected in it. *)
Lemma runVotingRound_root fuel skipSubmit accs skipFinalisation now w :
  let run :=
    runVotingRound c web3 rt epochSettings fuel skipSubmit accs skipFinalisation now w in
  (exists e, resultOf run = Thrown e /\ Forall (λ x, isAbortEffect x = true) (traceOf run))
  \/ (forall call e, (call, Rejected e) ∈ exchanges (traceOf run) -> cls call = false).
Proof.
  intros run. subst run. unfold runVotingRound.
  set (vr := votingEpochForTime epochSettings now).
  destruct (awaitInitialization_trace rt fuel vr w) as [Hwait Hres].
  pose proof (quietFor_awaitInitialization fuel vr w) as Hq0.
  destruct (awaitInitialization rt fuel vr w) as [[r0 w0] t0] eqn:E0.
  unfold resultOf, traceOf in Hwait, Hres, Hq0; simpl in Hwait, Hres, Hq0.
  destruct Hres as [-> | ->].
  2:{ right. rewrite (run_bind_pending _ _ _ _ _ E0). intros call e Hin.
      by apply (quietFor_exchanges _ _ _ _ Hq0 Hin). }
  rewrite (run_bind_ok _ _ _ _ _ _ E0), run_logInfo, run_await.
  destruct (relay_getConfirmedMerkleRoot c FTSO_PROTOCOL_ID (vr - 2) w0) as [[root|e'] w1].
  - right. cbn [resultOf worldOf traceOf fst snd]. intros call e Hin.
    rewrite exchanges_app in Hin. apply elem_of_app in Hin as [Hin|Hin].
    { by apply (quietFor_exchanges _ _ _ _ Hq0 Hin). }
    change (exchanges (?l :: Called ?a ?b :: ?t)) with ((a, b) :: exchanges t) in Hin.
    apply list_elem_of_In in Hin. destruct Hin as [Hin|Hin]; [discriminate|].
    apply list_elem_of_In in Hin.
    eapply quietFor_exchanges; [|exact Hin].
    apply (quietFor_round_rest skipSubmit accs skipFinalisation now root w1).
  - left. exists e'. cbn [resultOf worldOf traceOf fst snd]. split; [done|].
    apply Forall_app. split; [|by repeat constructor].
    eapply Forall_impl; [exact Hwait|]. intros x Hx. unfold isAbortEffect. by rewrite Hx.
Qed.

(** Why a round throws. *)
Lemma runVotingRound_thrown fuel skipSubmit accs skipFinalisation now w e :
  let run :=
    runVotingRound c web3 rt epochSettings fuel skipSubmit accs skipFinalisation now w in
  resultOf run = Thrown e ->
  (exists pre call,
      exchanges (traceOf run) = pre ++ [(call, Rejected e)]
      /\ isGetConfirmedMerkleRoot call = true)
  \/ (skipFinalisation = false
      /\ e = "TypeError: Cannot read properties of undefined (reading 'voters')"
      /\ signingPolicies (worldOf run) !! rewardEpochForTime epochSettings now = None).
Proof.
  intros run Hthrown.
  destruct (runVotingRound_cases c web3 rt epochSettings fuel skipSubmit accs
              skipFinalisation now w) as [[Habort _]|Hround].
  - left. subst run. revert Hthrown Habort. unfold runVotingRound.
    set (vr := votingEpochForTime epochSettings now).
    destruct (awaitInitialization_trace rt fuel vr w) as [Hwait Hres].
    destruct (awaitInitialization rt fuel vr w) as [[r0 w0] t0] eqn:E0.
    unfold resultOf, traceOf in Hwait, Hres; simpl in Hwait, Hres.
    destruct Hres as [-> | ->].
    2:{ by rewrite (run_bind_pending _ _ _ _ _ E0). }
    rewrite (run_bind_ok _ _ _ _ _ _ E0), run_logInfo, run_await.
    destruct (relay_getConfirmedMerkleRoot c FTSO_PROTOCOL_ID (vr - 2) w0) as [[root|e'] w1].
    { cbn [resultOf worldOf traceOf fst snd]. intros _ Hab.
      apply Forall_app in Hab as [_ Hab].
      apply Forall_cons in Hab as [_ Hab]. apply Forall_cons in Hab as [Hab _].
      discriminate. }
    cbn [resultOf worldOf traceOf fst snd]. intros He _. injection He as ->.
    exists (exchanges t0), (GetConfirmedMerkleRoot FTSO_PROTOCOL_ID (vr - 2)).
    split; [by rewrite exchanges_app|]. done.
  - right. destruct Hround as (t0 & commits & reveals & signatures & ms1 & ms2 & w1 & _ & _
                                & _ & _ & Heq).
    fold run in Heq. rewrite Heq in Hthrown |- *.
    destruct skipFinalisation; [discriminate|].
    destruct (fakeFinalize_trace c web3 rt epochSettings accs now w1) as [_ [Hok|[Hnone Hff]]].
    + destruct (fakeFinalize c web3 rt epochSettings accs now w1) as [[[[]|e'|] wf] tf];
        by unfold resultOf in *; simpl in *.
    + rewrite Hff in Hthrown |- *. unfold resultOf, worldOf in *; simpl in *.
      injection Hthrown as <-. done.
Qed.

End RoundErrors.

(** X10. [runVotingRound] (lines 568-628) has two ways to fail, whatever the
    contracts answer.  A rejected read of the confirmed merkle root (line
    591, outside every [try]) ends the round with the rejection: it is the
    round's last call, and nothing is submitted or finalized.  Otherwise the
    round throws only when finalization finds no signing policy for the
    reward epoch (line 651); every other rejection is caught. *)
Theorem runVotingRound_fails_only_at_the_root_or_the_policy {Chain : Type}
    (c : @DeployedContracts Chain) (web3 : @Web3 Chain) (rt : @Runtime Chain)
    (epochSettings : EpochSettings) (fuel : nat) (skipSubmit : bool)
    (accs : list RegisteredAccount) (skipFinalisation : bool) (now : Z) (w : @World Chain) :
  let run :=
    runVotingRound c web3 rt epochSettings fuel skipSubmit accs skipFinalisation now w in
  (forall pre call e post,
      exchanges (traceOf run) = pre ++ (call, Rejected e) :: post ->
      isGetConfirmedMerkleRoot call = true ->
      resultOf run = Thrown e /\ post = []
      /\ submissions (traceOf run) = []
      /\ Forall (λ x, isFinalizeEffect x = false) (traceOf run))
  /\ (forall e, resultOf run = Thrown e ->
      (exists pre call,
          exchanges (traceOf run) = pre ++ [(call, Rejected e)]
          /\ isGetConfirmedMerkleRoot call = true)
      \/ (skipFinalisation = false
          /\ e = "TypeError: Cannot read properties of undefined (reading 'voters')"
          /\ signingPolicies (worldOf run) !! rewardEpochForTime epochSettings now = None)).
Proof.
  intros run. split.
  - intros pre call e post Heq Hcall.
    destruct (runVotingRound_endsAt c web3 rt epochSettings fuel skipSubmit accs
                skipFinalisation now w pre call (Rejected e) post (Thrown e) Heq Hcall eq_refl)
      as [Hres ->].
    fold run in Hres. split; [exact Hres|]. split; [done|].
    destruct (runVotingRound_root c web3 rt epochSettings fuel skipSubmit accs
                skipFinalisation now w) as [(e' & _ & Habort)|Hnone].
    + fold run in Habort. destruct (abort_effects _ Habort) as (Hq & Hf & _).
      split; [by apply submissions_quiet|exact Hf].
    + exfalso. fold run in Hnone. specialize (Hnone call e).
      rewrite Heq in Hnone. rewrite Hcall in Hnone.
      assert (true = false) by (apply Hnone, list_elem_of_In, in_elt). discriminate.
  - intros e He.
    exact (runVotingRound_thrown c web3 rt epochSettings fuel skipSubmit accs
             skipFinalisation now w e He).
Qed.

(** ** Setup and maintenance tasks *)

Section TaskFacts.
Context {Chain : Type}.
Implicit Types (w : @World Chain) (t : list Effect) (s : list Step).

Lemma task_run_bind {A B} (m : Task A) (k : A -> Task B) w :
  (m ≫= k) w =
  match m w with
  | (Ok a, w1, t1) => let '(r, w2, t2) := k a w1 in (r, w2, t1 ++ t2)
  | (Thrown e, w1, t1) => (Thrown e, w1, t1)
  | (Pending, w1, t1) => (Pending, w1, t1)
  end.
Proof. reflexivity. Qed.

Lemma task_eta {A} (x : Result A * @World Chain * list Step) :
  x = (taskResult x, taskWorld x, taskSteps x).
Proof. by destruct x as [[r w] s]. Qed.

Lemma task_run_ret {A B} (a : A) (k : A -> Task B) w : (task_ret a ≫= k) w = k a w.
Proof. rewrite task_run_bind. simpl. by destruct (k a w) as [[r w2] t2]. Qed.

Lemma task_run_modify {B} f (k : unit -> Task B) w : (task_modify f ≫= k) w = k tt (f w).
Proof. rewrite task_run_bind. simpl. by destruct (k tt (f w)) as [[r w2] t2]. Qed.

Lemma task_run_await {A B} call (inj : A -> SetupAnswer) run (k : A -> Task B) w :
  (task_await call inj run ≫= k) w =
  match run w with
  | (Returned a, w1) =>
      (taskResult (k a w1), taskWorld (k a w1), Setup call (inj a) :: taskSteps (k a w1))
  | (Failed e, w1) => (Thrown e, w1, [Setup call (SRejected e)])
  end.
Proof.
  rewrite task_run_bind. unfold task_await. destruct (run w) as [[a|e] w1]; [|done].
  by destruct (k a w1) as [[r w2] t2].
Qed.

Lemma lift_run {A} (m : M A) w :
  lift m w = (resultOf (m w), worldOf (m w), map Core (traceOf (m w))).
Proof. unfold lift. by destruct (m w) as [[r w1] t1]. Qed.

Lemma task_run_lift {A B} (m : M A) (k : A -> Task B) w :
  (lift m ≫= k) w =
  match resultOf (m w) with
  | Ok a =>
      (taskResult (k a (worldOf (m w))), taskWorld (k a (worldOf (m w))),
       map Core (traceOf (m w)) ++ taskSteps (k a (worldOf (m w))))
  | Thrown e => (Thrown e, worldOf (m w), map Core (traceOf (m w)))
  | Pending => (Pending, worldOf (m w), map Core (traceOf (m w)))
  end.
Proof.
  rewrite task_run_bind, lift_run.
  destruct (m w) as [[[a|e|] w1] t1]; unfold resultOf, worldOf, traceOf; simpl; try done.
  by destruct (k a w1) as [[r w2] t2].
Qed.

Lemma task_run_bind_assoc {A B C} (m : Task A) (k1 : A -> Task B) (k2 : B -> Task C) w :
  ((m ≫= k1) ≫= k2) w = (m ≫= λ a, k1 a ≫= k2) w.
Proof.
  rewrite !task_run_bind. destruct (m w) as [[[a|e|] w1] t1]; try done.
  rewrite task_run_bind. destruct (k1 a w1) as [[[b|e|] w2] t2]; try done.
  destruct (k2 b w2) as [[r w3] t3]. by rewrite app_assoc.
Qed.

Lemma task_run_lift_ok {A B} (m : M A) (k : A -> Task B) w a w1 t1 :
  m w = (Ok a, w1, t1) ->
  (lift m ≫= k) w = (taskResult (k a w1), taskWorld (k a w1), map Core t1 ++ taskSteps (k a w1)).
Proof. intros Hm. by rewrite task_run_lift, Hm. Qed.

Lemma task_run_logInfo {B} logger msg (k : unit -> Task B) w :
  (lift (logInfo logger msg) ≫= k) w
  = (taskResult (k tt w), taskWorld (k tt w),
     Core (Logged logger LInfo msg) :: taskSteps (k tt w)).
Proof. by rewrite (task_run_lift_ok _ _ w tt w [Logged logger LInfo msg]). Qed.

Lemma task_run_Date_now {B} (k : Z -> Task B) w : (lift Date_now ≫= k) w = k (clock w) w.
Proof.
  rewrite (task_run_lift_ok _ _ w (clock w) w []); [|done]. simpl. by rewrite <- task_eta.
Qed.

Lemma coreSteps_app s1 s2 : coreSteps (s1 ++ s2) = coreSteps s1 ++ coreSteps s2.
Proof. apply omap_app. Qed.

Lemma setupExchanges_app s1 s2 :
  setupExchanges (s1 ++ s2) = setupExchanges s1 ++ setupExchanges s2.
Proof. apply omap_app. Qed.

Lemma setupCalls_app s1 s2 : setupCalls (s1 ++ s2) = setupCalls s1 ++ setupCalls s2.
Proof. unfold setupCalls. by rewrite setupExchanges_app, map_app. Qed.

Lemma coreSteps_Core t : coreSteps (map Core t) = t.
Proof.
  induction t as [|e t IH]; [done|].
  change (coreSteps (map Core (e :: t))) with (e :: coreSteps (map Core t)). by rewrite IH.
Qed.

Lemma setupExchanges_Core t : setupExchanges (map Core t) = [].
Proof.
  induction t as [|e t IH]; [done|].
  by change (setupExchanges (map Core (e :: t))) with (setupExchanges (map Core t)).
Qed.

Lemma setupExchanges_setup call a s :
  setupExchanges (Setup call a :: s) = (call, a) :: setupExchanges s.
Proof. reflexivity. Qed.

Lemma setupExchanges_core e s : setupExchanges (Core e :: s) = setupExchanges s.
Proof. reflexivity. Qed.

Lemma setupCalls_Core t : setupCalls (map Core t) = [].
Proof. unfold setupCalls. by rewrite setupExchanges_Core. Qed.

End TaskFacts.

Section OfferRewardsFacts.
Context {Chain : Type}.
Variable c : @DeployedContracts Chain.
Variable h : @Harness Chain.
Variable rt : @Runtime Chain.
Variable epochSettings : EpochSettings.
Implicit Types (w : @World Chain).

Lemma totalRewards_OFFERS : totalRewards (OFFERS h) = 75000000.
Proof. reflexivity. Qed.

(** The [try] block of lines 555-559. *)
Lemma offer_block nextRewardEpochId w :
  task_try_catch
    (task_await (OfferRewards nextRewardEpochId (OFFERS h) (totalRewards (OFFERS h)))
       (fun _ => SDone)
       (ftsoRewardOffersManager_offerRewards h nextRewardEpochId (OFFERS h)
          (totalRewards (OFFERS h))) ;;
     lift (logInfo "offerRewards" "Rewards offered"))
    (fun e => lift (logError "offerRewards" ("Rewards not offered: " +:+ e))) w
  = match ftsoRewardOffersManager_offerRewards h nextRewardEpochId (OFFERS h) 75000000 w with
    | (Returned _, w1) =>
        (Ok tt, w1,
         [Setup (OfferRewards nextRewardEpochId (OFFERS h) 75000000) SDone;
          Core (Logged "offerRewards" LInfo "Rewards offered")])
    | (Failed e, w1) =>
        (Ok tt, w1,
         [Setup (OfferRewards nextRewardEpochId (OFFERS h) 75000000) (SRejected e);
          Core (Logged "offerRewards" LError ("Rewards not offered: " +:+ e))])
    end.
Proof.
  unfold task_try_catch. rewrite task_run_await. rewrite totalRewards_OFFERS.
  by destruct (ftsoRewardOffersManager_offerRewards h _ _ _ w) as [[[]|e] w1].
Qed.

Lemma runOfferRewards_forced fuel eventStore epoch w :
  runOfferRewards h rt epochSettings fuel eventStore (Some epoch) w
  = match ftsoRewardOffersManager_offerRewards h epoch (OFFERS h) 75000000 w with
    | (Returned _, w1) =>
        (Ok tt, w1,
         [Setup (OfferRewards epoch (OFFERS h) 75000000) SDone;
          Core (Logged "offerRewards" LInfo "Rewards offered")])
    | (Failed e, w1) =>
        (Ok tt, w1,
         [Setup (OfferRewards epoch (OFFERS h) 75000000) (SRejected e);
          Core (Logged "offerRewards" LError ("Rewards not offered: " +:+ e))])
    end.
Proof.
  unfold runOfferRewards. rewrite task_run_ret, task_run_ret. apply offer_block.
Qed.

Lemma runOfferRewards_scheduled fuel w :
  let epoch := rewardEpochForTime epochSettings (clock w) + 1 in
  let wait := awaitEvent rt fuel (epoch - 1) "RewardEpochStarted" (ret tt) w in
  let waiting :=
    Core (Logged "offerRewards" LInfo
            ("Waiting for reward epoch " +:+ pretty (epoch - 1) +:+ " to start"))
      :: map Core (traceOf wait) in
  runOfferRewards h rt epochSettings fuel true None w
  = match resultOf wait with
    | Ok _ =>
        match ftsoRewardOffersManager_offerRewards h epoch (OFFERS h) 75000000 (worldOf wait)
        with
        | (Returned _, w1) =>
            (Ok tt, w1,
             waiting ++
             [Setup (OfferRewards epoch (OFFERS h) 75000000) SDone;
              Core (Logged "offerRewards" LInfo "Rewards offered")])
        | (Failed e, w1) =>
            (Ok tt, w1,
             waiting ++
             [Setup (OfferRewards epoch (OFFERS h) 75000000) (SRejected e);
              Core (Logged "offerRewards" LError ("Rewards not offered: " +:+ e))])
        end
    | Thrown e => (Thrown e, worldOf wait, waiting)
    | Pending => (Pending, worldOf wait, waiting)
    end.
Proof.
  intros epoch wait waiting. unfold runOfferRewards.
  rewrite task_run_bind_assoc, task_run_Date_now.
  rewrite task_run_ret. fold epoch.
  rewrite !task_run_bind_assoc, task_run_logInfo.
  rewrite task_run_lift. fold wait.
  destruct (resultOf wait) as [[]|e|] eqn:Ew; cbn [taskResult taskWorld taskSteps fst snd];
    try reflexivity.
  rewrite offer_block.
  by destruct (ftsoRewardOffersManager_offerRewards h _ _ _ (worldOf wait)) as [[[]|e] w1].
Qed.

Lemma runOfferRewards_without_store fuel w :
  runOfferRewards h rt epochSettings fuel false None w
  = (Thrown "TypeError: Cannot read properties of undefined (reading 'rewardEpochEvents')",
     w,
     [Core (Logged "offerRewards" LInfo
              ("Waiting for reward epoch "
                 +:+ pretty (rewardEpochForTime epochSettings (clock w) + 1 - 1)
                 +:+ " to start"))]).
Proof.
  unfold runOfferRewards.
  rewrite task_run_bind_assoc, task_run_Date_now.
  rewrite task_run_ret.
  by rewrite !task_run_bind_assoc, task_run_logInfo.
Qed.

End OfferRewardsFacts.

(** X11. [runOfferRewards] (lines 533-560) makes at most one offer and
    catches its rejection.  Either it returns, after exactly one
    [offerRewards] call, for the forced epoch (a forced epoch 0 included) or
    else for the epoch after the one of the clock on entry, with the total of
    the amounts of [OFFERS], 75000000, as value, and its last step is the
    line logged for the answer: "Rewards offered", or at error level
    "Rewards not offered: " and the rejection.  Or no epoch is forced and no
    offer is made: the wait for "RewardEpochStarted" has not ended, or no
    event store was passed and reading it throws.  With a forced epoch it
    neither waits nor sleeps. *)
Theorem runOfferRewards_offers_once_and_catches {Chain : Type}
    (h : @Harness Chain) (rt : @Runtime Chain) (epochSettings : EpochSettings)
    (fuel : nat) (eventStore : bool) (forceEpoch : option Z) (w : @World Chain) :
  let run := runOfferRewards h rt epochSettings fuel eventStore forceEpoch w in
  let epoch := default (rewardEpochForTime epochSettings (clock w) + 1) forceEpoch in
  ((taskResult run = Ok tt
    /\ exists a,
         setupExchanges (taskSteps run) = [(OfferRewards epoch (OFFERS h) 75000000, a)]
         /\ is_Some (offerReport a)
         /\ last (taskSteps run) = offerReport a)
   \/ (forceEpoch = None
       /\ setupExchanges (taskSteps run) = []
       /\ (if eventStore then taskResult run = Pending
           else taskResult run
                = Thrown "TypeError: Cannot read properties of undefined (reading 'rewardEpochEvents')")))
  /\ (is_Some forceEpoch -> taskResult run = Ok tt /\ calls (coreSteps (taskSteps run)) = []).
Proof.
  intros run epoch. subst run epoch. destruct forceEpoch as [n|]; cbn [default].
  - rewrite runOfferRewards_forced.
    destruct (ftsoRewardOffersManager_offerRewards h n (OFFERS h) 75000000 w) as [[[]|e] w1];
      (split; [left; split; [done|]; eexists; repeat split; by eexists|done]).
  - split; [|by intros [x Hx]].
    destruct eventStore.
    + rewrite runOfferRewards_scheduled. cbn zeta.
      set (wait := awaitEvent rt fuel _ _ _ w).
      assert (forall e, resultOf wait <> Thrown e) as Hnot.
      { apply (awaitEvent_clean rt (fun _ => None)); [done|]. intros w1. split; [done|constructor]. }
      destruct (resultOf wait) as [[]|e|] eqn:Ew.
      * left.
        assert (forall x t (tail : list Step),
                  setupExchanges ((Core x :: map Core t) ++ tail) = setupExchanges tail) as Hse.
        { intros x t tail. rewrite setupExchanges_app.
          change (Core x :: map Core t) with (map Core (x :: t)).
          by rewrite setupExchanges_Core. }
        destruct (ftsoRewardOffersManager_offerRewards h _ (OFFERS h) 75000000 (worldOf wait))
          as [[[]|e] w1]; cbn [taskResult taskSteps fst snd]; (split; [done|]).
        -- exists SDone. rewrite Hse. split; [done|]. split; [by eexists|].
           apply last_two.
        -- exists (SRejected e). rewrite Hse. split; [done|]. split; [by eexists|].
           apply last_two.
      * by destruct (Hnot e).
      * right. cbn [taskResult taskSteps fst snd]. split; [done|]. split; [|done].
        apply (setupExchanges_Core (_ :: traceOf wait)).
    + rewrite runOfferRewards_without_store. right. by cbn.
Qed.

(** ** The initial signing policy *)

Section InitialPolicyFacts.
Context {Chain : Type}.
Variable c : @DeployedContracts Chain.
Variable h : @Harness Chain.
Variable web3 : @Web3 Chain.
Variable rt : @Runtime Chain.
Variable epochSettings : EpochSettings.
Implicit Types (w : @World Chain) (accs : list RegisteredAccount).

Lemma registrations_app s1 s2 : registrations (s1 ++ s2) = registrations s1 ++ registrations s2.
Proof. unfold registrations. by rewrite coreSteps_app, calls_app, List.filter_app. Qed.

Lemma registrations_setup call a s : registrations (Setup call a :: s) = registrations s.
Proof. reflexivity. Qed.

Lemma registrations_logged logger lvl msg s :
  registrations (Core (Logged logger lvl msg) :: s) = registrations s.
Proof. reflexivity. Qed.

Lemma registrations_Core t :
  registrations (map Core t) = List.filter isRegisterVoter (calls t).
Proof. unfold registrations. by rewrite coreSteps_Core. Qed.

Lemma registerEach_cons rewardEpochId acc rest w :
  registerEach c web3 rewardEpochId (acc :: rest) w
  = match voterRegistry_registerVoter c (address (identity acc))
            (eth_accounts_sign web3
               (utils_keccak256 web3
                  (eth_abi_encodeParameters_uint24_address web3 rewardEpochId
                     (address (identity acc))))
               (privateKey (signingPolicy acc)))
            (address (submitSignatures acc)) w with
    | (Returned _, w1) =>
        let R := registerEach c web3 rewardEpochId rest w1 in
        (resultOf R, worldOf R,
         Called (registrationRequest web3 rewardEpochId acc) Done :: traceOf R)
    | (Failed e, w1) =>
        (Thrown e, w1, [Called (registrationRequest web3 rewardEpochId acc) (Rejected e)])
    end.
Proof.
  cbn [registerEach]. unfold registerVoter, registrationRequest. rewrite run_await.
  by destruct (voterRegistry_registerVoter c _ _ _ w) as [[[]|e] w1].
Qed.

(** The loop of lines 722-724 registers the participants in order, all of
    them when it returns, and stops at the first rejection. *)
Lemma registerEach_calls rewardEpochId accs w :
  let R := registerEach c web3 rewardEpochId accs w in
  List.filter isRegisterVoter (calls (traceOf R))
    `prefix_of` map (registrationRequest web3 rewardEpochId) accs
  /\ (resultOf R = Ok tt ->
      List.filter isRegisterVoter (calls (traceOf R))
        = map (registrationRequest web3 rewardEpochId) accs)
  /\ resultOf R <> Pending.
Proof.
  revert w. induction accs as [|acc rest IH]; intros w.
  { by repeat split. }
  cbn zeta. rewrite registerEach_cons.
  destruct (voterRegistry_registerVoter c _ _ _ w) as [[[]|e] w1].
  - destruct (IH w1) as (H1 & H2 & H3). cbn zeta.
    cbn [resultOf worldOf traceOf fst snd].
    change (calls (Called ?a ?b :: ?t)) with (a :: calls t).
    cbn [List.filter isRegisterVoter registrationRequest map].
    split; [by apply prefix_cons|]. split; [|done].
    intros Hr. f_equal. by apply H2.
  - cbn [resultOf worldOf traceOf fst snd]. split; [|by split].
    change (calls [Called ?a ?b]) with [a].
    cbn [List.filter isRegisterVoter registrationRequest map].
    apply prefix_cons, prefix_nil.
Qed.

Lemma fakeFinalize_no_registration accs now w :
  List.filter isRegisterVoter (calls (traceOf (fakeFinalize c web3 rt epochSettings accs now w)))
  = []
  /\ resultOf (fakeFinalize c web3 rt epochSettings accs now w) <> Pending.
Proof.
  destruct (fakeFinalize_trace c web3 rt epochSettings accs now w) as [H Hr]. split.
  - apply quietFor_filter. eapply Forall_impl; [exact H|]. by intros [[] a|lg lv msg].
  - destruct Hr as [->|[_ ->]]; done.
Qed.

Lemma runOfferRewards_forced_steps fuel eventStore epoch w :
  exists a report w1,
    runOfferRewards h rt epochSettings fuel eventStore (Some epoch) w
    = (Ok tt, w1, [Setup (OfferRewards epoch (OFFERS h) 75000000) a; Core report])
    /\ registrations [Core report] = [].
Proof.
  rewrite runOfferRewards_forced.
  destruct (ftsoRewardOffersManager_offerRewards h epoch (OFFERS h) 75000000 w)
    as [[[]|e] w1]; by eexists _, _, _.
Qed.

Lemma followsPlan_prefix plan0 regs0 plan regs Q s0 (r : Result unit) w s :
  setupCalls s0 = plan0 -> registrations s0 = regs0 ->
  followsPlan plan regs (fun w' s' => Q w' (s0 ++ s')) (r, w, s) ->
  followsPlan (plan0 ++ plan) (regs0 ++ regs) Q (r, w, s0 ++ s).
Proof.
  intros <- <- (H1 & H2 & H3 & H4).
  unfold followsPlan, taskResult, taskWorld, taskSteps in *. cbn [fst snd] in *.
  rewrite setupCalls_app, registrations_app.
  split; [by apply prefix_app|]. split; [by apply prefix_app|]. split; [done|].
  intros Hr. destruct (H4 Hr) as (-> & -> & HQ). done.
Qed.

Lemma followsPlan_stop plan regs Q (r : Result unit) w s :
  setupCalls s `prefix_of` plan -> registrations s `prefix_of` regs ->
  r <> Pending -> r <> Ok tt ->
  followsPlan plan regs Q (r, w, s).
Proof. intros H1 H2 H3 H4. by repeat split. Qed.

Lemma followsPlan_throw plan regs Q e w :
  followsPlan plan regs Q (task_throw e w).
Proof. apply followsPlan_stop; try done; apply prefix_nil. Qed.

Lemma followsPlan_await {A} call (inj : A -> SetupAnswer) ext (k : A -> Task unit)
    plan regs Q w :
  (forall a w1, ext w = (Returned a, w1) ->
     followsPlan plan regs (fun w' s => Q w' (Setup call (inj a) :: s)) (k a w1)) ->
  followsPlan (call :: plan) regs Q ((task_await call inj ext ≫= k) w).
Proof.
  intros Hk. rewrite task_run_await. destruct (ext w) as [[a|e] w1].
  - specialize (Hk a w1 eq_refl).
    apply (followsPlan_prefix [call] [] plan regs Q [Setup call (inj a)]); [done|done|].
    by rewrite <- task_eta.
  - apply followsPlan_stop; try done; [apply prefix_cons, prefix_nil|apply prefix_nil].
Qed.

(** A computation of the drivers inside a task: [regs0] are the
    registrations it makes when it returns. *)
Lemma followsPlan_lift {A} (m : M A) (k : A -> Task unit) regs0 plan regs Q w :
  List.filter isRegisterVoter (calls (traceOf (m w))) `prefix_of` regs0 ->
  (forall a, resultOf (m w) = Ok a ->
     List.filter isRegisterVoter (calls (traceOf (m w))) = regs0) ->
  resultOf (m w) <> Pending ->
  (forall a w1 t, m w = (Ok a, w1, t) ->
     followsPlan plan regs (fun w' s => Q w' (map Core t ++ s)) (k a w1)) ->
  followsPlan plan (regs0 ++ regs) Q ((lift m ≫= k) w).
Proof.
  intros Hpre Hok Hnp Hk. rewrite task_run_lift.
  destruct (m w) as [[[a|e|] w1] t1]; unfold resultOf, worldOf, traceOf in *; simpl in *.
  - specialize (Hk a w1 t1 eq_refl).
    apply (followsPlan_prefix [] regs0 plan regs Q (map Core t1)).
    + apply setupCalls_Core.
    + rewrite registrations_Core. by apply (Hok a).
    + by rewrite <- task_eta.
  - apply followsPlan_stop; try done.
    + rewrite setupCalls_Core. apply prefix_nil.
    + rewrite registrations_Core. by apply prefix_app_r.
  - done.
Qed.

Lemma followsPlan_lift_quiet {A} (m : M A) (k : A -> Task unit) plan regs Q w :
  List.filter isRegisterVoter (calls (traceOf (m w))) = [] ->
  resultOf (m w) <> Pending ->
  (forall a w1 t, m w = (Ok a, w1, t) ->
     followsPlan plan regs (fun w' s => Q w' (map Core t ++ s)) (k a w1)) ->
  followsPlan plan regs Q ((lift m ≫= k) w).
Proof.
  intros Hq Hnp Hk.
  apply (followsPlan_lift m k [] plan regs Q w); [by rewrite Hq|done|done|done].
Qed.

Lemma followsPlan_lift_all (m : M unit) (k : unit -> Task unit) plan regs Q w :
  List.filter isRegisterVoter (calls (traceOf (m w))) `prefix_of` regs ->
  (resultOf (m w) = Ok tt -> List.filter isRegisterVoter (calls (traceOf (m w))) = regs) ->
  resultOf (m w) <> Pending ->
  (forall a w1 t, m w = (Ok a, w1, t) ->
     followsPlan plan [] (fun w' s => Q w' (map Core t ++ s)) (k a w1)) ->
  followsPlan plan regs Q ((lift m ≫= k) w).
Proof.
  intros Hpre Hok Hnp Hk. rewrite <- (app_nil_r regs).
  apply (followsPlan_lift m k regs plan [] Q w); [done|by intros []|done|done].
Qed.

Lemma followsPlan_after plan regs Q call a report (r : Result unit) w s :
  registrations [Core report] = [] ->
  followsPlan plan regs (fun w' s' => Q w' ([Setup call a; Core report] ++ s')) (r, w, s) ->
  followsPlan (call :: plan) regs Q (r, w, [Setup call a; Core report] ++ s).
Proof.
  intros Hrep H.
  by apply (followsPlan_prefix [call] [] plan regs Q [Setup call a; Core report]).
Qed.

Lemma followsPlan_lift_await {A} call (inj : A -> Answer) ext (k : A -> Task unit)
    plan regs Q w :
  isRegisterVoter call = false ->
  (forall a w1, ext w = (Returned a, w1) ->
     followsPlan plan regs (fun w' s => Q w' (Core (Called call (inj a)) :: s)) (k a w1)) ->
  followsPlan plan regs Q ((lift (await call inj ext) ≫= k) w).
Proof.
  intros Hc Hk.
  apply (followsPlan_lift (await call inj ext) k [] plan regs Q w).
  - unfold await. destruct (ext w) as [[a|e] w1]; cbn; rewrite Hc; done.
  - intros a _. unfold await. destruct (ext w) as [[a'|e] w1]; cbn; by rewrite Hc.
  - unfold await. by destruct (ext w) as [[a'|e] w1].
  - intros a w1 t Ha. unfold await in Ha. destruct (ext w) as [[a'|e] w1'] eqn:E; [|done].
    injection Ha as -> -> <-. by apply Hk.
Qed.

Lemma task_run_throw {B} e (k : unit -> Task B) w :
  (task_throw e ≫= k) w = (Thrown e, w, []).
Proof. reflexivity. Qed.

Lemma task_run_bind_ok {A B} (m : Task A) (k : A -> Task B) w a w1 s1 :
  m w = (Ok a, w1, s1) ->
  (m ≫= k) w = (taskResult (k a w1), taskWorld (k a w1), s1 ++ taskSteps (k a w1)).
Proof. intros Hm. rewrite task_run_bind, Hm. by destruct (k a w1) as [[r w2] s2]. Qed.

(** What a run of [defineInitialSigningPolicy] did. *)
Lemma defineInitialSigningPolicy_follows fuel rewardEpochStart timing accs governanceAccount
    w :
  followsPlan (setupPlan h rewardEpochStart timing) (map (registrationRequest web3 1) accs)
    (initialPolicySigned c h web3 governanceAccount)
    (defineInitialSigningPolicy c h web3 rt epochSettings fuel rewardEpochStart timing accs
       governanceAccount w).
Proof.
  unfold defineInitialSigningPolicy, setupPlan, increaseTo, daemonize.
  destruct (runOfferRewards_forced_steps fuel false 1 w) as (a0 & report & w0 & E0 & Hrep).
  rewrite (task_run_bind_ok _ _ _ _ _ _ E0).
  apply followsPlan_after; [exact Hrep|].
  rewrite <- task_eta.
  apply followsPlan_await. intros _ w1 _.
  apply followsPlan_await. intros resp w2 _.
  destruct (firstEventIs "RandomAcquisitionStarted" (tx_logs resp)); cbn [negb];
    [|apply followsPlan_throw].
  apply followsPlan_await. intros latest w3 _.
  destruct (fakeFinalize_no_registration
              [governanceAsVoter governanceAccount] (latest * 1000) w3) as [Hff1 Hff2].
  apply followsPlan_lift_quiet; [done|done|]. intros _ w4 ff _.
  apply followsPlan_await. intros _ w5 _.
  apply followsPlan_await. intros resp2 w6 _.
  destruct (firstEventIs "VotePowerBlockSelected" (tx_logs resp2)); cbn [negb];
    [|apply followsPlan_throw].
  destruct (registerEach_calls 1 accs w6) as (Hr1 & Hr2 & Hr3).
  apply followsPlan_lift_all; [done|done|done|].
  intros _ w7 regs _.
  apply followsPlan_await. intros _ w8 _.
  apply followsPlan_await. intros resp3 w9 _.
  destruct (decodeRawLogs h resp3 RelayContract "SigningPolicyInitialized")
    as [|eventLog decoded] eqn:Ed; [apply followsPlan_throw|].
  destruct (String.eqb (event eventLog) "SigningPolicyInitialized"); cbn [negb].
  2:{ rewrite task_run_throw. apply followsPlan_stop; try done; apply prefix_nil. }
  destruct (extractSigningPolicy (args eventLog)) as [signingPolicy|] eqn:Ex.
  2:{ rewrite task_run_throw. apply followsPlan_stop; try done; apply prefix_nil. }
  rewrite task_run_modify.
  apply followsPlan_lift_await; [done|]. intros hash w10 Eh.
  apply followsPlan_lift_await; [done|]. intros logs w11 El.
  destruct logs as [|log0 logs]; [apply followsPlan_throw|].
  destruct (String.eqb (event log0) "SigningPolicySigned") eqn:Eev; cbn [negb];
    [|apply followsPlan_throw].
  destruct (thresholdReached (args log0)) eqn:Eth; cbn [negb];
    [|apply followsPlan_throw].
  split; [done|]. split; [done|]. split; [done|]. intros _.
  split; [done|]. split; [done|].
  cbn [taskWorld taskSteps task_ret fst snd].
  exists resp3, eventLog, decoded, signingPolicy, w9, hash, w10, (log0 :: logs).
  split.
  { repeat first [ rewrite setupExchanges_app | rewrite setupExchanges_Core
                 | rewrite setupExchanges_setup | rewrite setupExchanges_core ].
    reflexivity. }
  split; [exact Ed|]. split; [exact Ex|]. split; [exact Eh|]. split; [exact El|].
  split.
  { repeat first [ rewrite last_app | rewrite last_cons ]. reflexivity. }
  cbn. by rewrite Eev, Eth.
Qed.

End InitialPolicyFacts.

(** X12. [defineInitialSigningPolicy] (lines 685-760) follows one plan.  Its
    setup calls are always a prefix of: the reward offer for epoch 1, then
    three times a move of the network time followed by [daemonize], with
    [time.latest] read after the first.  The participants are registered in
    the order of [registeredAccounts], for reward epoch 1 and without regard
    to the skip-sets.  It never waits.  When it returns, the whole plan was
    carried out, every participant was registered, and its last step is the
    signature of governance, answered with "SigningPolicySigned" and the
    threshold reached. *)
Theorem defineInitialSigningPolicy_follows_its_plan {Chain : Type}
    (c : @DeployedContracts Chain) (h : @Harness Chain) (web3 : @Web3 Chain)
    (rt : @Runtime Chain) (epochSettings : EpochSettings) (fuel : nat) (rewardEpochStart : Z)
    (timing : EpochTiming) (accs : list RegisteredAccount) (governanceAccount : Account)
    (w : @World Chain) :
  let run :=
    defineInitialSigningPolicy c h web3 rt epochSettings fuel rewardEpochStart timing accs
      governanceAccount w in
  setupCalls (taskSteps run) `prefix_of` setupPlan h rewardEpochStart timing
  /\ registrations (taskSteps run) `prefix_of` map (registrationRequest web3 1) accs
  /\ taskResult run <> Pending
  /\ (taskResult run = Ok tt ->
      setupCalls (taskSteps run) = setupPlan h rewardEpochStart timing
      /\ registrations (taskSteps run) = map (registrationRequest web3 1) accs
      /\ exists hash logs,
           last (taskSteps run)
           = Some (Core (Called
               (SignNewSigningPolicy 1 hash
                  (eth_accounts_sign web3 hash (privateKey governanceAccount))
                  (address governanceAccount))
               (Logs logs)))
           /\ reportsThreshold (Logs logs) = true).
Proof.
  intros run.
  destruct (defineInitialSigningPolicy_follows c h web3 rt epochSettings fuel rewardEpochStart
              timing accs governanceAccount w) as (H1 & H2 & H3 & H4).
  fold run in H1, H2, H3, H4. repeat (split; [done|]).
  intros Hok. destruct (H4 Hok) as (H5 & H6 & resp3 & eventLog & decoded & signingPolicy & w3
                                    & hash & w4 & logs & _ & _ & _ & _ & _ & Hlast & Hthr).
  repeat (split; [done|]). by exists hash, logs.
Qed.

(** X13. When [defineInitialSigningPolicy] returns, the signing policy it
    decoded from the relay logs of its last [daemonize] is in
    [signingPolicies] under the key 1 (line 740), whatever reward epoch the
    policy itself names, provided the two calls that follow (the read of the
    policy hash and the signature) leave the map alone. *)
Theorem defineInitialSigningPolicy_stores_the_policy_under_1 {Chain : Type}
    (c : @DeployedContracts Chain) (h : @Harness Chain) (web3 : @Web3 Chain)
    (rt : @Runtime Chain) (epochSettings : EpochSettings) (fuel : nat) (rewardEpochStart : Z)
    (timing : EpochTiming) (accs : list RegisteredAccount) (governanceAccount : Account)
    (w : @World Chain) :
  let run :=
    defineInitialSigningPolicy c h web3 rt epochSettings fuel rewardEpochStart timing accs
      governanceAccount w in
  (forall e w', signingPolicies (relay_toSigningPolicyHash c e w').2 = signingPolicies w') ->
  (forall e hash signature from w',
      signingPolicies (flareSystemsManager_signNewSigningPolicy c e hash signature from w').2
      = signingPolicies w') ->
  taskResult run = Ok tt ->
  exists resp3 eventLog signingPolicy,
    last (setupExchanges (taskSteps run)) = Some (Daemonize None, SResponse resp3)
    /\ head (decodeRawLogs h resp3 RelayContract "SigningPolicyInitialized") = Some eventLog
    /\ extractSigningPolicy (args eventLog) = Some signingPolicy
    /\ signingPolicies (taskWorld run) !! 1 = Some signingPolicy.
Proof.
  intros run Hhash Hsign Hok.
  destruct (defineInitialSigningPolicy_follows c h web3 rt epochSettings fuel rewardEpochStart
              timing accs governanceAccount w) as (_ & _ & _ & H4).
  fold run in H4.
  destruct (H4 Hok) as (_ & _ & resp3 & eventLog & decoded & signingPolicy & w3
                        & hash & w4 & logs & Hresp & Hdec & Hex & Eh & El & _ & _).
  exists resp3, eventLog, signingPolicy. split; [exact Hresp|].
  split; [by rewrite Hdec|]. split; [exact Hex|].
  pose proof (Hsign 1 hash (eth_accounts_sign web3 hash (privateKey governanceAccount))
                (address governanceAccount) w4) as Hs.
  rewrite El in Hs. cbn [snd] in Hs. rewrite Hs.
  pose proof (Hhash 1 (setSigningPolicyAt 1 signingPolicy w3)) as Hh.
  rewrite Eh in Hh. cbn [snd] in Hh. rewrite Hh.
  cbn [setSigningPolicyAt signingPolicies]. apply lookup_insert_eq.
Qed.

Lemma defineInitialSigningPolicy_stores_the_policy_under_1_witness :
  exists resp3 eventLog signingPolicy,
    last (setupExchanges (taskSteps
            (defineInitialSigningPolicy Demo3.contracts Demo3.harness Demo.web3 Demo.rt
               Demo.epochSettings 0 Demo.now0 Demo3.timing [Demo.V1; Demo.V2]
               Demo.governance Demo3.world)))
      = Some (Daemonize None, SResponse resp3)
    /\ head (decodeRawLogs Demo3.harness resp3 RelayContract "SigningPolicyInitialized")
       = Some eventLog
    /\ extractSigningPolicy (args eventLog) = Some signingPolicy
    /\ signingPolicies (taskWorld
         (defineInitialSigningPolicy Demo3.contracts Demo3.harness Demo.web3 Demo.rt
            Demo.epochSettings 0 Demo.now0 Demo3.timing [Demo.V1; Demo.V2]
            Demo.governance Demo3.world)) !! 1 = Some signingPolicy.
Proof.
  apply (defineInitialSigningPolicy_stores_the_policy_under_1 Demo3.contracts Demo3.harness
           Demo.web3 Demo.rt Demo.epochSettings 0 Demo.now0 Demo3.timing [Demo.V1; Demo.V2]
           Demo.governance Demo3.world).
  - intros e w'. reflexivity.
  - intros e hash signature from w'. reflexivity.
  - vm_compute. reflexivity.
Defined.

Lemma timeTargets_prefix (s : list Step) (plan : list SetupCall) :
  setupCalls s `prefix_of` plan ->
  timeTargets s
    `prefix_of` omap (fun call => match call with
                                  | IncreaseTo timestamp => Some timestamp
                                  | _ => None
                                  end) plan.
Proof. intros [k ->]. unfold timeTargets. rewrite omap_app. by eexists. Qed.

(** X14. [defineInitialSigningPolicy] never asks the network to go back in
    time: when [newSigningPolicyInitializationStartSeconds] is positive and
    [voterRegistrationMinDurationSeconds] is above -5, the timestamps it
    passes to [time.increaseTo] (lines 697-699, 712-715, 726-732) are
    strictly increasing, in every run, complete or not. *)
Theorem defineInitialSigningPolicy_moves_time_forward {Chain : Type}
    (c : @DeployedContracts Chain) (h : @Harness Chain) (web3 : @Web3 Chain)
    (rt : @Runtime Chain) (epochSettings : EpochSettings) (fuel : nat) (rewardEpochStart : Z)
    (timing : EpochTiming) (accs : list RegisteredAccount) (governanceAccount : Account)
    (w : @World Chain) (i j : nat) (earlier later : Z) :
  0 < newSigningPolicyInitializationStartSeconds timing ->
  -5 < voterRegistrationMinDurationSeconds timing ->
  let targets :=
    timeTargets (taskSteps
      (defineInitialSigningPolicy c h web3 rt epochSettings fuel rewardEpochStart timing accs
         governanceAccount w)) in
  (i < j)%nat -> targets !! i = Some earlier -> targets !! j = Some later ->
  earlier < later.
Proof.
  intros Hn Hv targets Hij Hi Hj.
  destruct (defineInitialSigningPolicy_follows c h web3 rt epochSettings fuel rewardEpochStart
              timing accs governanceAccount w) as (Hpre & _).
  apply timeTargets_prefix in Hpre. fold targets in Hpre. cbn in Hpre.
  pose proof (prefix_lookup_Some _ _ _ _ Hi Hpre) as Hi'.
  pose proof (prefix_lookup_Some _ _ _ _ Hj Hpre) as Hj'.
  unfold randomAcquisitionTime, votePowerBlockTime, initializationTime in Hi', Hj'.
  pose proof (Z.div_lt (newSigningPolicyInitializationStartSeconds timing) 2 Hn ltac:(lia)).
  destruct i as [|[|[|i]]], j as [|[|[|j]]]; simpl in Hi', Hj'; simplify_eq; lia.
Qed.

Lemma defineInitialSigningPolicy_moves_time_forward_witness :
  Demo.now0 + (REWARD_EPOCH_DURATION_IN_SEC - 45) < Demo.now0 + (REWARD_EPOCH_DURATION_IN_SEC - 22).
Proof.
  apply (defineInitialSigningPolicy_moves_time_forward Demo3.contracts Demo3.harness
           Demo.web3 Demo.rt Demo.epochSettings 0 Demo.now0 Demo3.timing [Demo.V1; Demo.V2]
           Demo.governance Demo3.world 0 1).
  - reflexivity.
  - reflexivity.
  - lia.
  - vm_compute. reflexivity.
  - vm_compute. reflexivity.
Defined.

(** ** The watcher loop *)

Section WatcherFacts.
Context {Chain : Type}.
Variable h : @Harness Chain.
Variable rt : @Runtime Chain.
Variable epochSettings : EpochSettings.
Implicit Types (w : @World Chain).

Lemma storeGrows_refl w : storeGrows w w.
Proof. split; [lia|]. split; [done|done]. Qed.

Lemma storeGrows_same w w' :
  events w' = events w -> signingPolicies w' = signingPolicies w -> storeGrows w w'.
Proof. intros He Hs. unfold storeGrows. rewrite He, Hs. apply storeGrows_refl. Qed.

Lemma storeGrows_trans w1 w2 w3 : storeGrows w1 w2 -> storeGrows w2 w3 -> storeGrows w1 w3.
Proof.
  intros (H1 & H2 & H3) (H4 & H5 & H6). split; [lia|]. split.
  - intros e. etransitivity; [apply H2|apply H5].
  - intros e He. by apply H6, H3.
Qed.

Lemma processLog_policies log timestamp w rewardEpoch :
  is_Some (signingPolicies w !! rewardEpoch) ->
  is_Some (signingPolicies (worldOf (processLog rt epochSettings log timestamp w))
             !! rewardEpoch).
Proof.
  intros Hs. unfold processLog.
  destruct (String.eqb (event log) "NewVotingRoundInitiated"); [done|].
  destruct (String.eqb (event log) "SigningPolicyInitialized"); [|done].
  destruct (extractSigningPolicy (args log)) as [p|]; [|done].
  cbn. by apply lookup_insert_is_Some'; right.
Qed.

Lemma processLog_grows log timestamp w :
  storeGrows w (worldOf (processLog rt epochSettings log timestamp w)).
Proof.
  split; [apply processLog_monotone|]. split; [|by apply processLog_policies].
  intros e. rewrite processLog_events.
  destruct (String.eqb (event log) "NewVotingRoundInitiated").
  - unfold markRoundInitialized. by destruct (_ >? _).
  - cbn [rewardEpochEvents]. unfold recordEvent.
    destruct (decide (rewardEpochForTime epochSettings (timestamp * 1000) = e)) as [->|Hne].
    + rewrite lookup_insert_eq. cbn [default]. by apply prefix_app_r.
    + by rewrite lookup_insert_ne.
Qed.

Lemma processLogs_grows logs timestamp w :
  storeGrows w (worldOf (processLogs rt epochSettings logs timestamp w))
  /\ resultOf (processLogs rt epochSettings logs timestamp w) <> Pending.
Proof.
  revert w. induction logs as [|log rest IH]; intros w; cbn [processLogs].
  { split; [apply storeGrows_refl|done]. }
  pose proof (processLog_grows log timestamp w) as H1.
  pose proof (processLog_never_pending rt epochSettings log timestamp w) as H2.
  rewrite run_bind.
  destruct (processLog rt epochSettings log timestamp w) as [[[[]|e|] w1] t1];
    unfold resultOf, worldOf in *; cbn [fst snd] in *; [|by split|done].
  destruct (IH w1) as [H3 H4].
  destruct (processLogs rt epochSettings rest timestamp w1) as [[r w2] t2];
    cbn [fst snd] in *.
  split; [by apply (storeGrows_trans w w1 w2)|done].
Qed.

Lemma lift_bind {A B} (m : M A) (k : A -> M B) w :
  (lift m ≫= λ a, lift (k a)) w = lift (m ≫= k) w.
Proof.
  rewrite task_run_lift, lift_run, run_bind.
  destruct (m w) as [[[a|e|] w1] t1]; unfold resultOf, worldOf, traceOf; cbn [fst snd];
    try done.
  rewrite lift_run.
  destruct (k a w1) as [[r w2] t2]; unfold resultOf, worldOf, traceOf; cbn [fst snd].
  by rewrite map_app.
Qed.

Lemma task_bind_ext {A B} (m m' : Task A) (k : A -> Task B) w :
  (forall w0, m w0 = m' w0) -> (m ≫= k) w = (m' ≫= k) w.
Proof. intros H. by rewrite !task_run_bind, H. Qed.

(** One turn of the watcher: the two reads and then the processing of the
    logs and the sleep, which are computations on the store. *)
Lemma watcherTurn_run w :
  watcherTurn h rt epochSettings w
  = match flareSystemsManager_daemonize h (Some 20000000) w with
    | (Failed e, w1) => (Thrown e, w1, [Setup (Daemonize (Some 20000000)) (SRejected e)])
    | (Returned response, w1) =>
        match eth_getBlock_timestamp h (tx_receipt_blockNumber response) w1 with
        | (Failed e, w2) =>
            (Thrown e, w2,
             [Setup (Daemonize (Some 20000000)) (SResponse response);
              Setup (GetBlock (tx_receipt_blockNumber response)) (SRejected e)])
        | (Returned blockTimestamp, w2) =>
            let body :=
              ((if (0 <? length (tx_logs response))%nat then
                  processLogs rt epochSettings (tx_logs response) blockTimestamp ;;
                  processLogs rt epochSettings
                    (decodeRawLogs h response FtsoRewardOffersManagerContract
                       "InflationRewardsOffered")
                    blockTimestamp
                else
                  processLogs rt epochSettings
                    (decodeRawLogs h response RelayContract "SigningPolicyInitialized")
                    blockTimestamp) ;;
               sleep rt 500) w2 in
            (resultOf body, worldOf body,
             Setup (Daemonize (Some 20000000)) (SResponse response)
               :: Setup (GetBlock (tx_receipt_blockNumber response)) (SNum blockTimestamp)
               :: map Core (traceOf body))
        end
    end.
Proof.
  unfold watcherTurn. rewrite task_run_await.
  destruct (flareSystemsManager_daemonize h (Some 20000000) w) as [[response|e] w1]; [|done].
  rewrite task_run_await.
  destruct (eth_getBlock_timestamp h (tx_receipt_blockNumber response) w1)
    as [[blockTimestamp|e] w2]; [|done].
  cbn [taskResult taskWorld taskSteps fst snd]. cbn zeta.
  destruct (0 <? length (tx_logs response))%nat.
  - rewrite (task_bind_ext _ _ _ _ (lift_bind _ _)), lift_bind, lift_run. reflexivity.
  - rewrite lift_bind, lift_run. reflexivity.
Qed.

Lemma then_sleep_grows (m : M unit) w :
  (forall ms w', storeGrows w' (setTimeout_resolve rt ms w')) ->
  storeGrows w (worldOf (m w)) ->
  storeGrows w (worldOf ((m ;; sleep rt 500) w)).
Proof.
  intros Hsleep Hm. rewrite run_bind.
  destruct (m w) as [[[[]|e|] w1] t1]; unfold worldOf in *; cbn [fst snd] in *; try done.
  cbn [sleep fst snd]. apply (storeGrows_trans w w1); [done|apply Hsleep].
Qed.

Lemma then_sleep_not_pending (m : M unit) w :
  resultOf (m w) <> Pending -> resultOf ((m ;; sleep rt 500) w) <> Pending.
Proof.
  intros Hm. rewrite run_bind.
  by destruct (m w) as [[[[]|e|] w1] t1].
Qed.

Lemma two_processLogs_grow logs1 logs2 blockTimestamp w :
  let run :=
    (processLogs rt epochSettings logs1 blockTimestamp ;;
     processLogs rt epochSettings logs2 blockTimestamp) w in
  storeGrows w (worldOf run) /\ resultOf run <> Pending.
Proof.
  cbn zeta.
  destruct (processLogs_grows logs1 blockTimestamp w) as [H1 H2]. rewrite run_bind.
  destruct (processLogs rt epochSettings logs1 blockTimestamp w) as [[[[]|e|] w1] t1];
    unfold resultOf, worldOf in *; cbn [fst snd] in *; [|by split|done].
  destruct (processLogs_grows logs2 blockTimestamp w1) as [H3 H4].
  destruct (processLogs rt epochSettings logs2 blockTimestamp w1) as [[r w2] t2];
    unfold resultOf, worldOf in *; cbn [fst snd] in *.
  split; [by apply (storeGrows_trans w w1 w2)|done].
Qed.

(** The processing part of a turn only extends the store, when the sleep
    does, and is never left waiting. *)
Lemma turn_body_grows (logs1 logs2 logs3 : list Log) (nonEmpty : bool) blockTimestamp w :
  let body :=
    ((if nonEmpty then
        processLogs rt epochSettings logs1 blockTimestamp ;;
        processLogs rt epochSettings logs2 blockTimestamp
      else processLogs rt epochSettings logs3 blockTimestamp) ;;
     sleep rt 500) w in
  ((forall ms w', storeGrows w' (setTimeout_resolve rt ms w')) ->
   storeGrows w (worldOf body))
  /\ resultOf body <> Pending.
Proof.
  cbn zeta. split.
  - intros Hsleep. apply then_sleep_grows; [done|].
    destruct nonEmpty; [apply two_processLogs_grow|apply processLogs_grows].
  - apply then_sleep_not_pending.
    destruct nonEmpty; [apply two_processLogs_grow|apply processLogs_grows].
Qed.

Lemma watcherTurn_grows w :
  (forall gas w', storeGrows w' (flareSystemsManager_daemonize h gas w').2) ->
  (forall blockNumber w', storeGrows w' (eth_getBlock_timestamp h blockNumber w').2) ->
  (forall ms w', storeGrows w' (setTimeout_resolve rt ms w')) ->
  storeGrows w (taskWorld (watcherTurn h rt epochSettings w)).
Proof.
  intros Hd Hg Hs. rewrite watcherTurn_run.
  pose proof (Hd (Some 20000000) w) as H1.
  destruct (flareSystemsManager_daemonize h (Some 20000000) w) as [[response|e] w1];
    cbn [snd] in H1; [|done].
  pose proof (Hg (tx_receipt_blockNumber response) w1) as H2.
  destruct (eth_getBlock_timestamp h (tx_receipt_blockNumber response) w1)
    as [[blockTimestamp|e] w2]; cbn [snd] in H2.
  2:{ by apply (storeGrows_trans w w1 w2). }
  cbn zeta. cbn [taskWorld fst snd].
  apply (storeGrows_trans w w2); [by apply (storeGrows_trans w w1 w2)|].
  by apply turn_body_grows.
Qed.

(** The setup exchanges of a turn, and how it ends. *)
Lemma watcherTurn_exchanges w :
  let turn := watcherTurn h rt epochSettings w in
  taskResult turn <> Pending
  /\ ((exists pre call e,
         setupExchanges (taskSteps turn) = pre ++ [(call, SRejected e)]
         /\ Forall (λ x, forall e', x.2 <> SRejected e') pre
         /\ taskResult turn = Thrown e)
      \/ (length (setupExchanges (taskSteps turn)) = 2%nat
          /\ Forall (λ x, forall e', x.2 <> SRejected e') (setupExchanges (taskSteps turn)))).
Proof.
  cbn zeta. rewrite watcherTurn_run.
  destruct (flareSystemsManager_daemonize h (Some 20000000) w) as [[response|e] w1].
  2:{ split; [done|]. left. by exists [], (Daemonize (Some 20000000)), e. }
  destruct (eth_getBlock_timestamp h (tx_receipt_blockNumber response) w1)
    as [[blockTimestamp|e] w2].
  2:{ split; [done|]. left.
      exists [(Daemonize (Some 20000000), SResponse response)],
        (GetBlock (tx_receipt_blockNumber response)), e.
      split; [done|]. split; [|done]. by repeat constructor. }
  cbn zeta. cbn [taskResult taskSteps fst snd].
  split.
  { apply turn_body_grows. }
  right. rewrite !setupExchanges_setup, setupExchanges_Core.
  split; [done|]. by repeat constructor.
Qed.

Lemma processLogs_without_policy logs timestamp w :
  Forall (λ log, event log <> "SigningPolicyInitialized") logs ->
  resultOf (processLogs rt epochSettings logs timestamp w) = Ok tt
  /\ signingPolicies (worldOf (processLogs rt epochSettings logs timestamp w))
     = signingPolicies w.
Proof.
  intros Hall. revert w. induction Hall as [|log rest Hlog Hrest IH]; intros w;
    cbn [processLogs]; [done|].
  pose proof (processLog_other_policies rt epochSettings log timestamp w Hlog) as Hp.
  assert (resultOf (processLog rt epochSettings log timestamp w) = Ok tt) as Hr.
  { apply String.eqb_neq in Hlog. unfold processLog.
    destruct (String.eqb (event log) "NewVotingRoundInitiated"); [done|].
    by rewrite Hlog. }
  rewrite run_bind.
  destruct (processLog rt epochSettings log timestamp w) as [[[[]|e|] w1] t1];
    unfold resultOf, worldOf in *; cbn [fst snd] in *; try done.
  destruct (IH w1) as [H1 H2].
  destruct (processLogs rt epochSettings rest timestamp w1) as [[r w2] t2];
    cbn [fst snd] in *. split; [done|congruence].
Qed.

Lemma watcher_S fuel w :
  watcher h rt epochSettings (S fuel) w
  = (watcherTurn h rt epochSettings ≫= λ _, watcher h rt epochSettings fuel) w.
Proof. reflexivity. Qed.

Lemma split_after_clean {A} (P : A -> Prop) (l r pre post : list A) (y : A) :
  Forall P l -> ~ P y -> l ++ r = pre ++ y :: post ->
  exists pre', pre = l ++ pre' /\ r = pre' ++ y :: post.
Proof.
  intros Hl Hy. revert pre. induction Hl as [|x l Hx Hl IH]; intros pre Heq.
  { by exists pre. }
  destruct pre as [|p pre]; simpl in Heq.
  - injection Heq as -> _. by destruct Hy.
  - injection Heq as -> Heq. destruct (IH pre Heq) as (pre' & -> & Hr). by exists pre'.
Qed.

Lemma watcher_grows fuel w :
  (forall gas w', storeGrows w' (flareSystemsManager_daemonize h gas w').2) ->
  (forall blockNumber w', storeGrows w' (eth_getBlock_timestamp h blockNumber w').2) ->
  (forall ms w', storeGrows w' (setTimeout_resolve rt ms w')) ->
  storeGrows w (taskWorld (watcher h rt epochSettings fuel w)).
Proof.
  intros Hd Hg Hs. revert w. induction fuel as [|fuel IH]; intros w.
  { apply storeGrows_refl. }
  rewrite watcher_S, task_run_bind.
  pose proof (watcherTurn_grows w Hd Hg Hs) as Hturn.
  destruct (watcherTurn h rt epochSettings w) as [[[[]|e|] w1] s1];
    unfold taskWorld in *; cbn [fst snd] in *; try done.
  specialize (IH w1).
  destruct (watcher h rt epochSettings fuel w1) as [[r w2] s2]; cbn [fst snd] in *.
  by apply (storeGrows_trans w w1 w2).
Qed.

Lemma watcher_ends fuel w :
  let run := watcher h rt epochSettings fuel w in
  taskResult run <> Ok tt
  /\ (forall pre call e post,
        setupExchanges (taskSteps run) = pre ++ (call, SRejected e) :: post ->
        taskResult run = Thrown e /\ post = [])
  /\ (taskResult run = Pending ->
      length (setupExchanges (taskSteps run)) = (2 * fuel)%nat).
Proof.
  cbn zeta. revert w. induction fuel as [|fuel IH]; intros w.
  { split; [done|]. split; [|done]. intros pre call e post Heq.
    by destruct pre. }
  rewrite watcher_S, task_run_bind.
  destruct (watcherTurn_exchanges w) as [Hnp Hturn]. cbn zeta in Hnp, Hturn.
  destruct (watcherTurn h rt epochSettings w) as [[[[]|e0|] w1] s1];
    unfold taskResult, taskSteps in *; cbn [fst snd] in *; [| |done].
  - destruct Hturn as [(pre0 & call0 & e0 & _ & _ & Hthrown)|[Hlen Hclean]]; [done|].
    destruct (IH w1) as (IH1 & IH2 & IH3).
    destruct (watcher h rt epochSettings fuel w1) as [[r w2] s2]; cbn [fst snd] in *.
    split; [done|]. split.
    + intros pre call e post Heq. rewrite setupExchanges_app in Heq.
      destruct (split_after_clean (λ x : SetupCall * SetupAnswer, forall e', x.2 <> SRejected e')
                  _ _ _ _ (call, SRejected e) Hclean (λ H, H e eq_refl) Heq)
        as (pre' & _ & Heq').
      by apply (IH2 pre' call e post).
    + intros Hr. rewrite setupExchanges_app, length_app, Hlen, (IH3 Hr). lia.
  - split; [done|]. split; [|done]. intros pre call e post Heq.
    rewrite <- (app_nil_r (setupExchanges s1)) in Heq.
    destruct Hturn as [(pre0 & call0 & e1 & Hex & Hclean & Hthrown)|[Hlen Hclean]].
    + rewrite Hex, <- app_assoc in Heq.
      destruct (split_after_clean (λ x : SetupCall * SetupAnswer, forall e', x.2 <> SRejected e')
                  _ _ _ _ (call, SRejected e) Hclean (λ H, H e eq_refl) Heq)
        as (pre' & _ & Heq').
      destruct pre' as [|p pre']; simpl in Heq'.
      * injection Heq' as <- <- <-. done.
      * injection Heq' as _ Heq'. by destruct pre'.
    + destruct (split_after_clean (λ x : SetupCall * SetupAnswer, forall e', x.2 <> SRejected e')
                  _ _ _ _ (call, SRejected e) Hclean (λ H, H e eq_refl) Heq)
        as (pre' & _ & Heq').
      by destruct pre'.
Qed.

End WatcherFacts.

(** X15. A turn of the watcher looks at the relay's raw logs only when the
    [daemonize] response carries no decoded log (lines 307-322).  When it
    carries some, and neither they nor the decoded reward offers announce a
    signing policy, the turn completes and leaves [signingPolicies] as it
    was, whatever [decodeRawLogs] would find in the relay's logs of that
    response; the sleep is assumed to leave the map alone. *)
Theorem watcherTurn_skips_relay_logs_after_decoded_logs {Chain : Type} (h : @Harness Chain)
    (rt : @Runtime Chain) (epochSettings : EpochSettings) (w w1 w2 : @World Chain)
    (response : TxResponse) (blockTimestamp : Z) :
  flareSystemsManager_daemonize h (Some 20000000) w = (Returned response, w1) ->
  eth_getBlock_timestamp h (tx_receipt_blockNumber response) w1
    = (Returned blockTimestamp, w2) ->
  tx_logs response <> [] ->
  Forall (λ log, event log <> "SigningPolicyInitialized")
    (tx_logs response
       ++ decodeRawLogs h response FtsoRewardOffersManagerContract "InflationRewardsOffered") ->
  (forall ms w', signingPolicies (setTimeout_resolve rt ms w') = signingPolicies w') ->
  taskResult (watcherTurn h rt epochSettings w) = Ok tt
  /\ signingPolicies (taskWorld (watcherTurn h rt epochSettings w)) = signingPolicies w2.
Proof.
  intros Hd Hg Hlogs Hall Hsleep. rewrite watcherTurn_run, Hd, Hg. cbn zeta.
  cbn [taskResult taskWorld fst snd].
  destruct (tx_logs response) as [|log0 logs] eqn:El; [done|].
  cbn [length Nat.ltb Nat.leb]. rewrite <- El in *. clear El log0 logs Hlogs.
  apply Forall_app in Hall as [H1 H2].
  destruct (processLogs_without_policy rt epochSettings _ blockTimestamp w2 H1) as [Hr1 Hp1].
  rewrite run_bind, run_bind.
  destruct (processLogs rt epochSettings (tx_logs response) blockTimestamp w2)
    as [[[[]|e|] w3] t3]; unfold resultOf, worldOf in *; cbn [fst snd] in *; try done.
  destruct (processLogs_without_policy rt epochSettings _ blockTimestamp w3 H2) as [Hr2 Hp2].
  destruct (processLogs rt epochSettings
              (decodeRawLogs h response FtsoRewardOffersManagerContract
                 "InflationRewardsOffered") blockTimestamp w3)
    as [[[[]|e|] w4] t4]; unfold resultOf, worldOf in *; cbn [fst snd] in *; try done.
  cbn [sleep fst snd]. split; [done|]. rewrite Hsleep. congruence.
Qed.

Lemma watcherTurn_skips_relay_logs_after_decoded_logs_witness :
  taskResult (watcherTurn Demo3.harness Demo.rt Demo.epochSettings Demo3.world) = Ok tt
  /\ signingPolicies (taskWorld (watcherTurn Demo3.harness Demo.rt Demo.epochSettings
                                   Demo3.world))
     = signingPolicies (Demo3.mined Demo3.world).
Proof.
  apply (watcherTurn_skips_relay_logs_after_decoded_logs Demo3.harness Demo.rt
           Demo.epochSettings Demo3.world (Demo3.mined Demo3.world)
           (Demo3.mined Demo3.world) (Demo3.response 0) Demo.now0).
  - reflexivity.
  - reflexivity.
  - discriminate.
  - repeat constructor; discriminate.
  - intros ms w'. reflexivity.
Defined.

(** X16. The watcher loop (lines 303-325) has no exit and no [catch]: it
    never returns; the first rejected [daemonize] or [getBlock] ends it with
    the rejection, and no call follows; and as long as it runs, every turn
    makes exactly these two calls. *)
Theorem watcher_stops_only_by_failing {Chain : Type} (h : @Harness Chain)
    (rt : @Runtime Chain) (epochSettings : EpochSettings) (fuel : nat) (w : @World Chain) :
  let run := watcher h rt epochSettings fuel w in
  taskResult run <> Ok tt
  /\ (forall pre call e post,
        setupExchanges (taskSteps run) = pre ++ (call, SRejected e) :: post ->
        taskResult run = Thrown e /\ post = [])
  /\ (taskResult run = Pending ->
      length (setupExchanges (taskSteps run)) = (2 * fuel)%nat).
Proof. apply watcher_ends. Qed.

(** X17. The watcher loop (lines 303-325 with [processLog], lines 364-383)
    only extends the shared store: over any number of turns the latest
    initialized round does not decrease, the events recorded for a reward
    epoch are only extended at the end, and no signing policy is removed,
    provided the same holds of what happens during its awaits ([daemonize],
    [getBlock], the sleep). *)
Theorem watcher_only_extends_the_store {Chain : Type} (h : @Harness Chain)
    (rt : @Runtime Chain) (epochSettings : EpochSettings) (fuel : nat) (w : @World Chain) :
  (forall gas w', storeGrows w' (flareSystemsManager_daemonize h gas w').2) ->
  (forall blockNumber w', storeGrows w' (eth_getBlock_timestamp h blockNumber w').2) ->
  (forall ms w', storeGrows w' (setTimeout_resolve rt ms w')) ->
  storeGrows w (taskWorld (watcher h rt epochSettings fuel w)).
Proof. apply watcher_grows. Qed.

Lemma watcher_only_extends_the_store_witness :
  storeGrows Demo3.world
    (taskWorld (watcher Demo3.harness Demo.rt Demo.epochSettings 3 Demo3.world)).
Proof.
  apply (watcher_only_extends_the_store Demo3.harness Demo.rt Demo.epochSettings 3
           Demo3.world).
  - intros gas w'. apply storeGrows_same; reflexivity.
  - intros blockNumber w'. apply storeGrows_same; reflexivity.
  - intros ms w'. apply storeGrows_same; reflexivity.
Defined.

(** ** Registration of the participants *)

Section RegistrationFacts.
Context {Chain : Type}.
Variable registry : @Registry Chain.
Variable web3 : @Web3 Chain.
Implicit Types (w : @World Chain) (accounts : list Account).

Lemma reg_run_bind {A B} (m : Reg A) (k : A -> Reg B) w :
  (m ≫= k) w =
  match m w with
  | (Ok a, w1, t1) => let '(r, w2, t2) := k a w1 in (r, w2, t1 ++ t2)
  | (Thrown e, w1, t1) => (Thrown e, w1, t1)
  | (Pending, w1, t1) => (Pending, w1, t1)
  end.
Proof. reflexivity. Qed.

Lemma reg_run_send {B} call (k : unit -> Reg B) w :
  (send registry call ≫= k) w =
  match registry_send registry call w with
  | (Returned _, w1) =>
      (regResult (k tt w1), regWorld (k tt w1), Sent call :: regSteps (k tt w1))
  | (Failed e, w1) => (Thrown e, w1, [Reverted call e])
  end.
Proof.
  rewrite reg_run_bind. unfold send.
  destruct (registry_send registry call w) as [[[]|e] w1]; [|done].
  by destruct (k tt w1) as [[r w2] t2].
Qed.

Lemma reg_run_setMockStakingData {B} txId stakingType inputAddress nodeId startTime endTime
    weight stakingProved (k : PChainStake -> Reg B) w :
  let data :=
    {| txId := txId; stakingType := stakingType; inputAddress := inputAddress;
       stake_nodeId := nodeId; startTime := startTime; endTime := endTime;
       weight := weight |} in
  let call := GivenCalldataReturnBool (verifyStake_encodeABI registry data []) stakingProved in
  (setMockStakingData registry txId stakingType inputAddress nodeId startTime endTime weight
     stakingProved ≫= k) w =
  match registry_send registry call w with
  | (Returned _, w1) =>
      (regResult (k data w1), regWorld (k data w1), Sent call :: regSteps (k data w1))
  | (Failed e, w1) => (Thrown e, w1, [Reverted call e])
  end.
Proof.
  cbn zeta. rewrite reg_run_bind. unfold setMockStakingData. rewrite reg_run_send.
  destruct (registry_send registry _ w) as [[[]|e] w1]; [|done].
  cbn. by destruct (k _ w1) as [[r w2] t2].
Qed.

Lemma setMockStakingData_as_send {B} txId stakingType inputAddress nodeId startTime endTime
    weight stakingProved (k : PChainStake -> Reg B) w :
  let data :=
    {| txId := txId; stakingType := stakingType; inputAddress := inputAddress;
       stake_nodeId := nodeId; startTime := startTime; endTime := endTime;
       weight := weight |} in
  (setMockStakingData registry txId stakingType inputAddress nodeId startTime endTime weight
     stakingProved ≫= k) w
  = (send registry
       (GivenCalldataReturnBool (verifyStake_encodeABI registry data []) stakingProved)
     ≫= λ _, k data) w.
Proof. cbn zeta. by rewrite reg_run_setMockStakingData, reg_run_send. Qed.

Lemma four_from accounts offset (a b g p : Account) n :
  accounts !! offset = Some a ->
  accounts !! (offset + 1)%nat = Some b ->
  accounts !! (offset + 2)%nat = Some g ->
  accounts !! (offset + 3)%nat = Some p ->
  take (4 * S n) (drop offset accounts)
  = [a; b; g; p] ++ take (4 * n) (drop (offset + 4) accounts)
  /\ (offset + 4 <= length accounts)%nat.
Proof.
  intros Ha Hb Hg Hp. split.
  - rewrite (drop_S _ _ _ Ha).
    replace (S offset) with (offset + 1)%nat by lia. rewrite (drop_S _ _ _ Hb).
    replace (S (offset + 1)) with (offset + 2)%nat by lia. rewrite (drop_S _ _ _ Hg).
    replace (S (offset + 2)) with (offset + 3)%nat by lia. rewrite (drop_S _ _ _ Hp).
    replace (S (offset + 3)) with (offset + 4)%nat by lia.
    replace (4 * S n)%nat with (S (S (S (S (4 * n))))) by lia. reflexivity.
  - apply lookup_lt_Some in Hp. lia.
Qed.

(** What the loop did when it returned. *)
Lemma registerAccountsFrom_ok accounts rewardEpochStart remaining i accountOffset
    registeredAccounts w result :
  let run :=
    registerAccountsFrom registry web3 accounts rewardEpochStart remaining i accountOffset
      registeredAccounts w in
  regResult run = Ok result ->
  exists new,
    result = registeredAccounts ++ new
    /\ length new = remaining
    /\ concat (map roles new) = take (4 * remaining) (drop accountOffset accounts)
    /\ ((0 < remaining)%nat -> (accountOffset + 4 * remaining <= length accounts)%nat)
    /\ length (regSteps run) = (11 * remaining)%nat
    /\ Forall (λ s, isSent s = true) (regSteps run).
Proof.
  cbn zeta.
  revert i accountOffset registeredAccounts w.
  induction remaining as [|remaining IH]; intros i accountOffset registeredAccounts w.
  { cbn. intros [= <-]. exists []. rewrite app_nil_r. repeat split; try done; lia. }
  cbn [registerAccountsFrom].
  destruct (accounts !! accountOffset) as [identityAccount|] eqn:E0; [|done].
  destruct (util_privateKeyToPublicKeyPair registry _) as [x y].
  rewrite reg_run_send. destruct (registry_send registry _ w) as [[[]|e] w1]; [|done].
  cbn [regResult regWorld regSteps fst snd].
  rewrite reg_run_setMockStakingData. cbn zeta.
  destruct (registry_send registry _ w1) as [[[]|e] w2]; [|done].
  cbn [regResult regWorld regSteps fst snd].
  rewrite reg_run_send. destruct (registry_send registry _ w2) as [[[]|e] w3]; [|done].
  cbn [regResult regWorld regSteps fst snd].
  rewrite reg_run_send. destruct (registry_send registry _ w3) as [[[]|e] w4]; [|done].
  cbn [regResult regWorld regSteps fst snd].
  rewrite reg_run_send. destruct (registry_send registry _ w4) as [[[]|e] w5]; [|done].
  cbn [regResult regWorld regSteps fst snd].
  destruct (accounts !! (accountOffset + 1)%nat) as [submitAccount|] eqn:E1; [|done].
  rewrite reg_run_send. destruct (registry_send registry _ w5) as [[[]|e] w6]; [|done].
  cbn [regResult regWorld regSteps fst snd].
  rewrite reg_run_send. destruct (registry_send registry _ w6) as [[[]|e] w7]; [|done].
  cbn [regResult regWorld regSteps fst snd].
  destruct (accounts !! (accountOffset + 2)%nat) as [signingAccount|] eqn:E2; [|done].
  rewrite reg_run_send. destruct (registry_send registry _ w7) as [[[]|e] w8]; [|done].
  cbn [regResult regWorld regSteps fst snd].
  rewrite reg_run_send. destruct (registry_send registry _ w8) as [[[]|e] w9]; [|done].
  cbn [regResult regWorld regSteps fst snd].
  destruct (accounts !! (accountOffset + 3)%nat) as [policySigningAccount|] eqn:E3; [|done].
  rewrite reg_run_send. destruct (registry_send registry _ w9) as [[[]|e] w10]; [|done].
  cbn [regResult regWorld regSteps fst snd].
  rewrite reg_run_send. destruct (registry_send registry _ w10) as [[[]|e] w11]; [|done].
  cbn [regResult regWorld regSteps fst snd].
  intros Hok. destruct (IH _ _ _ _ Hok) as (new & -> & Hlen & Hroles & Hle & Hsteps & Hsent).
  destruct (four_from accounts accountOffset _ _ _ _ remaining E0 E1 E2 E3) as [Hfour Hfit].
  eexists (_ :: new). split; [by rewrite <- app_assoc|].
  split; [by rewrite length_cons, Hlen|].
  split; [by rewrite Hfour, <- Hroles|].
  split; [intros _; destruct remaining; lia|].
  split; [cbn [length]; rewrite Hsteps; lia|].
  by repeat constructor.
Qed.

Lemma stopsAtRevert_nil {A} (r : Result A) w : stopsAtRevert (r, w, []).
Proof. intros pre call e post Heq. by destruct pre. Qed.

Lemma stopsAtRevert_send {B} call (k : unit -> Reg B) w :
  (forall w1, stopsAtRevert (k tt w1)) ->
  stopsAtRevert ((send registry call ≫= k) w).
Proof.
  intros Hk. rewrite reg_run_send.
  destruct (registry_send registry call w) as [[[]|e0] w1]; intros pre call' e post Heq;
    unfold regSteps, regResult in *; cbn [fst snd] in *.
  - destruct pre as [|p pre]; [done|]. injection Heq as _ Heq.
    by apply (Hk w1 pre call' e post).
  - destruct pre as [|p pre]; [by injection Heq as <- <- <-|].
    injection Heq as _ Heq. by destruct pre.
Qed.

Lemma registerAccountsFrom_stops accounts rewardEpochStart remaining i accountOffset
    registeredAccounts w :
  stopsAtRevert
    (registerAccountsFrom registry web3 accounts rewardEpochStart remaining i accountOffset
       registeredAccounts w).
Proof.
  revert i accountOffset registeredAccounts w.
  induction remaining as [|remaining IH]; intros i accountOffset registeredAccounts w.
  { apply stopsAtRevert_nil. }
  cbn [registerAccountsFrom].
  destruct (accounts !! accountOffset) as [identityAccount|]; [|apply stopsAtRevert_nil].
  destruct (util_privateKeyToPublicKeyPair registry _) as [x y].
  apply stopsAtRevert_send. intros w1.
  rewrite setMockStakingData_as_send. cbn zeta.
  apply stopsAtRevert_send. intros w2.
  apply stopsAtRevert_send. intros w3.
  apply stopsAtRevert_send. intros w4.
  apply stopsAtRevert_send. intros w5.
  destruct (accounts !! (accountOffset + 1)%nat) as [submitAccount|];
    [|apply stopsAtRevert_nil].
  apply stopsAtRevert_send. intros w6.
  apply stopsAtRevert_send. intros w7.
  destruct (accounts !! (accountOffset + 2)%nat) as [signingAccount|];
    [|apply stopsAtRevert_nil].
  apply stopsAtRevert_send. intros w8.
  apply stopsAtRevert_send. intros w9.
  destruct (accounts !! (accountOffset + 3)%nat) as [policySigningAccount|];
    [|apply stopsAtRevert_nil].
  apply stopsAtRevert_send. intros w10.
  apply stopsAtRevert_send. intros w11.
  apply IH.
Qed.

End RegistrationFacts.

(** X18. When [registerAccounts] (lines 396-463) returns, it has registered
    [voterCount] participants out of consecutive accounts: their roles, read
    in the order identity, submit, submitSignatures, signingPolicy, are
    [accounts[10 .. 10 + 4 * voterCount)], which [accounts] must be long
    enough to hold unless [voterCount] is 0; so when the accounts are pairwise different, no account
    has two roles and none is the governance account [accounts[0]].  Eleven
    transactions were sent for each participant, and none was rejected. *)
Theorem registerAccounts_takes_consecutive_accounts {Chain : Type}
    (registry : @Registry Chain) (web3 : @Web3 Chain) (voterCount : nat)
    (accounts : list Account) (rewardEpochStart : Z) (w : @World Chain)
    (registeredAccounts : list RegisteredAccount) :
  let run := registerAccounts registry web3 voterCount accounts rewardEpochStart w in
  regResult run = Ok registeredAccounts ->
  length registeredAccounts = voterCount
  /\ concat (map roles registeredAccounts) = take (4 * voterCount) (drop 10 accounts)
  /\ ((0 < voterCount)%nat -> (10 + 4 * voterCount <= length accounts)%nat)
  /\ length (regSteps run) = (11 * voterCount)%nat
  /\ Forall (λ s, isSent s = true) (regSteps run)
  /\ (NoDup accounts ->
      NoDup (concat (map roles registeredAccounts))
      /\ forall governanceAccount,
           head accounts = Some governanceAccount ->
           governanceAccount ∉ concat (map roles registeredAccounts)).
Proof.
  intros run Hok. subst run. unfold registerAccounts in *.
  destruct (registerAccountsFrom_ok registry web3 accounts rewardEpochStart voterCount 0 10 []
              w registeredAccounts Hok) as (new & -> & Hlen & Hroles & Hle & Hsteps & Hsent).
  cbn [app]. repeat (split; [done|]).
  intros Hnd. rewrite Hroles. split.
  - apply (sublist_NoDup _ (drop 10 accounts)); [|apply sublist_take].
    apply (sublist_NoDup _ accounts); [exact Hnd|apply sublist_drop].
  - intros governanceAccount Hhead Hin.
    apply elem_of_take in Hin as (j & Hj & _). rewrite lookup_drop in Hj.
    destruct accounts as [|a0 rest]; [done|]. injection Hhead as ->.
    pose proof (NoDup_lookup _ 0%nat (10 + j)%nat governanceAccount Hnd eq_refl Hj). lia.
Qed.

(** X19. [registerAccounts] (lines 396-463) and [setMockStakingData] (lines
    782-807) catch nothing: the first transaction that reverts ends the
    registration with the revert, no transaction follows it, and no list of
    participants is returned. *)
Theorem registerAccounts_stops_at_first_revert {Chain : Type}
    (registry : @Registry Chain) (web3 : @Web3 Chain) (voterCount : nat)
    (accounts : list Account) (rewardEpochStart : Z) (w : @World Chain) :
  let run := registerAccounts registry web3 voterCount accounts rewardEpochStart w in
  forall pre call e post,
    regSteps run = pre ++ Reverted call e :: post ->
    regResult run = Thrown e /\ post = [].
Proof. intros run. apply registerAccountsFrom_stops. Qed.

Lemma registerAccounts_takes_consecutive_accounts_witness :
  length [ {| submit := Demo4.account 11; submitSignatures := Demo4.account 12;
              signingPolicy := Demo4.account 13; identity := Demo4.account 10 |};
           {| submit := Demo4.account 15; submitSignatures := Demo4.account 16;
              signingPolicy := Demo4.account 17; identity := Demo4.account 14 |} ] = 2%nat.
Proof.
  apply (registerAccounts_takes_consecutive_accounts Demo4.registry Demo.web3 2 Demo4.accounts
           Demo.now0 Demo.world0).
  vm_compute. reflexivity.
Defined.

Lemma registerAccounts_stops_at_first_revert_witness :
  regResult (registerAccounts Demo4.withoutDeposits Demo.web3 2 Demo4.accounts Demo.now0
               Demo.world0)
  = Thrown "revert: deposits are closed"
  /\ @nil RegistryStep = [].
Proof.
  apply (registerAccounts_stops_at_first_revert Demo4.withoutDeposits Demo.web3 2
           Demo4.accounts Demo.now0 Demo.world0
           (take 3 (regSteps (registerAccounts Demo4.withoutDeposits Demo.web3 2
                                Demo4.accounts Demo.now0 Demo.world0)))
           (Deposit (weightGwei * GWEI) (address (Demo4.account 10)))).
  vm_compute. reflexivity.
Defined.
